(** * yt_dlp_transcript: caption retrieval, decoding and rendering

    A shallow embedding of the pure core of the repository
    ([utils.py], [transcript_processor.py], [url_extract_test.py]) and the
    properties of it that the specification states.

    Python values are modelled as follows.
    - A [str] is the list of its Unicode code points ([pystr]); [len] is
      the length of that list.  Literals are written [py "..."] for ASCII
      text and as explicit code points for Japanese text.
    - An [int] is a [Z].  A finite [float] is the rational it denotes, a
      [Q]; the float division of the decoders rounds to binary64 and
      raises on an integer too large for a float ([float_div_1000]).
    - A [dict] is an association list in insertion order (the selector
      reads [list(d.keys())[0]], so the order matters).
    - A [try: ... except: return None] block is a computation in [option]:
      [None] stands for "an exception was raised and caught". *)

From Stdlib Require Import String Ascii ZArith NArith QArith Bool Lia List.
From Stdlib Require Import DecimalString.
Import ListNotations.

#[local] Set Warnings "-register-all,-abstract-large-number".

Local Open Scope N_scope.
Local Open Scope list_scope.

(** ** Python strings *)

Definition pystr := list N.

Definition py (s : string) : pystr :=
  map N_of_ascii (list_ascii_of_string s).

Definition ch (a : ascii) : N := N_of_ascii a.

Fixpoint str_eqb (a b : pystr) : bool :=
  match a, b with
  | [], [] => true
  | x :: a', y :: b' => (x =? y) && str_eqb a' b'
  | _, _ => false
  end.

Fixpoint starts_with (p s : pystr) : bool :=
  match p, s with
  | [], _ => true
  | x :: p', y :: s' => (x =? y) && starts_with p' s'
  | _ :: _, [] => false
  end.

(** [sub in s] for strings. *)
Fixpoint contains (sub s : pystr) : bool :=
  starts_with sub s ||
  match s with
  | [] => false
  | _ :: s' => contains sub s'
  end.

(** [str.isspace] for one code point; the same set is what [str.strip()]
    removes and what [\s] matches in a [str] pattern. *)
Definition is_space (c : N) : bool :=
  ((9 <=? c) && (c <=? 13)) || ((28 <=? c) && (c <=? 32)) ||
  (c =? 133) || (c =? 160) || (c =? 5760) ||
  ((8192 <=? c) && (c <=? 8202)) || (c =? 8232) || (c =? 8233) ||
  (c =? 8239) || (c =? 8287) || (c =? 12288).

Fixpoint drop_while (p : N -> bool) (s : pystr) : pystr :=
  match s with
  | c :: s' => if p c then drop_while p s' else s
  | [] => []
  end.

Definition strip_by (p : N -> bool) (s : pystr) : pystr :=
  rev (drop_while p (rev (drop_while p s))).

(** [s.strip()] *)
Definition strip (s : pystr) : pystr := strip_by is_space s.

(** [s.endswith(suffix)] *)
Definition ends_with (suffix s : pystr) : bool :=
  starts_with (rev suffix) (rev s).

(** [s.split(sep)] for a non-empty separator: leftmost, non-overlapping
    occurrences.  [skip] counts the characters of a separator that was
    just recognised and that remain to be passed over. *)
Fixpoint split_from (sep : pystr) (skip : nat) (s : pystr) : list pystr :=
  match s with
  | [] => [[]]
  | c :: rest =>
      match skip with
      | S k => split_from sep k rest
      | O =>
          if starts_with sep s
          then [] :: split_from sep (length sep - 1) rest
          else match split_from sep 0 rest with
               | h :: t => (c :: h) :: t
               | [] => [[c]]
               end
      end
  end.

Definition split (sep s : pystr) : list pystr := split_from sep 0 s.

(** [sep.join(parts)] *)
Fixpoint join (sep : pystr) (parts : list pystr) : pystr :=
  match parts with
  | [] => []
  | [p] => p
  | p :: ps => p ++ sep ++ join sep ps
  end.

(** [s.replace(old, '')] for a non-empty [old]. *)
Fixpoint remove_from (old : pystr) (skip : nat) (s : pystr) : pystr :=
  match s with
  | [] => []
  | c :: rest =>
      match skip with
      | S k => remove_from old k rest
      | O =>
          if starts_with old s
          then remove_from old (length old - 1) rest
          else c :: remove_from old 0 rest
      end
  end.

Definition remove_all (old s : pystr) : pystr := remove_from old 0 s.

(** [s.lower()].  Only the ASCII letters are mapped; see
    [detect_video_language] for why that is enough here. *)
Definition lower_char (c : N) : N :=
  if (65 <=? c) && (c <=? 90) then c + 32 else c.

Definition lower (s : pystr) : pystr := map lower_char s.

(** Decimal rendering of a natural number, ["%d"]. *)
Definition str_of_N (n : N) : pystr :=
  py (NilZero.string_of_uint (N.to_uint n)).

Definition str_of_Z (z : Z) : pystr :=
  match z with
  | Zneg p => ch "-"%char :: str_of_N (Npos p)
  | _ => str_of_N (Z.to_N z)
  end.

(** ["%02d"] for a natural number. *)
Definition pad2 (n : N) : pystr :=
  if n <? 10 then ch "0"%char :: str_of_N n else str_of_N n.

(** ** utils.py *)

(** [int(x)] for a float: truncation toward zero. *)
Definition int_of_float (x : Q) : Z := Z.quot (Qnum x) (Zpos (Qden x)).

(** The days [timedelta] accepts: a value whose normalised day count
    lies outside of this range raises OverflowError. *)
Definition timedelta_max_days : Z := 999999999.

(** [str(timedelta(seconds=n))] for an integer number of seconds: the
    value is normalised to days and seconds of the day (floor division),
    printed as [H:MM:SS] and prefixed by the day count when that is not
    zero.  This is the string for a value [timedelta] accepts, that is
    for [- timedelta_max_days <= n / 86400 <= timedelta_max_days];
    outside of that range the constructor raises and no string is
    produced. *)
Definition str_of_timedelta (n : Z) : pystr :=
  let days := (n / 86400)%Z in
  let secs := Z.to_N (n mod 86400)%Z in
  let hh := secs / 3600 in
  let mm := (secs / 60) mod 60 in
  let ss := secs mod 60 in
  let hms := str_of_N hh ++ py ":" ++ pad2 mm ++ py ":" ++ pad2 ss in
  if (days =? 0)%Z then hms
  else str_of_Z days ++ py " day" ++
       (if (Z.abs days =? 1)%Z then [] else py "s") ++ py ", " ++ hms.

Definition format_timestamp (seconds : Q) : pystr :=
  str_of_timedelta (int_of_float seconds).

(** [format_timestamp] with the range check of [timedelta]: [None] when
    the constructor raises OverflowError, the string otherwise. *)
Definition format_timestamp_result (seconds : Q) : option pystr :=
  let n := int_of_float seconds in
  if (Z.abs (n / 86400) <=? timedelta_max_days)%Z
  then Some (str_of_timedelta n)
  else None.

(** The first code point of every block of ten decimal digits (general
    category Nd) of the Unicode database, version 14; [int] accepts all
    of them. *)
Definition decimal_zeros : list N :=
  [48; 1632; 1776; 1984; 2406; 2534; 2662; 2790; 2918; 3046; 3174; 3302;
   3430; 3558; 3664; 3792; 3872; 4160; 4240; 6112; 6160; 6470; 6608; 6784;
   6800; 6992; 7088; 7232; 7248; 42528; 43216; 43264; 43472; 43504; 43600;
   44016; 65296; 66720; 68912; 69734; 69872; 69942; 70096; 70384; 70736;
   70864; 71248; 71360; 71472; 71904; 72016; 72784; 73040; 73120; 92768;
   92864; 93008; 120782; 120792; 120802; 120812; 120822; 123200; 123632;
   125264; 130032].

Definition digit_value (c : N) : option Z :=
  match find (fun z => (z <=? c) && (c <? z + 10)) decimal_zeros with
  | Some z => Some (Z.of_N (c - z))
  | None => None
  end.

(** The default of [sys.get_int_max_str_digits()]. *)
Definition int_max_str_digits : nat := 4300.

(** The digits of an [int] literal: one or more digits, single
    underscores allowed between two digits.  [prev] tells whether the
    previous character was a digit. *)
Fixpoint int_digits (acc : Z) (prev : bool) (s : pystr) : option Z :=
  match s with
  | [] => if prev then Some acc else None
  | c :: r =>
      if c =? ch "_"%char
      then (if prev then int_digits acc false r else None)
      else match digit_value c with
           | Some d => int_digits (10 * acc + d) true r
           | None => None
           end
  end.

(** The white space [int] tolerates around the literal: that of
    [str.isspace] except the four separators U+001C to U+001F. *)
Definition is_int_space (c : N) : bool :=
  is_space c && negb ((28 <=? c) && (c <=? 31)).

(** [int(s)] for a string, base 10; [None] is ValueError.  This is
    the conversion of a literal within the interpreter's limit on the
    number of digits ([int_max_str_digits] by default), beyond which
    [int] raises as well. *)
Definition py_int (s : pystr) : option Z :=
  match strip_by is_int_space s with
  | c :: r =>
      if c =? ch "-"%char then option_map Z.opp (int_digits 0 false r)
      else if c =? ch "+"%char then int_digits 0 false r
      else int_digits 0 false (c :: r)
  | [] => None
  end.

(** The body of the [try] block of [vtt_time_to_seconds]; [None] when
    one of the [int] conversions raises. *)
Definition vtt_time_parse (time_str : pystr) : option Z :=
  let time_str := hd [] (split (py ".") time_str) in
  let parts := split (py ":") time_str in
  match parts with
  | [h; m; s] =>
      match py_int h, py_int m, py_int s with
      | Some hours, Some minutes, Some seconds =>
          Some (hours * 3600 + minutes * 60 + seconds)%Z
      | _, _, _ => None
      end
  | [m; s] =>
      match py_int m, py_int s with
      | Some minutes, Some seconds => Some (minutes * 60 + seconds)%Z
      | _, _ => None
      end
  | _ => py_int (hd [] parts)
  end.

(** [try: ... except: return 0] *)
Definition vtt_time_to_seconds (time_str : pystr) : Z :=
  match vtt_time_parse time_str with
  | Some n => n
  | None => 0%Z
  end.

Definition japanese_indicators : list pystr :=
  [ [12434]; [12399]; [12364]; [12395]; [12391]; [12392]; [12398];
    [12391; 12377]; [12414; 12377]; [12375; 12383]; [12377; 12427];
    [12354; 12427]; [12356; 12427] ].

(** Every indicator is made of hiragana, which have no case, and no
    character lower-cases to a hiragana or to nothing: an indicator
    occurs in [text.lower()] exactly when it occurs in [text], whatever
    [lower] does to the cased letters outside ASCII. *)
Definition detect_video_language (title description : pystr) : pystr :=
  let text := lower (title ++ py " " ++ description) in
  if existsb (fun indicator => contains indicator text) japanese_indicators
  then py "ja"
  else py "en".

Definition music_tags : list pystr :=
  [ [91; 38899; 27005; 93]; [9834]; [9835]; [9836]; [9833];
    [91; 25293; 25163; 93]; [91; 31505; 12356; 93]; [91; 31505; 93];
    [91; 38899; 38911; 21177; 26524; 93]; [91; 21177; 26524; 38899; 93] ].

(** [[\u3040-\u309F\u30A0-\u30FF\u4E00-\u9FAF]] *)
Definition japanese_char (c : N) : bool :=
  ((12352 <=? c) && (c <=? 12447)) || ((12448 <=? c) && (c <=? 12543)) ||
  ((19968 <=? c) && (c <=? 40879)).

(** The length of the white-space run at the head of [s] and the
    character that follows it. *)
Fixpoint space_run (s : pystr) : nat * option N :=
  match s with
  | [] => (O, None)
  | c :: r =>
      if is_space c
      then let '(n, d) := space_run r in (S n, d)
      else (O, Some c)
  end.

(** [re.sub('(J)\s+(J)', r'\1\2', s)]: scanning from the left, a
    Japanese character followed by a non-empty white-space run and a
    Japanese character is a match; the run is dropped and the scan
    resumes after the second character, which therefore cannot open
    the next match.  ([\s+] is greedy and no Japanese character is white
    space, so the run is the whole maximal one.) *)
Fixpoint sub_japanese_spaces (skip : nat) (s : pystr) : pystr :=
  match s with
  | [] => []
  | c :: rest =>
      match skip with
      | S k => sub_japanese_spaces k rest
      | O =>
          if japanese_char c then
            match space_run rest with
            | (S n, Some d) =>
                if japanese_char d
                then c :: d :: sub_japanese_spaces (S (S n)) rest
                else c :: sub_japanese_spaces 0 rest
            | _ => c :: sub_japanese_spaces 0 rest
            end
          else c :: sub_japanese_spaces 0 rest
      end
  end.

(** [re.sub('\s+', ' ', s)]; [in_run] tells whether the previous
    character was white space. *)
Fixpoint collapse_spaces (in_run : bool) (s : pystr) : pystr :=
  match s with
  | [] => []
  | c :: r =>
      if is_space c
      then (if in_run then collapse_spaces true r
            else 32 :: collapse_spaces true r)
      else c :: collapse_spaces false r
  end.

Definition clean_japanese_text (text : pystr) : pystr :=
  let text := fold_left (fun t tag => remove_all tag t) music_tags text in
  let text := sub_japanese_spaces 0 text in
  let text := collapse_spaces false text in
  strip text.

(** ** transcript_processor.py: data *)

(** A Python [dict] with string keys, in insertion order. *)
Definition dict (V : Type) := list (pystr * V).

(** [d.get(key)] *)
Fixpoint dict_get {V : Type} (key : pystr) (d : dict V) : option V :=
  match d with
  | [] => None
  | (k, v) :: d' => if str_eqb k key then Some v else dict_get key d'
  end.

(** [key in d] *)
Definition dict_mem {V : Type} (key : pystr) (d : dict V) : bool :=
  match dict_get key d with
  | Some _ => true
  | None => false
  end.

(** One entry of a caption track list: the keys ['ext'] and ['url'] of
    the dictionary, each of which may be missing. *)
Record TrackVariant := {
  ext : option pystr;
  url : option pystr
}.

(** The keys of the extractor's [info] dictionary that the core reads. *)
Record video_info := {
  title : option pystr;
  id : option pystr;
  description : option pystr;
  subtitles : option (dict (list TrackVariant));
  automatic_captions : option (dict (list TrackVariant))
}.

(** [d.get(key, default)] on a key that may be missing. *)
Definition get_or {A : Type} (field : option A) (default : A) : A :=
  match field with
  | Some v => v
  | None => default
  end.

(** One decoded cue: the keys ['text'], ['start'] and ['duration']. *)
Record cue := {
  cue_text : pystr;
  cue_start : Q;
  cue_duration : Q
}.

(** ** Caption track selection *)

(** The local variables [transcript_data] and [transcript_type]. *)
Record selection := {
  transcript_data : option (list TrackVariant);
  transcript_type : option pystr
}.

(** Truth value of [transcript_data]: [None] and the empty list are
    false. *)
Definition truthy (d : option (list TrackVariant)) : bool :=
  match d with
  | Some (_ :: _) => true
  | _ => false
  end.

Definition preferred_languages (detected_language : pystr) : list pystr :=
  if str_eqb detected_language (py "ja")
  then [py "ja"; py "ja-JP"; py "en"; py "en-US"; py "en-GB"]
  else [py "en"; py "en-US"; py "en-GB"; py "ja"; py "ja-JP"].

Definition type_label (kind lang_code : pystr) : pystr :=
  kind ++ py " (" ++ lang_code ++ py ")".

(** [for lang_code in preferred_languages: if lang_code in tracks: ...
    break]: the first preferred code that is a key of [tracks] sets both
    variables; without one they keep their values. *)
Fixpoint walk_languages (kind : pystr) (tracks : dict (list TrackVariant))
    (langs : list pystr) (sel : selection) : selection :=
  match langs with
  | [] => sel
  | lang_code :: langs' =>
      match dict_get lang_code tracks with
      | Some data =>
          {| transcript_data := Some data;
             transcript_type := Some (type_label kind lang_code) |}
      | None => walk_languages kind tracks langs' sel
      end
  end.

(** [lang_code = list(tracks.keys())[0]; transcript_data =
    tracks[lang_code]] on a non-empty [tracks]. *)
Definition first_available (kind : pystr) (tracks : dict (list TrackVariant))
    (sel : selection) : selection :=
  match tracks with
  | (lang_code, data) :: _ =>
      {| transcript_data := Some data;
         transcript_type := Some (type_label kind lang_code) |}
  | [] => sel
  end.

(** Lines 46 to 78 of [get_video_info_and_transcript]: the values of the
    two variables when the selection is over. *)
Definition choose_transcript (detected_language : pystr)
    (manual automatic : dict (list TrackVariant)) : selection :=
  let langs := preferred_languages detected_language in
  let sel := {| transcript_data := None; transcript_type := None |} in
  let sel := walk_languages (py "Manual") manual langs sel in
  let sel :=
    if negb (truthy (transcript_data sel))
    then walk_languages (py "Auto-generated") automatic langs sel
    else sel in
  if negb (truthy (transcript_data sel)) then
    match manual with
    | _ :: _ => first_available (py "Manual") manual sel
    | [] => first_available (py "Auto-generated") automatic sel
    end
  else sel.

(** [if transcript_data: return info, transcript_data] and
    [else: return info, None]: the second component. *)
Definition returned_transcript (sel : selection)
    : option (list TrackVariant) :=
  if truthy (transcript_data sel) then transcript_data sel else None.

(** The second component of the result of
    [get_video_info_and_transcript], on the [info] the extractor
    returned (the first component is [info] itself). *)
Definition get_video_info_and_transcript (info : video_info)
    : option (list TrackVariant) :=
  let detected_language :=
    detect_video_language (get_or (title info) (py "Unknown Title"))
                          (get_or (description info) []) in
  let sel := choose_transcript detected_language
               (get_or (subtitles info) [])
               (get_or (automatic_captions info) []) in
  returned_transcript sel.

(** ** Format choice *)

(** The loop of [download_and_parse_transcript] over the track list;
    [best_format] is the value of the variable so far.  A [json3] entry
    ends the loop. *)
Fixpoint pick_format (best_format : option TrackVariant)
    (transcript_data : list TrackVariant) : option TrackVariant :=
  match transcript_data with
  | [] => best_format
  | item :: rest =>
      let e := get_or (ext item) [] in
      if str_eqb e (py "json3") then Some item
      else if str_eqb e (py "vtt") then
        match best_format with
        | None => pick_format (Some item) rest
        | Some _ => pick_format best_format rest
        end
      else if str_eqb e (py "srv1") then
        match best_format with
        | None => pick_format (Some item) rest
        | Some _ => pick_format best_format rest
        end
      else pick_format best_format rest
  end.

Definition best_format_of (transcript_data : list TrackVariant)
    : option TrackVariant :=
  pick_format None transcript_data.

(** ** The decoders *)

(** Exceptions inside a [try] block: [None] is "raised". *)
Definition bind {A B : Type} (m : option A) (k : A -> option B) : option B :=
  match m with
  | Some a => k a
  | None => None
  end.

Notation "x <- m ;; k" := (bind m (fun x => k))
  (at level 61, m at next level, right associativity).

(** What [json.loads] returns.  An object is the resulting [dict], with
    its keys in insertion order; a number is an [int] or a finite
    [float], given by its value. *)
Inductive json :=
  | JNull
  | JBool (b : bool)
  | JNum (q : Q)
  | JStr (s : pystr)
  | JArr (items : list json)
  | JObj (members : dict json).

(** [for x in v]: a list gives its items, a dictionary its keys, a
    string its characters; anything else is not iterable. *)
Definition py_iter (v : json) : option (list json) :=
  match v with
  | JArr items => Some items
  | JObj members => Some (map (fun kv => JStr (fst kv)) members)
  | JStr s => Some (map (fun c => JStr [c]) s)
  | _ => None
  end.

(** [key in v] for a string [key]: key of a dictionary, item of a list,
    substring of a string; a TypeError on anything else. *)
Definition py_in (key : pystr) (v : json) : option bool :=
  match v with
  | JObj members => Some (dict_mem key members)
  | JArr items =>
      Some (existsb (fun x => match x with
                              | JStr s => str_eqb s key
                              | _ => false
                              end) items)
  | JStr s => Some (contains key s)
  | _ => None
  end.

(** [v.get(key, default)]: only a dictionary has the method. *)
Definition py_get (v : json) (key : pystr) (default : json) : option json :=
  match v with
  | JObj members => Some (get_or (dict_get key members) default)
  | _ => None
  end.

(** [v[key]] for a string [key]: KeyError or TypeError unless [v] is a
    dictionary that has the key. *)
Definition py_getitem (v : json) (key : pystr) : option json :=
  match v with
  | JObj members => dict_get key members
  | _ => None
  end.

(** The left operand of [/ 1000.0]: a number, or a boolean, which is
    an integer in Python. *)
Definition to_num (v : json) : option Q :=
  match v with
  | JNum q => Some q
  | JBool b => Some (if b then 1 else 0)%Q
  | _ => None
  end.

(** [n / d * 2 ^ (- k)] as a numerator and a denominator. *)
Definition scaled (n d k : Z) : Z * Z :=
  if (0 <=? k)%Z then (n, (d * 2 ^ k)%Z) else ((n * 2 ^ (- k))%Z, d).

(** The exponent of the leading bit of [n / d], both positive. *)
Definition floor_log2 (n d : Z) : Z :=
  let e := (Z.log2 n - Z.log2 d)%Z in
  let (n', d') := scaled n d e in
  if (n' <? d')%Z then (e - 1)%Z else e.

(** [n / d] rounded to the nearest integer, a tie to the even one. *)
Definition round_half_even (n d : Z) : Z :=
  let q := (n / d)%Z in
  match (2 * (n mod d) ?= d)%Z with
  | Lt => q
  | Gt => (q + 1)%Z
  | Eq => if Z.even q then q else (q + 1)%Z
  end.

(** The binary64 value nearest to a rational, ties to even: 53 bits of
    precision, exponents from -1074 (the subnormal numbers) up.  This is
    [float(n)] for an [int] and the rounding of every float operation;
    [None] is the OverflowError of [float(n)] when the rounded value
    reaches [2 ^ 1024]. *)
Definition round_float (x : Q) : option Q :=
  let n := Z.abs (Qnum x) in
  let d := Zpos (Qden x) in
  if (n =? 0)%Z then Some 0%Q
  else
    let e := Z.max (floor_log2 n d - 52) (-1074) in
    let (n', d') := scaled n d e in
    let m := (Z.sgn (Qnum x) * round_half_even n' d')%Z in
    if (2 ^ (1024 - e) <=? Z.abs m)%Z then None
    else Some (Qred (if (0 <=? e)%Z then inject_Z (m * 2 ^ e)
                     else Qmake m (Z.to_pos (2 ^ (- e))))).

(** [x / 1000.0]: the left operand is converted to a float, which
    raises OverflowError for an [int] beyond the float range, and the
    quotient is rounded. *)
Definition float_div_1000 (x : Q) : option Q :=
  match round_float x with
  | Some fx => round_float (fx / 1000)
  | None => None
  end.

(** [''.join(parts)]: every part has to be a string. *)
Fixpoint join_parts (parts : list json) : option pystr :=
  match parts with
  | [] => Some []
  | JStr s :: parts' => rest <- join_parts parts' ;; Some (s ++ rest)
  | _ :: _ => None
  end.

(** The inner loop over [event['segs']]. *)
Fixpoint collect_segs (segs : list json) : option (list json) :=
  match segs with
  | [] => Some []
  | seg :: segs' =>
      has <- py_in (py "utf8") seg ;;
      if (has : bool) then
        part <- py_getitem seg (py "utf8") ;;
        rest <- collect_segs segs' ;;
        Some (part :: rest)
      else collect_segs segs'
  end.

(** One turn of the loop over the events: the cue the event appends to
    the transcript, if any. *)
Definition json3_event (event : json) : option (option cue) :=
  has <- py_in (py "segs") event ;;
  if (has : bool) then
    t <- py_get event (py "tStartMs") (JNum 0) ;;
    ms <- to_num t ;;
    start_time <- float_div_1000 ms ;;
    segs <- py_getitem event (py "segs") ;;
    seg_list <- py_iter segs ;;
    text_parts <- collect_segs seg_list ;;
    joined <- join_parts text_parts ;;
    let text := strip joined in
    match text with
    | _ :: _ =>
        d <- py_get event (py "dDurationMs") (JNum 0) ;;
        dms <- to_num d ;;
        duration <- float_div_1000 dms ;;
        Some (Some {| cue_text := text;
                      cue_start := start_time;
                      cue_duration := duration |})
    | [] => Some None
    end
  else Some None.

Fixpoint json3_events (events : list json) : option (list cue) :=
  match events with
  | [] => Some []
  | event :: events' =>
      c <- json3_event event ;;
      transcript <- json3_events events' ;;
      Some (match c with
            | Some entry => entry :: transcript
            | None => transcript
            end)
  end.

(** [parse_json3_transcript] on the value [json.loads] returned. *)
Definition json3_transcript (data : json) : option (list cue) :=
  events <- py_get data (py "events") (JArr []) ;;
  event_list <- py_iter events ;;
  json3_events event_list.

(** Position of the first [c] in [s]. *)
Fixpoint index_of (c : N) (s : pystr) : option nat :=
  match s with
  | [] => None
  | x :: s' => if x =? c then Some O else option_map S (index_of c s')
  end.

(** [re.sub('<[^>]+>', '', s)]: a ['<'] opens a match when the first
    ['>'] after it exists and is not its immediate neighbour. *)
Fixpoint remove_vtt_tags (skip : nat) (s : pystr) : pystr :=
  match s with
  | [] => []
  | c :: rest =>
      match skip with
      | S k => remove_vtt_tags k rest
      | O =>
          if c =? ch "<"%char then
            match index_of (ch ">"%char) rest with
            | Some (S j) => remove_vtt_tags (S (S j)) rest
            | _ => c :: remove_vtt_tags 0 rest
            end
          else c :: remove_vtt_tags 0 rest
      end
  end.

(** The lines of a cue: [lines[i].strip()] as long as it is not empty. *)
Fixpoint cue_lines (lines : list pystr) : list pystr :=
  match lines with
  | [] => []
  | l :: lines' =>
      match strip l with
      | [] => []
      | t => t :: cue_lines lines'
      end
  end.

(** The [while i < len(lines)] loop of [parse_vtt_transcript], on the
    lines from index [i] on.  After a timestamp line the inner loop
    consumes the [k] lines of the cue and the final [i += 1] passes over
    the line that ended it: [skip] counts these [k + 1] lines. *)
Fixpoint vtt_scan (skip : nat) (lines : list pystr) : list cue :=
  match lines with
  | [] => []
  | l :: rest =>
      match skip with
      | S k => vtt_scan k rest
      | O =>
          let line := strip l in
          if contains (py "-->") line then
            let time_parts := split (py " --> ") line in
            let start_time := vtt_time_to_seconds (hd [] time_parts) in
            let text_parts := cue_lines rest in
            let text := remove_vtt_tags 0 (join (py " ") text_parts) in
            match text with
            | _ :: _ =>
                {| cue_text := text;
                   cue_start := inject_Z start_time;
                   cue_duration := 0 |}
                :: vtt_scan (S (length text_parts)) rest
            | [] => vtt_scan (S (length text_parts)) rest
            end
          else vtt_scan 0 rest
      end
  end.

Definition parse_vtt_transcript (content : pystr) : option (list cue) :=
  Some (vtt_scan 0 (split [10] content)).

(** An element of the tree [ET.fromstring] returns. *)
Inductive element :=
  | Element (tag : pystr) (attrib : dict pystr) (text : option pystr)
            (children : list element).

Definition elem_tag (e : element) : pystr :=
  match e with Element t _ _ _ => t end.
Definition elem_attrib (e : element) : dict pystr :=
  match e with Element _ a _ _ => a end.
Definition elem_text (e : element) : option pystr :=
  match e with Element _ _ t _ => t end.

(** All elements below [e], in document order. *)
Fixpoint descendants (e : element) : list element :=
  match e with
  | Element _ _ _ cs => flat_map (fun c => c :: descendants c) cs
  end.

(** [root.findall('.//text')] *)
Definition findall_text (root : element) : list element :=
  filter (fun e => str_eqb (elem_tag e) (py "text")) (descendants root).

Section Decoders.

(** The library functions the decoders call, [None] when they raise:
    [json.loads], [ET.fromstring], [float] of a string, and the
    download of a URL decoded as UTF-8. *)
Variable json_loads : pystr -> option json.
Variable xml_fromstring : pystr -> option element.
Variable py_float : pystr -> option Q.
Variable fetch : pystr -> option pystr.

Definition parse_json3_transcript (content : pystr) : option (list cue) :=
  data <- json_loads content ;;
  json3_transcript data.

(** [float(text_elem.get(name, 0))] *)
Definition float_attr (e : element) (name : pystr) : option Q :=
  match dict_get name (elem_attrib e) with
  | Some s => py_float s
  | None => Some 0%Q
  end.

Definition srv1_element (text_elem : element) : option (option cue) :=
  start_time <- float_attr text_elem (py "start") ;;
  duration <- float_attr text_elem (py "dur") ;;
  let text := strip (get_or (elem_text text_elem) []) in
  match text with
  | _ :: _ => Some (Some {| cue_text := text;
                            cue_start := start_time;
                            cue_duration := duration |})
  | [] => Some None
  end.

Fixpoint srv1_elements (elems : list element) : option (list cue) :=
  match elems with
  | [] => Some []
  | text_elem :: elems' =>
      c <- srv1_element text_elem ;;
      transcript <- srv1_elements elems' ;;
      Some (match c with
            | Some entry => entry :: transcript
            | None => transcript
            end)
  end.

Definition parse_srv1_transcript (content : pystr) : option (list cue) :=
  root <- xml_fromstring content ;;
  srv1_elements (findall_text root).

Definition download_and_parse_transcript
    (transcript_data : list TrackVariant) : option (list cue) :=
  match best_format_of transcript_data with
  | None => None
  | Some best_format =>
      transcript_url <- url best_format ;;
      content <- fetch transcript_url ;;
      match ext best_format with
      | Some e =>
          if str_eqb e (py "json3") then parse_json3_transcript content
          else if str_eqb e (py "vtt") then parse_vtt_transcript content
          else parse_srv1_transcript content
      | None => parse_srv1_transcript content
      end
  end.

End Decoders.

(** ** Paragraph building and rendering *)

Definition nl : pystr := [10].

(** The title heading, the metadata block and the separator. *)
Definition header (title video_id : pystr) : pystr :=
  py "# " ++ title ++ nl ++ nl ++
  py "**Video ID:** " ++ video_id ++ py "  " ++ nl ++
  py "**YouTube URL:** https://www.youtube.com/watch?v=" ++ video_id ++
  nl ++ nl ++
  py "---" ++ nl ++ nl.

Definition no_transcript_marker : pystr :=
  py "*No transcript available for this video.*" ++ nl.

(** ['.', '!', '?'] and their full-width forms U+3002, U+FF01, U+FF1F. *)
Definition sentence_end : list pystr :=
  [py "."; py "!"; py "?"; [12290]; [65281]; [65311]].

(** [text.endswith(('.', '!', '?', ...))] *)
Definition ends_sentence (text : pystr) : bool :=
  existsb (fun suffix => ends_with suffix text) sentence_end.

(** The variables the loop of [transcript_to_markdown] updates. *)
Record builder := {
  markdown : pystr;
  current_paragraph : pystr;
  current_start_time : option Q
}.

(** The text of an entry as the loop accumulates it, [None] when the
    entry is passed over by one of the two [continue]. *)
Definition entry_text (is_japanese : bool) (entry : cue) : option pystr :=
  match strip (cue_text entry) with
  | [] => None
  | text =>
      if is_japanese then
        match clean_japanese_text text with
        | [] => None
        | cleaned => Some cleaned
        end
      else Some text
  end.

(** [current_paragraph.strip()], cleaned for Japanese content. *)
Definition final_text (is_japanese : bool) (paragraph : pystr) : pystr :=
  let stripped := strip paragraph in
  if is_japanese then clean_japanese_text stripped else stripped.

(** The block a closed paragraph adds to the document. *)
Definition paragraph_block (include_timestamps : bool)
    (start_time : option Q) (text : pystr) : pystr :=
  match include_timestamps, start_time with
  | true, Some t =>
      py "**[" ++ format_timestamp t ++ py "]** " ++ text ++ nl ++ nl
  | _, _ => text ++ nl ++ nl
  end.

(** [if current_start_time is None: current_start_time =
    entry['start']] *)
Definition anchor_of (b : builder) (entry : cue) : option Q :=
  match current_start_time b with
  | None => Some (cue_start entry)
  | Some t => Some t
  end.

(** The condition of line 273. *)
Definition closes_paragraph (text paragraph : pystr) : bool :=
  ends_sentence text || (500 <? length paragraph)%nat.

(** One turn of the loop. *)
Definition add_entry (include_timestamps is_japanese : bool)
    (b : builder) (entry : cue) : builder :=
  match entry_text is_japanese entry with
  | None => b
  | Some text =>
      let start_time := anchor_of b entry in
      let paragraph := current_paragraph b ++ text ++ py " " in
      if closes_paragraph text paragraph then
        {| markdown :=
             markdown b ++
             paragraph_block include_timestamps start_time
               (final_text is_japanese paragraph);
           current_paragraph := [];
           current_start_time := None |}
      else
        {| markdown := markdown b;
           current_paragraph := paragraph;
           current_start_time := start_time |}
  end.

(** "Add any remaining text", after the loop. *)
Definition flush (include_timestamps is_japanese : bool) (b : builder)
    : pystr :=
  match strip (current_paragraph b) with
  | [] => markdown b
  | _ :: _ =>
      match final_text is_japanese (current_paragraph b) with
      | [] => markdown b
      | text =>
          markdown b ++
          paragraph_block include_timestamps (current_start_time b) text
      end
  end.

(** [transcript] is the list of cues; [None], which the test
    [if not transcript] treats like the empty list, is not a value of
    the type. *)
Definition transcript_to_markdown (transcript : list cue)
    (info : video_info) (include_timestamps : bool) : pystr :=
  let title := get_or (title info) (py "Unknown Title") in
  let video_id := get_or (id info) (py "Unknown ID") in
  let is_japanese :=
    str_eqb (detect_video_language title []) (py "ja") in
  let markdown := header title video_id in
  match transcript with
  | [] => markdown ++ no_transcript_marker
  | _ :: _ =>
      flush include_timestamps is_japanese
        (fold_left (add_entry include_timestamps is_japanese) transcript
           {| markdown := markdown;
              current_paragraph := [];
              current_start_time := None |})
  end.

(** ** url_extract_test.py: the identifier resolver *)

(** The attributes of [urlparse(url)] the resolver reads. *)
Record parsed_url := {
  hostname : option pystr;
  path : pystr;
  query : pystr
}.

(** What a call of [extract_video_id] does: it returns a string or
    [None], or an exception leaves it (nothing in it catches one). *)
Inductive outcome :=
  | Returns (video_id : option pystr)
  | Raises.

(** [[a-zA-Z0-9_-]] *)
Definition id_char (c : N) : bool :=
  ((97 <=? c) && (c <=? 122)) || ((65 <=? c) && (c <=? 90)) ||
  ((48 <=? c) && (c <=? 57)) || (c =? 95) || (c =? 45).

(** [re.match('^[a-zA-Z0-9_-]{11}$', url)]: eleven characters of the
    class, then the end of the string; [$] also matches before a
    newline that ends the string. *)
Definition matches_bare_id (url : pystr) : bool :=
  forallb id_char (firstn 11 url) && (length (firstn 11 url) =? 11)%nat &&
  match skipn 11 url with
  | [] => true
  | [c] => c =? 10
  | _ => false
  end.

(** [re.match('http(s)?://', url)] *)
Definition has_scheme (url : pystr) : bool :=
  starts_with (py "http://") url || starts_with (py "https://") url.

(** [if not re.match('http(s)?://', url): url = 'http://' + url] *)
Definition with_scheme (url : pystr) : pystr :=
  if has_scheme url then url else py "http://" ++ url.

Section Resolver.

(** [urlparse], [None] when it raises ValueError; [parse_qs]; and, for
    code points outside ASCII, the class [\w] of the Unicode database. *)
Variable urlparse : pystr -> option parsed_url.
Variable parse_qs : pystr -> dict (list pystr).
Variable unicode_word : N -> bool.

(** [\w] *)
Definition word_char (c : N) : bool :=
  if c <? 128
  then ((97 <=? c) && (c <=? 122)) || ((65 <=? c) && (c <=? 90)) ||
       ((48 <=? c) && (c <=? 57)) || (c =? 95)
  else unicode_word c.

(** [(m|\.uk|\.jp|\.de|.\w{2})] at the head of [s]; the dot of the
    last alternative is any character but a newline. *)
Definition matches_tld (s : pystr) : bool :=
  starts_with (py "m") s || starts_with (py ".uk") s ||
  starts_with (py ".jp") s || starts_with (py ".de") s ||
  match s with
  | c :: w1 :: w2 :: _ => negb (c =? 10) && word_char w1 && word_char w2
  | _ => false
  end.

(** [youtube\.co(...)] at the head of [s], after the prefix [p]. *)
Definition matches_youtube (p s : pystr) : bool :=
  starts_with (p ++ py "youtube.co") s &&
  matches_tld (skipn (length (p ++ py "youtube.co")) s).

(** [re.match(pattern, hostname)] for the pattern
    [(?:www\.|m\.|music\.)?youtube\.co(m|\.uk|\.jp|\.de|.\w{2})|youtu\.be]:
    it is matched at the start of the host name and nothing anchors it
    at the end. *)
Definition matches_host (h : pystr) : bool :=
  matches_youtube (py "www.") h || matches_youtube (py "m.") h ||
  matches_youtube (py "music.") h || matches_youtube [] h ||
  starts_with (py "youtu.be") h.

(** [s.split('?')[0]] *)
Definition before_query (s : pystr) : pystr :=
  hd [] (split (py "?") s).

Definition extract_video_id (url : pystr) : outcome :=
  match url with
  | [] => Returns None
  | _ :: _ =>
      if matches_bare_id url then Returns (Some url)
      else
        match urlparse (with_scheme url) with
        | None => Raises
        | Some parsed =>
            match hostname parsed with
            | None => Returns None
            | Some h =>
                if negb (matches_host h) then Returns None
                else if str_eqb (path parsed) (py "/watch") then
                  match dict_get (py "v") (parse_qs (query parsed)) with
                  | None => Returns None
                  | Some (v :: _) => Returns (Some v)
                  | Some [] => Raises
                  end
                else if str_eqb h (py "youtu.be") then
                  match split (py "/") (path parsed) with
                  | _ :: segment :: _ =>
                      Returns (Some (before_query segment))
                  | _ => Raises
                  end
                else
                  match split (py "/") (path parsed) with
                  | _ :: kind :: segment :: _ =>
                      if existsb (str_eqb kind)
                           [py "embed"; py "shorts"; py "live"; py "v"]
                      then Returns (Some (before_query segment))
                      else Returns None
                  | _ => Returns None
                  end
            end
        end
  end.

End Resolver.

(** *** The library functions on plain URLs

    [urllib.parse] on the strings the resolver hands it when these are
    plain: ASCII text that starts with [http://] or [https://], with no
    bracket in the authority and no percent escape in the query.  The
    examples below are evaluated with these. *)

(** The part of [s] before the first character that satisfies [p], and
    the part from that character on. *)
Fixpoint break_at (p : N -> bool) (s : pystr) : pystr * pystr :=
  match s with
  | [] => ([], [])
  | c :: s' =>
      if p c then ([], s)
      else let '(a, b) := break_at p s' in (c :: a, b)
  end.

Definition is_char (a : ascii) (c : N) : bool := c =? ch a.

(** The path without the parameters of its last segment. *)
Definition drop_params (p : pystr) : pystr :=
  let '(last_rev, head_rev) := break_at (is_char "/"%char) (rev p) in
  rev head_rev ++ fst (break_at (is_char ";"%char) (rev last_rev)).

(** [hostname] of a result: the authority after the last [@], up to
    the port, in lower case up to a [%]; [None] when that is empty. *)
Definition hostname_of (netloc : pystr) : option pystr :=
  let hostinfo := rev (fst (break_at (is_char "@"%char) (rev netloc))) in
  match fst (break_at (is_char ":"%char) hostinfo) with
  | [] => None
  | host =>
      let '(name, zone) := break_at (is_char "%"%char) host in
      Some (lower name ++ zone)
  end.

Definition urlparse_plain (url : pystr) : option parsed_url :=
  let url :=
    filter (fun c => negb ((c =? 9) || (c =? 10) || (c =? 13))) url in
  let rest :=
    if starts_with (py "http://") url then Some (skipn 7 url)
    else if starts_with (py "https://") url then Some (skipn 8 url)
    else None in
  match rest with
  | None => None
  | Some rest =>
      let '(netloc, rest) :=
        break_at (fun c => is_char "/"%char c || is_char "?"%char c ||
                           is_char "#"%char c) rest in
      let '(rest, _) := break_at (is_char "#"%char) rest in
      let '(p, q) := break_at (is_char "?"%char) rest in
      Some {| hostname := hostname_of netloc;
              path := drop_params p;
              query := tl q |}
  end.

(** [parse_qs]: the fields between [&] that have a [=] and a non-empty
    value, [+] read as a space, the values of one name collected in
    order. *)
Definition plus_to_space (s : pystr) : pystr :=
  map (fun c => if is_char "+"%char c then 32 else c) s.

Fixpoint add_value (name value : pystr) (d : dict (list pystr))
    : dict (list pystr) :=
  match d with
  | [] => [(name, [value])]
  | (k, vs) :: d' =>
      if str_eqb k name then (k, vs ++ [value]) :: d'
      else (k, vs) :: add_value name value d'
  end.

Definition parse_qs_plain (qs : pystr) : dict (list pystr) :=
  fold_left
    (fun d name_value =>
       let '(name, rest) := break_at (is_char "="%char) name_value in
       match rest with
       | _ :: (_ :: _) as value =>
           add_value (plus_to_space name) (plus_to_space value) d
       | _ => d
       end)
    (split (py "&") qs) [].

(** [\w] restricted to ASCII. *)
Definition ascii_word_only (c : N) : bool := false.

Definition extract_video_id_plain : pystr -> outcome :=
  extract_video_id urlparse_plain parse_qs_plain ascii_word_only.

(** ** Definitions used to state the properties *)

(** The first code of the priority list that is a key of [tracks], with
    the track list stored under it. *)
Fixpoint first_preferred (langs : list pystr)
    (tracks : dict (list TrackVariant))
    : option (pystr * list TrackVariant) :=
  match langs with
  | [] => None
  | lang_code :: langs' =>
      match dict_get lang_code tracks with
      | Some data => Some (lang_code, data)
      | None => first_preferred langs' tracks
      end
  end.

Definition selected (kind lang_code : pystr) (data : list TrackVariant)
    : selection :=
  {| transcript_data := Some data;
     transcript_type := Some (type_label kind lang_code) |}.

Definition variant (e u : string) : TrackVariant :=
  {| ext := Some (py e); url := Some (py u) |}.

(** The first character of [s], if there is one, is kept by [p]. *)
Definition headed (p : N -> bool) (s : pystr) : Prop :=
  match s with
  | [] => True
  | c :: _ => p c = false
  end.

Definition ascii_digit (c : N) : bool := (48 <=? c) && (c <=? 57).

(** A non-empty run of the digits 0 to 9. *)
Definition decimal_literal (ds : pystr) : bool :=
  match ds with
  | [] => false
  | _ :: _ => forallb ascii_digit ds
  end.

(** The number a run of digits denotes. *)
Definition decimal_value (ds : pystr) : Z :=
  fold_left (fun acc c => (10 * acc + Z.of_N (c - 48))%Z) ds 0%Z.

(** The payloads of the examples. *)
Definition json3_event_at (t_start_ms : json) (text : string) : json :=
  JObj [(py "tStartMs", t_start_ms);
        (py "segs", JArr [JObj [(py "utf8", JStr (py text))]])].

Definition json3_payload (events : list json) : json :=
  JObj [(py "events", JArr events)].

Definition vtt_payload (lines : list pystr) : pystr :=
  join nl lines.

(** ['.', '!', '?'] and the full-width forms, as code points. *)
Definition sentence_end_chars : list N :=
  [46; 33; 63; 12290; 65281; 65311].

Definition fixture_cue (text : string) (start_time : Q) : cue :=
  {| cue_text := py text; cue_start := start_time; cue_duration := 0 |}.

Definition fixture_info (title_text : pystr) : video_info :=
  {| title := Some title_text; id := Some (py "x"); description := None;
     subtitles := None; automatic_captions := None |}.

(** ** main.py, app.py and gemini_api.py: the callers *)

Definition MAX_SUMMARY_LENGTH : nat := 50000.

Definition truncation_marker : pystr :=
  py "... [transcript truncated for summarization]".

(** main.py, lines 79 and 80: [if len(markdown) > MAX_SUMMARY_LENGTH:
    markdown = markdown[:MAX_SUMMARY_LENGTH] + "..."]. *)
Definition limit_for_summary (markdown : pystr) : pystr :=
  if (MAX_SUMMARY_LENGTH <? length markdown)%nat
  then firstn MAX_SUMMARY_LENGTH markdown ++ truncation_marker
  else markdown.

(** app.py, line 552: [text_to_summarize = markdown[:50000]]. *)
Definition text_to_summarize (markdown : pystr) : pystr :=
  firstn 50000 markdown.

(** How a run of [main] ends, up to the document it writes: a message
    and [sys.exit(1)], an exception nothing catches, or the identifier
    and the rendered transcript. *)
Inductive run :=
  | Exit (message : pystr)
  | Crash
  | Transcript (video_id markdown : pystr).

Section Main.

(** The library functions of the resolver and of the decoders, and
    [ydl.extract_info], [None] when it raises. *)
Variable urlparse : pystr -> option parsed_url.
Variable parse_qs : pystr -> dict (list pystr).
Variable unicode_word : N -> bool.
Variable extract_info : pystr -> option video_info.
Variable json_loads : pystr -> option json.
Variable xml_fromstring : pystr -> option element.
Variable py_float : pystr -> option Q.
Variable fetch : pystr -> option pystr.

(** [main], lines 30 to 58 of main.py, on [args.url] and
    [args.no_timestamps]. *)
Definition main_transcript (url : pystr) (no_timestamps : bool) : run :=
  match extract_video_id urlparse parse_qs unicode_word url with
  | Raises => Crash
  | Returns None | Returns (Some []) =>
      Exit (py "Error: Could not extract a valid YouTube video ID from '"
            ++ url ++ py "'")
  | Returns (Some video_id) =>
      match extract_info video_id with
      | None => Exit (py "Failed to get video information")
      | Some info =>
          match get_video_info_and_transcript info with
          | None => Exit (py "No transcript data available")
          | Some transcript_data =>
              match download_and_parse_transcript
                      json_loads xml_fromstring py_float fetch
                      transcript_data with
              | None | Some [] => Exit (py "Failed to parse transcript")
              | Some transcript =>
                  Transcript video_id
                    (transcript_to_markdown transcript info
                       (negb no_timestamps))
              end
          end
      end
  end.

End Main.

(** [len(v)] *)
Definition py_len (v : json) : option nat :=
  match v with
  | JArr items => Some (length items)
  | JObj members => Some (length members)
  | JStr s => Some (length s)
  | _ => None
  end.

(** [v[0]] *)
Definition py_first (v : json) : option json :=
  match v with
  | JArr (item :: _) => Some item
  | JStr (c :: _) => Some (JStr [c])
  | _ => None
  end.

(** gemini_api.py, lines 133 to 153: the summary [call_gemini_api]
    returns for the decoded response.  [None] is the value [None] of
    Python, returned on the two "unexpected response" paths and after
    an exception. *)
Definition response_summary (result : json) : option json :=
  has_candidates <- py_in (py "candidates") result ;;
  if (has_candidates : bool) then
    candidates <- py_getitem result (py "candidates") ;;
    n <- py_len candidates ;;
    if (0 <? n)%nat then
      candidate <- py_first candidates ;;
      has_content <- py_in (py "content") candidate ;;
      if (has_content : bool) then
        content <- py_getitem candidate (py "content") ;;
        has_parts <- py_in (py "parts") content ;;
        if (has_parts : bool) then
          parts <- py_getitem content (py "parts") ;;
          part <- py_first parts ;;
          summary <- py_getitem part (py "text") ;;
          match summary with
          | JNull => None
          | _ => Some summary
          end
        else None
      else None
    else None
  else None.

Section Gemini.

(** [str.isalpha] for one code point. *)
Variable unicode_alpha : N -> bool.

(** The number of characters of Japanese script in [text]; the ranges
    are those of [clean_japanese_text]. *)
Definition japanese_chars (text : pystr) : nat :=
  length (filter japanese_char text).

(** [len([char for char in text if char.isalpha() or
    '぀' <= char <= '龯'])] *)
Definition total_chars (text : pystr) : nat :=
  length (filter (fun c => unicode_alpha c ||
                           ((12352 <=? c) && (c <=? 40879))) text).

(** gemini_api.py, lines 13 to 21: the language of the prompt.  The
    test [japanese_chars / total_chars > 0.3] is taken on exact
    rationals: [3 * total_chars < 10 * japanese_chars]. *)
Definition summary_language (text language : pystr) : pystr :=
  if str_eqb language (py "auto") then
    if (0 <? total_chars text)%nat &&
       (3 * total_chars text <? 10 * japanese_chars text)%nat
    then py "ja"
    else py "en"
  else language.

End Gemini.

(** ** Further definitions used to state the properties *)

(** [H:MM:SS] *)
Definition hms (h m s : N) : pystr :=
  str_of_N h ++ py ":" ++ pad2 m ++ py ":" ++ pad2 s.

Definition hiragana (c : N) : bool := (12352 <=? c) && (c <=? 12447).

(** An indicator of [detect_video_language]: hiragana, at least one. *)
Definition plain_indicator (ind : pystr) : Prop :=
  ind <> [] /\ forallb hiragana ind = true /\
  forallb (fun c => negb (c =? 32)) ind = true.

(** The tests of the format loop. *)
Definition is_json3 (item : TrackVariant) : bool :=
  str_eqb (get_or (ext item) []) (py "json3").

Definition is_vtt_or_srv1 (item : TrackVariant) : bool :=
  str_eqb (get_or (ext item) []) (py "vtt") ||
  str_eqb (get_or (ext item) []) (py "srv1").

(** The selection that takes the first entry of [tracks]. *)
Definition first_entry (kind : pystr) (tracks : dict (list TrackVariant))
    (otherwise : selection) : selection :=
  match tracks with
  | (lang_code, data) :: _ => selected kind lang_code data
  | [] => otherwise
  end.

(** Well-formed payloads of the three formats. *)
Definition json3_segment (t : pystr) : json :=
  JObj [(py "utf8", JStr t)].

Definition optional_member (key : pystr) (v : option Q) : dict json :=
  match v with
  | Some q => [(key, JNum q)]
  | None => []
  end.

(** An event with text segments; either time may be missing. *)
Definition json3_event_of (t_start_ms d_duration_ms : option Q)
    (texts : list pystr) : json :=
  JObj (optional_member (py "tStartMs") t_start_ms ++
        optional_member (py "dDurationMs") d_duration_ms ++
        [(py "segs", JArr (map json3_segment texts))]).

(** A timestamp as [vtt_time_to_seconds] reads it: fields joined by
    [':'], free of [':'] and ['.'], then nothing or a ['.'] and anything
    after it. *)
Definition timestamp_shape (t : pystr) (fields : list pystr) (tail : pystr)
    : Prop :=
  t = join (py ":") fields ++ tail /\
  fields <> [] /\
  (forall f, In f fields -> ~ In 58 f /\ ~ In 46 f) /\
  (tail = [] \/ exists frac, tail = py "." ++ frac).

(** The fields [vtt_time_to_seconds] converts with [int]: all of them
    when there are two or three, the first one otherwise. *)
Definition converted_fields (fields : list pystr) : list pystr :=
  match fields with
  | [_; _; _] | [_; _] => fields
  | f :: _ => [f]
  | [] => []
  end.

(** The characters an integer literal may hold: digits, a sign, an
    underscore, white space. *)
Definition int_char (c : N) : bool :=
  match digit_value c with Some _ => true | None => false end ||
  (c =? ch "_"%char) || (c =? ch "-"%char) || (c =? ch "+"%char) ||
  is_int_space c.

(** Empty, or holding a character foreign to integer literals. *)
Definition not_int_text (s : pystr) : bool :=
  match s with
  | [] => true
  | _ :: _ => negb (forallb int_char s)
  end.

(** The cue a timestamp line opens: its text is read from the lines
    that follow it. *)
Definition vtt_cue_at (line : pystr) (rest : list pystr) : cue :=
  {| cue_text := remove_vtt_tags 0 (join (py " ") (cue_lines rest));
     cue_start :=
       inject_Z (vtt_time_to_seconds (hd [] (split (py " --> ") (strip line))));
     cue_duration := 0 |}.

(** The text of an event before trimming: the [utf8] values of its
    segments, joined. *)
Definition json3_event_text (members : dict json) : option pystr :=
  segs <- dict_get (py "segs") members ;;
  seg_list <- py_iter segs ;;
  text_parts <- collect_segs seg_list ;;
  join_parts text_parts.

(** [event.get(key, 0) / 1000.0] *)
Definition json3_member_seconds (key : pystr) (members : dict json)
    : option Q :=
  n <- to_num (get_or (dict_get key members) (JNum 0)) ;;
  float_div_1000 n.

(** The milliseconds of such an event fit a float. *)
Definition json3_times_fit (t_start_ms d_duration_ms : option Q) : Prop :=
  float_div_1000 (get_or t_start_ms 0%Q) <> None /\
  float_div_1000 (get_or d_duration_ms 0%Q) <> None.

(** The cue of such an event, if its text is not blank. *)
Definition json3_cue_of (t_start_ms d_duration_ms : option Q)
    (texts : list pystr) : list cue :=
  match strip (concat texts) with
  | [] => []
  | text =>
      [ {| cue_text := text;
           cue_start := get_or (float_div_1000 (get_or t_start_ms 0%Q)) 0%Q;
           cue_duration :=
             get_or (float_div_1000 (get_or d_duration_ms 0%Q)) 0%Q |} ]
  end.

Definition srv1_text_element (start_attr dur_attr : pystr)
    (content : option pystr) : element :=
  Element (py "text") [(py "start", start_attr); (py "dur", dur_attr)]
          content [].

Definition srv1_cue_of (py_float : pystr -> option Q)
    (start_attr dur_attr : pystr) (content : option pystr) : list cue :=
  match strip (get_or content []) with
  | [] => []
  | text => [ {| cue_text := text;
                 cue_start := get_or (py_float start_attr) 0%Q;
                 cue_duration := get_or (py_float dur_attr) 0%Q |} ]
  end.

(** The cue of a cue-text block: its timestamp line and its text lines. *)
Definition vtt_cue_of (timestamp_line : pystr) (text_lines : list pystr)
    : list cue :=
  match remove_vtt_tags 0 (join (py " ") (map strip text_lines)) with
  | [] => []
  | text =>
      [ {| cue_text := text;
           cue_start :=
             inject_Z (vtt_time_to_seconds
                         (hd [] (split (py " --> ") (strip timestamp_line))));
           cue_duration := 0 |} ]
  end.

(** The lines of a cue-text block: the timestamp line, the text lines
    and the empty line that ends the block. *)
Definition vtt_block_lines (block : pystr * list pystr) : list pystr :=
  fst block :: snd block ++ [[]].

(** A block the decoder reads as one cue: an arrow in the timestamp
    line, text lines that are not blank, no newline inside a line. *)
Definition vtt_block_ok (block : pystr * list pystr) : Prop :=
  contains (py "-->") (strip (fst block)) = true /\
  ~ In 10 (fst block) /\
  forall t, In t (snd block) -> strip t <> [] /\ ~ In 10 t.

(** No two white-space characters in a row. *)
Fixpoint no_double_space (s : pystr) : bool :=
  match s with
  | c :: (d :: _) as s' =>
      negb (is_space c && is_space d) && no_double_space s'
  | _ => true
  end.

(** Every white-space character is the space U+0020. *)
Definition only_plain_spaces (s : pystr) : bool :=
  forallb (fun c => negb (is_space c) || (c =? 32)) s.

(** The note glyphs among the music tags: U+2669 to U+266C. *)
Definition note_glyphs : list N := [9834; 9835; 9836; 9833].

(** A run of paragraph blocks: empty, or ended by an empty line. *)
Definition ends_blocks (body : pystr) : Prop :=
  body = [] \/ exists b, body = b ++ nl ++ nl.

(** The builder before the first cue. *)
Definition start_builder (markdown : pystr) : builder :=
  {| markdown := markdown; current_paragraph := [];
     current_start_time := None |}.

(** The first segments of the paths that carry the identifier in their
    second segment. *)
Definition alternate_endpoints : list pystr :=
  [py "embed"; py "shorts"; py "live"; py "v"].

(** * Properties *)

(** ** Caption track selection *)

Lemma walk_languages_first_preferred kind tracks langs sel :
  walk_languages kind tracks langs sel =
  match first_preferred langs tracks with
  | Some (lang_code, data) => selected kind lang_code data
  | None => sel
  end.
Proof.
  induction langs as [|lang_code langs IH]; simpl.
  - reflexivity.
  - destruct (dict_get lang_code tracks); [reflexivity | exact IH].
Qed.

Lemma truthy_nonempty (data : list TrackVariant) :
  data <> [] -> truthy (Some data) = true.
Proof. destruct data; [congruence | reflexivity]. Qed.

(** A manual match with a non-empty track list is the selection,
    whatever the automatic tracks are. *)
Lemma choose_manual detected manual automatic lang_code data :
  first_preferred (preferred_languages detected) manual
    = Some (lang_code, data) ->
  data <> [] ->
  choose_transcript detected manual automatic
    = selected (py "Manual") lang_code data.
Proof.
  intros Hm Hd. unfold choose_transcript.
  rewrite walk_languages_first_preferred, Hm.
  repeat (progress (cbn [negb selected transcript_data];
                    rewrite ?(truthy_nonempty data Hd))).
  reflexivity.
Qed.

(** Without a non-empty manual match, an automatic match with a
    non-empty track list is the selection. *)
Lemma choose_automatic detected manual automatic lang_code data :
  (first_preferred (preferred_languages detected) manual = None \/
   exists l, first_preferred (preferred_languages detected) manual
               = Some (l, [])) ->
  first_preferred (preferred_languages detected) automatic
    = Some (lang_code, data) ->
  data <> [] ->
  choose_transcript detected manual automatic
    = selected (py "Auto-generated") lang_code data.
Proof.
  intros Hm Ha Hd. unfold choose_transcript.
  rewrite !walk_languages_first_preferred.
  destruct Hm as [Hm | [l Hm]]; rewrite Hm;
    cbn [transcript_data selected truthy negb]; rewrite Ha;
    repeat (progress (cbn [negb selected transcript_data];
                      rewrite ?(truthy_nonempty data Hd)));
    reflexivity.
Qed.

(** C1, as the specification states it, fails on an empty track list:
    with detected language "ja", no manual track and
    automatic = {"ja": [], "en": Y}, the selector does not return the
    empty list stored under "ja"; it reports that there is no
    transcript. *)
Lemma selection_empty_track_list_not_returned :
  let Y := [ {| ext := Some (py "json3"); url := Some (py "u") |} ] in
  returned_transcript
    (choose_transcript (py "ja") [] [(py "ja", []); (py "en", Y)])
  = None /\
  returned_transcript
    (choose_transcript (py "ja") [] [(py "ja", []); (py "en", Y)])
  <> Some [].
Proof. split; [reflexivity | discriminate]. Qed.

(** C1 (amended): the priority list is walked against the manual tracks
    first and the first match ends that walk; the same list is walked
    against the automatic tracks when no preferred language is a key of
    the manual tracks or when the manual match is an empty track list.
    A match with a non-empty track list is what the selector returns,
    labelled with its source and language code.  Concretely, for every
    non-empty X and every Y, with detected language "ja", manual = {}
    and automatic = {"ja": X, "en": Y}, the selector returns X, labelled
    "Auto-generated (ja)". *)
Theorem selection_manual_then_automatic :
  forall (detected : pystr) (manual automatic : dict (list TrackVariant))
         (lang_code : pystr) (X Y : list TrackVariant),
    X <> [] ->
    (first_preferred (preferred_languages detected) manual
       = Some (lang_code, X) ->
     choose_transcript detected manual automatic
       = selected (py "Manual") lang_code X /\
     returned_transcript (choose_transcript detected manual automatic)
       = Some X) /\
    ((first_preferred (preferred_languages detected) manual = None \/
      exists l, first_preferred (preferred_languages detected) manual
                  = Some (l, [])) ->
     first_preferred (preferred_languages detected) automatic
       = Some (lang_code, X) ->
     choose_transcript detected manual automatic
       = selected (py "Auto-generated") lang_code X /\
     returned_transcript (choose_transcript detected manual automatic)
       = Some X) /\
    (choose_transcript (py "ja") [] [(py "ja", X); (py "en", Y)]
       = selected (py "Auto-generated") (py "ja") X /\
     returned_transcript
       (choose_transcript (py "ja") [] [(py "ja", X); (py "en", Y)])
       = Some X).
Proof.
  intros detected manual automatic lang_code X Y HX.
  assert (Hret : forall kind l,
             returned_transcript (selected kind l X) = Some X).
  { intros kind l. unfold returned_transcript, selected.
    cbn [transcript_data]. rewrite (truthy_nonempty X HX). reflexivity. }
  split; [|split].
  - intros Hm. rewrite (choose_manual _ _ _ _ _ Hm HX). auto.
  - intros Hm Ha. rewrite (choose_automatic _ _ _ _ _ Hm Ha HX). auto.
  - assert (E : choose_transcript (py "ja") [] [(py "ja", X); (py "en", Y)]
                = selected (py "Auto-generated") (py "ja") X).
    { apply choose_automatic; [left; reflexivity | reflexivity | exact HX]. }
    rewrite E. auto.
Qed.

Lemma selection_manual_then_automatic_witness :
  let v := {| ext := Some (py "vtt"); url := Some (py "u") |} in
  [v] <> [] /\
  returned_transcript
    (choose_transcript (py "ja") [] [(py "ja", [v]); (py "en", [])])
  = Some [v].
Proof.
  intros v.
  assert (H : [v] <> []) by discriminate.
  split; [exact H|].
  exact (proj2 (proj2 (proj2
    (selection_manual_then_automatic (py "ja") [] [] (py "ja") [v] [] H)))).
Defined.

(** ** Format choice *)

(** A [json3] entry is chosen wherever it stands in the list. *)
Lemma pick_format_json3 (data : list TrackVariant) :
  existsb (fun item => str_eqb (get_or (ext item) []) (py "json3")) data
    = true ->
  exists item, best_format_of data = Some item /\
               str_eqb (get_or (ext item) []) (py "json3") = true.
Proof.
  unfold best_format_of. generalize (@None TrackVariant).
  induction data as [|item data IH]; intros best H; simpl in H.
  - discriminate.
  - simpl. destruct (str_eqb (get_or (ext item) []) (py "json3")) eqn:E.
    + exists item. auto.
    + simpl in H.
      destruct (str_eqb (get_or (ext item) []) (py "vtt"));
        [destruct best; apply IH; exact H|].
      destruct (str_eqb (get_or (ext item) []) (py "srv1"));
        [destruct best; apply IH; exact H|].
      apply IH; exact H.
Qed.

(** Without a [json3] entry the choice is the first entry of the list
    that is [vtt] or [srv1]. *)
Lemma pick_format_without_json3 (data : list TrackVariant) :
  forall best,
    existsb (fun item => str_eqb (get_or (ext item) []) (py "json3")) data
      = false ->
    pick_format best data =
    match best with
    | Some b => Some b
    | None =>
        find (fun item => str_eqb (get_or (ext item) []) (py "vtt") ||
                          str_eqb (get_or (ext item) []) (py "srv1")) data
    end.
Proof.
  induction data as [|item data IH]; intros best H.
  - destruct best; reflexivity.
  - cbn [existsb] in H. apply orb_false_iff in H. destruct H as [Hj Hrest].
    cbn [pick_format find]. cbv zeta. rewrite Hj.
    destruct (str_eqb (get_or (ext item) []) (py "vtt"));
      [destruct best; rewrite (IH _ Hrest); reflexivity|].
    destruct (str_eqb (get_or (ext item) []) (py "srv1"));
      [destruct best; rewrite (IH _ Hrest); reflexivity|].
    cbn [orb]. apply IH. exact Hrest.
Qed.

(** C3: the code does not prefer the cue-text format to the timed-XML
    format.  Between the two it keeps whichever comes first in the
    list: on [srv1; vtt] it chooses the [srv1] entry, although the
    [vtt] entry is present. *)
Theorem pick_format_keeps_first_of_vtt_srv1 :
  best_format_of [variant "srv1" "a"; variant "vtt" "b"]
    = Some (variant "srv1" "a") /\
  best_format_of [variant "vtt" "b"; variant "srv1" "a"]
    = Some (variant "vtt" "b") /\
  best_format_of [variant "srv1" "a"; variant "vtt" "b";
                  variant "json3" "c"]
    = Some (variant "json3" "c") /\
  best_format_of [variant "ttml" "d"; variant "srv3" "e"] = None.
Proof. repeat split; reflexivity. Qed.

(** ** Japanese cleanup *)

(** C8: the cleanup is not idempotent, and it leaves white space
    between Japanese characters.  On "あ い う" (U+3042, space, U+3044,
    space, U+3046) the substitution joins the first two characters and
    resumes after the second, so the second space stays: the result is
    "あい う", and a second application gives "あいう".  Likewise removing
    "♪" from "[音♪楽]" leaves the tag "[音楽]", which only a second
    application removes.  A two-character run with one inserted space
    does collapse. *)
Theorem clean_japanese_text_not_idempotent :
  let t := [12354; 32; 12356; 32; 12358] in
  let u := [91; 38899; 9834; 27005; 93] in
  clean_japanese_text t = [12354; 12356; 32; 12358] /\
  clean_japanese_text (clean_japanese_text t) = [12354; 12356; 12358] /\
  clean_japanese_text (clean_japanese_text t) <> clean_japanese_text t /\
  clean_japanese_text u = [91; 38899; 27005; 93] /\
  clean_japanese_text (clean_japanese_text u) = [] /\
  clean_japanese_text [12354; 32; 12356] = [12354; 12356].
Proof.
  cbv zeta. repeat split; try (vm_compute; reflexivity).
  vm_compute. discriminate.
Qed.

(** ** The identifier resolver *)

Lemma str_eqb_refl (s : pystr) : str_eqb s s = true.
Proof.
  induction s as [|c s IH]; simpl; [reflexivity|].
  rewrite N.eqb_refl. exact IH.
Qed.

Lemma str_eqb_eq (a b : pystr) : str_eqb a b = true <-> a = b.
Proof.
  split.
  - revert b. induction a as [|x a IH]; intros [|y b] H; simpl in H;
      try discriminate; [reflexivity|].
    apply andb_true_iff in H. destruct H as [Hxy Hab].
    apply N.eqb_eq in Hxy. rewrite Hxy, (IH b Hab). reflexivity.
  - intros ->. apply str_eqb_refl.
Qed.

Lemma str_eqb_false (a b : pystr) : a <> b -> str_eqb a b = false.
Proof.
  intros H. destruct (str_eqb a b) eqn:E; [|reflexivity].
  apply str_eqb_eq in E. congruence.
Qed.

(** C5: the host test accepts a host that only begins with a platform
    domain.  The pattern is matched at the start of the host name and is
    not anchored at its end, so [youtube.com.evil.example] passes it, for
    every reading of [\w], and the resolver returns the [v] parameter of
    a watch URL on that host. *)
Theorem host_check_accepts_foreign_domain :
  (forall unicode_word,
      matches_host unicode_word (py "youtube.com.evil.example") = true) /\
  urlparse_plain (py "https://youtube.com.evil.example/watch?v=dQw4w9WgXcQ")
    = Some {| hostname := Some (py "youtube.com.evil.example");
              path := py "/watch";
              query := py "v=dQw4w9WgXcQ" |} /\
  extract_video_id_plain
    (py "https://youtube.com.evil.example/watch?v=dQw4w9WgXcQ")
    = Returns (Some (py "dQw4w9WgXcQ")).
Proof. repeat split; intros; vm_compute; reflexivity. Qed.

(** The example list of [url_extract_test.py]. *)
Example resolver_examples :
  map extract_video_id_plain
    [py "https://www.youtube.com/watch?v=dQw4w9WgXcQ";
     py "https://www.youtube.com/watch?v=dQw4w9WgXcQ&list=WL&index=1";
     py "dQw4w9WgXcQ";
     py "https://youtu.be/dQw4w9WgXcQ";
     py "https://youtu.be/dQw4w9WgXcQ?si=abcde12345";
     py "https://www.youtube.com/embed/dQw4w9WgXcQ";
     py "https://music.youtube.com/watch?v=dQw4w9WgXcQ&list=...";
     py "https://m.youtube.com/watch?v=dQw4w9WgXcQ";
     py "https://www.youtube.co.uk/watch?v=dQw4w9WgXcQ";
     py "youtube.com/watch?v=dQw4w9WgXcQ";
     py "https://www.youtube.com/v/dQw4w9WgXcQ"]
  = repeat (Returns (Some (py "dQw4w9WgXcQ"))) 11 /\
  map extract_video_id_plain
    [py "https://www.google.com"; py "not a url";
     py "https://www.youtube.com/channel/UC-lHJZR3Gqxm24_Vd_AJ5Yw"]
  = repeat (Returns None) 3 /\
  extract_video_id_plain (py "https://www.youtube.com/shorts/o-YBDTqX_ZU")
  = Returns (Some (py "o-YBDTqX_ZU")).
Proof. repeat split; vm_compute; reflexivity. Qed.

(** C6, as the specification states it, fails on a URL of the
    repository's own example list: the segment after [/live/] is
    returned as it stands, twelve characters long.  The value of [v] is
    returned as [parse_qs] decodes it, here with a space in it. *)
Lemma resolver_returns_unvalidated_segment :
  extract_video_id_plain
    (py "https://www.youtube.com/live/some_live_id?feature=share")
    = Returns (Some (py "some_live_id")) /\
  length (py "some_live_id") <> 11%nat /\
  extract_video_id_plain (py "https://www.youtube.com/watch?v=abc")
    = Returns (Some (py "abc")) /\
  extract_video_id_plain (py "https://www.youtube.com/watch?v=a+b")
    = Returns (Some (py "a b")) /\
  forallb id_char (py "a b") = false.
Proof.
  repeat split; try (vm_compute; reflexivity). vm_compute. discriminate.
Qed.

Section ResolverFacts.

Variable urlparse : pystr -> option parsed_url.
Variable parse_qs : pystr -> dict (list pystr).
Variable unicode_word : N -> bool.

Lemma bare_id_matches (url : pystr) :
  length url = 11%nat -> forallb id_char url = true ->
  matches_bare_id url = true.
Proof.
  intros Hlen Hall. unfold matches_bare_id.
  rewrite firstn_all2 by lia. rewrite skipn_all2 by lia.
  rewrite Hall, Hlen. reflexivity.
Qed.

Lemma resolve_bare_id (url : pystr) :
  length url = 11%nat -> forallb id_char url = true ->
  extract_video_id urlparse parse_qs unicode_word url = Returns (Some url).
Proof.
  intros Hlen Hall. unfold extract_video_id.
  destruct url as [|c url']; [discriminate|].
  rewrite (bare_id_matches _ Hlen Hall). reflexivity.
Qed.

Lemma resolve_unmatched_host (url : pystr) (parsed : parsed_url) :
  url <> [] -> matches_bare_id url = false ->
  urlparse (with_scheme url) = Some parsed ->
  (hostname parsed = None \/
   exists h, hostname parsed = Some h /\
             matches_host unicode_word h = false) ->
  extract_video_id urlparse parse_qs unicode_word url = Returns None.
Proof.
  intros Hne Hbare Hparse Hhost. unfold extract_video_id.
  destruct url as [|c url']; [congruence|].
  rewrite Hbare, Hparse.
  destruct Hhost as [Hn | [h [Hh Hm]]].
  - rewrite Hn. reflexivity.
  - rewrite Hh, Hm. reflexivity.
Qed.

(** What the resolver does once the URL is parsed and the host
    accepted. *)
Lemma resolve_parsed (url : pystr) (parsed : parsed_url) (h : pystr) :
  url <> [] -> matches_bare_id url = false ->
  urlparse (with_scheme url) = Some parsed ->
  hostname parsed = Some h -> matches_host unicode_word h = true ->
  extract_video_id urlparse parse_qs unicode_word url
  = if str_eqb (path parsed) (py "/watch") then
      match dict_get (py "v") (parse_qs (query parsed)) with
      | None => Returns None
      | Some (v :: _) => Returns (Some v)
      | Some [] => Raises
      end
    else if str_eqb h (py "youtu.be") then
      match split (py "/") (path parsed) with
      | _ :: segment :: _ => Returns (Some (before_query segment))
      | _ => Raises
      end
    else
      match split (py "/") (path parsed) with
      | _ :: kind :: segment :: _ =>
          if existsb (str_eqb kind) alternate_endpoints
          then Returns (Some (before_query segment))
          else Returns None
      | _ => Returns None
      end.
Proof.
  intros Hne Hbare Hparse Hhost Hmatch. unfold extract_video_id.
  destruct url as [|c url']; [congruence|].
  rewrite Hbare, Hparse, Hhost, Hmatch. reflexivity.
Qed.

Lemma endpoint_listed (kind : pystr) :
  existsb (str_eqb kind) alternate_endpoints = true <->
  In kind alternate_endpoints.
Proof.
  rewrite existsb_exists. split.
  - intros [k [Hin Hk]]. apply str_eqb_eq in Hk. subst k. exact Hin.
  - intros Hin. exists kind. split; [exact Hin | apply str_eqb_refl].
Qed.

(** An identifier read from the parsed URL is returned as it is. *)
Lemma resolve_from_url (url : pystr) (parsed : parsed_url) (h v : pystr) :
  url <> [] -> matches_bare_id url = false ->
  urlparse (with_scheme url) = Some parsed ->
  hostname parsed = Some h -> matches_host unicode_word h = true ->
  (path parsed = py "/watch" /\
   exists vs, dict_get (py "v") (parse_qs (query parsed)) = Some (v :: vs)) \/
  (path parsed <> py "/watch" /\ h = py "youtu.be" /\
   exists s0 segment rest,
     split (py "/") (path parsed) = s0 :: segment :: rest /\
     v = before_query segment) \/
  (path parsed <> py "/watch" /\ h <> py "youtu.be" /\
   exists s0 kind segment rest,
     split (py "/") (path parsed) = s0 :: kind :: segment :: rest /\
     In kind alternate_endpoints /\ v = before_query segment) ->
  extract_video_id urlparse parse_qs unicode_word url = Returns (Some v).
Proof.
  intros Hne Hbare Hparse Hhost Hmatch Hfrom.
  rewrite (resolve_parsed url parsed h Hne Hbare Hparse Hhost Hmatch).
  destruct Hfrom as [[Hw [vs Hv]] | [[Hw [-> [s0 [seg [rest [Hs ->]]]]]]
                   | [Hw [Hh [s0 [kind [seg [rest [Hs [Hk ->]]]]]]]]]].
  - rewrite Hw, str_eqb_refl, Hv. reflexivity.
  - rewrite (str_eqb_false _ _ Hw), str_eqb_refl, Hs. reflexivity.
  - rewrite (str_eqb_false _ _ Hw), (str_eqb_false _ _ Hh), Hs.
    rewrite (proj2 (endpoint_listed kind) Hk). reflexivity.
Qed.

(** Where a returned identifier comes from. *)
Lemma resolve_provenance (url v : pystr) :
  extract_video_id urlparse parse_qs unicode_word url = Returns (Some v) ->
  (matches_bare_id url = true /\ v = url) \/
  (url <> [] /\ matches_bare_id url = false /\
   exists parsed h,
     urlparse (with_scheme url) = Some parsed /\
     hostname parsed = Some h /\ matches_host unicode_word h = true /\
     ((path parsed = py "/watch" /\
       exists vs, dict_get (py "v") (parse_qs (query parsed))
                    = Some (v :: vs)) \/
      (path parsed <> py "/watch" /\ h = py "youtu.be" /\
       exists s0 segment rest,
         split (py "/") (path parsed) = s0 :: segment :: rest /\
         v = before_query segment) \/
      (path parsed <> py "/watch" /\ h <> py "youtu.be" /\
       exists s0 kind segment rest,
         split (py "/") (path parsed) = s0 :: kind :: segment :: rest /\
         In kind alternate_endpoints /\ v = before_query segment))).
Proof.
  unfold extract_video_id. intros H.
  destruct url as [|c url']; [discriminate|].
  destruct (matches_bare_id (c :: url')) eqn:Hbare.
  - left. split; [reflexivity | congruence].
  - right. split; [discriminate|]. split; [reflexivity|].
    destruct (urlparse (with_scheme (c :: url'))) as [parsed|];
      [|discriminate].
    destruct (hostname parsed) as [h|] eqn:Hhost; [|discriminate].
    destruct (matches_host unicode_word h) eqn:Hmatch; [|discriminate].
    cbn [negb] in H.
    exists parsed, h. split; [reflexivity|]. split; [exact Hhost|].
    split; [exact Hmatch|].
    destruct (str_eqb (path parsed) (py "/watch")) eqn:Hw.
    + left. split; [apply str_eqb_eq; exact Hw|].
      destruct (dict_get (py "v") (parse_qs (query parsed)))
        as [[|v0 vs]|]; try discriminate.
      exists vs. congruence.
    + right.
      assert (Hpath : path parsed <> py "/watch").
      { intros E. rewrite E, str_eqb_refl in Hw. discriminate. }
      destruct (str_eqb h (py "youtu.be")) eqn:Hshort.
      * left. split; [exact Hpath|].
        split; [apply str_eqb_eq; exact Hshort|].
        destruct (split (py "/") (path parsed)) as [|s0 [|s1 ss]];
          try discriminate.
        exists s0, s1, ss. split; [reflexivity | congruence].
      * right. split; [exact Hpath|]. split.
        { intros E. rewrite E, str_eqb_refl in Hshort. discriminate. }
        destruct (split (py "/") (path parsed)) as [|s0 [|s1 [|s2 ss]]];
          try discriminate.
        destruct (existsb (str_eqb s1) _) eqn:Hk; [|discriminate].
        exists s0, s1, s2, ss. split; [reflexivity|].
        split; [apply endpoint_listed; exact Hk | congruence].
Qed.

Lemma resolve_watch_without_v (url : pystr) (parsed : parsed_url)
    (h : pystr) :
  url <> [] -> matches_bare_id url = false ->
  urlparse (with_scheme url) = Some parsed ->
  hostname parsed = Some h -> matches_host unicode_word h = true ->
  path parsed = py "/watch" ->
  dict_get (py "v") (parse_qs (query parsed)) = None ->
  extract_video_id urlparse parse_qs unicode_word url = Returns None.
Proof.
  intros Hne Hbare Hparse Hhost Hmatch Hw Hv.
  rewrite (resolve_parsed url parsed h Hne Hbare Hparse Hhost Hmatch).
  rewrite Hw, str_eqb_refl, Hv. reflexivity.
Qed.

End ResolverFacts.

(** C6 (amended): an input that is exactly an 11-character token over
    the alphabet of alphanumerics, '-' and '_' is returned verbatim.
    Apart from an input that matches the bare-identifier pattern, the
    resolver returns an identifier exactly when [urlparse] gives the
    input a host that passes the host test and one of three cases holds:
    the path is [/watch] and [parse_qs] gives the query a [v] parameter,
    and the identifier is its first value as [parse_qs] decodes it; the
    host is [youtu.be] and the path has a second segment; the path has a
    third segment after [embed], [shorts], [live] or [v]; in the last
    two cases the identifier is that segment cut at its first ['?'].
    No check of length or alphabet is applied to these values.  An input
    whose host is missing or does not match the host pattern, and a
    watch URL without a [v] parameter, yield no identifier, not a
    default value. *)
Theorem resolver_identifier_provenance :
  forall (urlparse : pystr -> option parsed_url)
         (parse_qs : pystr -> dict (list pystr))
         (unicode_word : N -> bool) (url : pystr),
    (length url = 11%nat -> forallb id_char url = true ->
     extract_video_id urlparse parse_qs unicode_word url
       = Returns (Some url)) /\
    (forall v,
        extract_video_id urlparse parse_qs unicode_word url
          = Returns (Some v) <->
        (url <> [] /\ matches_bare_id url = true /\ v = url) \/
        (url <> [] /\ matches_bare_id url = false /\
         exists parsed h,
           urlparse (with_scheme url) = Some parsed /\
           hostname parsed = Some h /\
           matches_host unicode_word h = true /\
           ((path parsed = py "/watch" /\
             exists vs, dict_get (py "v") (parse_qs (query parsed))
                          = Some (v :: vs)) \/
            (path parsed <> py "/watch" /\ h = py "youtu.be" /\
             exists s0 segment rest,
               split (py "/") (path parsed) = s0 :: segment :: rest /\
               v = before_query segment) \/
            (path parsed <> py "/watch" /\ h <> py "youtu.be" /\
             exists s0 kind segment rest,
               split (py "/") (path parsed) = s0 :: kind :: segment :: rest /\
               In kind alternate_endpoints /\
               v = before_query segment)))) /\
    (forall parsed,
        url <> [] -> matches_bare_id url = false ->
        urlparse (with_scheme url) = Some parsed ->
        (hostname parsed = None \/
         exists h, hostname parsed = Some h /\
                   matches_host unicode_word h = false) ->
        extract_video_id urlparse parse_qs unicode_word url
          = Returns None) /\
    (forall parsed h,
        url <> [] -> matches_bare_id url = false ->
        urlparse (with_scheme url) = Some parsed ->
        hostname parsed = Some h -> matches_host unicode_word h = true ->
        path parsed = py "/watch" ->
        dict_get (py "v") (parse_qs (query parsed)) = None ->
        extract_video_id urlparse parse_qs unicode_word url
          = Returns None).
Proof.
  intros urlparse parse_qs unicode_word url.
  split; [|split; [|split]].
  - apply resolve_bare_id.
  - intros v. split.
    + intros H.
      destruct (resolve_provenance urlparse parse_qs unicode_word url v H)
        as [[Hbare ->] | Hurl]; [|right; exact Hurl].
      left. split; [|split; [exact Hbare | reflexivity]].
      intros ->. discriminate Hbare.
    + intros [[Hne [Hbare ->]] | [Hne [Hbare [parsed [h [Hp [Hh [Hm Hfrom]]]]]]]].
      * unfold extract_video_id. destruct url as [|c url']; [congruence|].
        rewrite Hbare. reflexivity.
      * exact (resolve_from_url urlparse parse_qs unicode_word url parsed h v
                 Hne Hbare Hp Hh Hm Hfrom).
  - intros parsed. apply resolve_unmatched_host.
  - intros parsed h. apply resolve_watch_without_v.
Qed.

Lemma resolver_identifier_provenance_witness :
  length (py "dQw4w9WgXcQ") = 11%nat /\
  forallb id_char (py "dQw4w9WgXcQ") = true /\
  extract_video_id_plain (py "dQw4w9WgXcQ")
    = Returns (Some (py "dQw4w9WgXcQ")) /\
  extract_video_id_plain (py "https://www.youtube.com/watch?v=a+b")
    = Returns (Some (py "a b")).
Proof.
  split; [reflexivity|]. split; [reflexivity|]. split.
  - apply (proj1 (resolver_identifier_provenance
                    urlparse_plain parse_qs_plain ascii_word_only
                    (py "dQw4w9WgXcQ"))); reflexivity.
  - apply (proj2 (proj1 (proj2 (resolver_identifier_provenance
                                  urlparse_plain parse_qs_plain
                                  ascii_word_only
                                  (py "https://www.youtube.com/watch?v=a+b")))
                    (py "a b"))).
    right. split; [discriminate|]. split; [reflexivity|].
    exists {| hostname := Some (py "www.youtube.com");
              path := py "/watch"; query := py "v=a+b" |},
           (py "www.youtube.com").
    split; [reflexivity|]. split; [reflexivity|]. split; [reflexivity|].
    left. split; [reflexivity|]. exists []. reflexivity.
Defined.

(** ** Strings: stripping and splitting *)

Section Stripping.

Variable p : N -> bool.

Lemma drop_while_headed s : headed p (drop_while p s).
Proof.
  induction s as [|c s IH]; simpl; [exact I|].
  destruct (p c) eqn:E; [exact IH | exact E].
Qed.

Lemma drop_while_fixed s : headed p s -> drop_while p s = s.
Proof. destruct s as [|c s]; simpl; [reflexivity | intros ->; reflexivity]. Qed.

Lemma drop_while_split s :
  exists pre, s = pre ++ drop_while p s /\ forallb p pre = true.
Proof.
  induction s as [|c s [pre [E H]]]; simpl.
  - exists []. split; reflexivity.
  - destruct (p c) eqn:Ec.
    + exists (c :: pre). simpl. rewrite Ec, H.
      split; [congruence | reflexivity].
    + exists []. split; reflexivity.
Qed.

Lemma headed_app a b : headed p (a ++ b) -> a <> [] -> headed p a.
Proof. destruct a; [congruence | simpl; auto]. Qed.

Lemma forallb_headed_nil s : forallb p s = true -> headed p s -> s = [].
Proof.
  destruct s as [|c s]; [reflexivity|]. simpl. intros H Hc.
  rewrite Hc in H. discriminate.
Qed.

Lemma strip_by_fixed s :
  headed p s -> headed p (rev s) -> strip_by p s = s.
Proof.
  intros H1 H2. unfold strip_by.
  rewrite (drop_while_fixed s H1), (drop_while_fixed _ H2).
  apply rev_involutive.
Qed.

Lemma strip_by_trimmed s :
  headed p (strip_by p s) /\ headed p (rev (strip_by p s)).
Proof.
  unfold strip_by. set (u := drop_while p s).
  assert (Hu : headed p u) by apply drop_while_headed.
  destruct (drop_while_split (rev u)) as [pre [E _]].
  set (r := drop_while p (rev u)) in *.
  split.
  - destruct r as [|d r'] eqn:Er; [exact I|].
    apply (headed_app _ (rev pre)).
    + rewrite <- rev_app_distr, <- E, rev_involutive. exact Hu.
    + simpl. destruct (rev r'); discriminate.
  - rewrite rev_involutive. apply drop_while_headed.
Qed.

Lemma strip_by_idempotent s :
  strip_by p (strip_by p s) = strip_by p s.
Proof. apply strip_by_fixed; apply strip_by_trimmed. Qed.

Lemma strip_by_all s : forallb p s = true -> strip_by p s = [].
Proof.
  intros H. unfold strip_by.
  assert (E : drop_while p s = []).
  { induction s as [|c s IH]; simpl in *; [reflexivity|].
    apply andb_true_iff in H. destruct H as [Hc Hs].
    rewrite Hc. auto. }
  rewrite E. reflexivity.
Qed.

Lemma strip_by_nil s : strip_by p s = [] -> forallb p s = true.
Proof.
  unfold strip_by. intros H.
  assert (Hr : drop_while p (rev (drop_while p s)) = []).
  { rewrite <- (rev_involutive (drop_while p _)), H. reflexivity. }
  destruct (drop_while_split (rev (drop_while p s))) as [pre [E Hpre]].
  rewrite Hr, app_nil_r in E.
  assert (Hu : forallb p (drop_while p s) = true).
  { rewrite <- (rev_involutive (drop_while p s)), E.
    rewrite forallb_forall in *. intros x Hx. apply Hpre.
    apply in_rev. exact Hx. }
  apply forallb_headed_nil in Hu; [|apply drop_while_headed].
  destruct (drop_while_split s) as [pre' [E' Hpre']].
  rewrite Hu, app_nil_r in E'. rewrite E'. exact Hpre'.
Qed.

Lemma strip_by_none s :
  forallb (fun c => negb (p c)) s = true -> strip_by p s = s.
Proof.
  intros H. apply strip_by_fixed.
  - destruct s as [|c s]; simpl in *; [exact I|].
    apply andb_true_iff in H. destruct H as [Hc _].
    apply negb_true_iff. exact Hc.
  - assert (Hr : forallb (fun c => negb (p c)) (rev s) = true).
    { rewrite forallb_forall in *. intros x Hx. apply H.
      apply in_rev. exact Hx. }
    destruct (rev s) as [|c r]; simpl in *; [exact I|].
    apply andb_true_iff in Hr. destruct Hr as [Hc _].
    apply negb_true_iff. exact Hc.
Qed.

Lemma drop_while_keeps c s :
  In c s -> p c = false -> In c (drop_while p s).
Proof.
  induction s as [|d s IH]; intros Hin Hc; [destruct Hin|].
  cbn [drop_while]. destruct (p d) eqn:E; [|exact Hin].
  destruct Hin as [-> | Hin]; [congruence | auto].
Qed.

Lemma strip_by_keeps c s :
  In c s -> p c = false -> In c (strip_by p s).
Proof.
  intros Hin Hc. unfold strip_by. apply -> in_rev.
  apply drop_while_keeps; [|exact Hc]. apply -> in_rev.
  apply drop_while_keeps; assumption.
Qed.

End Stripping.

(** Splitting at a single character. *)
Lemma split_char_absent (x : N) (s : pystr) :
  ~ In x s -> split [x] s = [s].
Proof.
  unfold split. induction s as [|c s IH]; intros H; [reflexivity|].
  cbn [split_from starts_with].
  destruct (x =? c) eqn:E.
  - apply N.eqb_eq in E. exfalso. apply H. left. congruence.
  - cbn [andb]. rewrite IH; [reflexivity|].
    intros Hin. apply H. right. exact Hin.
Qed.

Lemma split_char_app (x : N) (a b : pystr) :
  ~ In x a -> split [x] (a ++ x :: b) = a :: split [x] b.
Proof.
  unfold split. induction a as [|c a IH]; intros H.
  - cbn [app split_from starts_with]. rewrite N.eqb_refl. reflexivity.
  - cbn [app split_from starts_with].
    destruct (x =? c) eqn:E.
    + apply N.eqb_eq in E. exfalso. apply H. left. congruence.
    + cbn [andb]. rewrite IH; [reflexivity|].
      intros Hin. apply H. right. exact Hin.
Qed.

Lemma split_from_nonempty (sep s : pystr) :
  forall skip, split_from sep skip s <> [].
Proof.
  induction s as [|c s IH]; intros skip; [discriminate|].
  cbn [split_from]. destruct skip as [|k]; [|apply IH].
  destruct (starts_with sep (c :: s)); [discriminate|].
  destruct (split_from sep 0 s); discriminate.
Qed.

Lemma split_char_cons (x c : N) (s : pystr) :
  split [x] (c :: s)
  = if x =? c then [] :: split [x] s
    else match split [x] s with
         | h :: t => (c :: h) :: t
         | [] => [[c]]
         end.
Proof.
  unfold split. cbn [split_from starts_with].
  destruct (x =? c); reflexivity.
Qed.

Lemma join_cons (sep a b : pystr) (rest : list pystr) :
  join sep (a :: b :: rest) = a ++ sep ++ join sep (b :: rest).
Proof. reflexivity. Qed.

(** Joining the fields of a string gives the string back. *)
Lemma split_char_join (x : N) (s : pystr) : join [x] (split [x] s) = s.
Proof.
  induction s as [|c s IH]; [reflexivity|].
  rewrite split_char_cons.
  pose proof (split_from_nonempty [x] s 0) as Hne. fold (split [x] s) in Hne.
  destruct (split [x] s) as [|h t]; [congruence|].
  destruct (x =? c) eqn:E.
  - apply N.eqb_eq in E. subst c. rewrite join_cons, IH. reflexivity.
  - destruct t as [|g t].
    + cbn [join] in *. rewrite IH. reflexivity.
    + rewrite join_cons in *. rewrite <- IH. reflexivity.
Qed.

Lemma split_char_fields (x : N) (s : pystr) :
  forall f, In f (split [x] s) -> ~ In x f.
Proof.
  induction s as [|c s IH]; intros f Hf.
  - destruct Hf as [<- | []]. intros [].
  - rewrite split_char_cons in Hf. destruct (x =? c) eqn:E.
    + destruct Hf as [<- | Hf]; [intros [] | exact (IH f Hf)].
    + apply N.eqb_neq in E.
      destruct (split [x] s) as [|h t].
      * destruct Hf as [<- | []]. intros [Hx | []]. congruence.
      * destruct Hf as [<- | Hf]; [|exact (IH f (or_intror Hf))].
        intros [Hx | Hx]; [congruence|].
        exact (IH h (or_introl eq_refl) Hx).
Qed.

(** Splitting the join of fields that are free of the separator gives
    the fields back. *)
Lemma split_join_fields (x : N) (fields : list pystr) :
  fields <> [] -> (forall f, In f fields -> ~ In x f) ->
  split [x] (join [x] fields) = fields.
Proof.
  induction fields as [|f fs IH]; intros Hne Hall; [congruence|].
  destruct fs as [|g fs].
  - cbn [join]. apply split_char_absent. apply Hall. left. reflexivity.
  - rewrite join_cons. cbn [app].
    rewrite split_char_app by (apply Hall; left; reflexivity).
    rewrite IH; [reflexivity | discriminate |].
    intros h Hh. apply Hall. right. exact Hh.
Qed.

Lemma join_avoids (x y : N) (fields : list pystr) :
  x <> y -> (forall f, In f fields -> ~ In y f) -> ~ In y (join [x] fields).
Proof.
  intros Hxy. induction fields as [|f fs IH]; intros Hall; [intros []|].
  destruct fs as [|g fs].
  - cbn [join]. apply Hall. left. reflexivity.
  - rewrite join_cons. cbn [app]. rewrite in_app_iff. intros [H | [H | H]].
    + exact (Hall f (or_introl eq_refl) H).
    + exact (Hxy H).
    + apply IH in H; [exact H|]. intros h Hh. apply Hall. right. exact Hh.
Qed.

Lemma join_holds (sep : pystr) (y : N) (fields : list pystr) :
  forall f, In f fields -> In y f -> In y (join sep fields).
Proof.
  induction fields as [|g fs IH]; intros f Hf Hy; [destruct Hf|].
  destruct fs as [|g' fs].
  - destruct Hf as [-> | []]. exact Hy.
  - rewrite join_cons, !in_app_iff. destruct Hf as [-> | Hf].
    + left. exact Hy.
    + right. right. exact (IH f Hf Hy).
Qed.

(** ** Timestamps of the cue-text format *)

Lemma ascii_digit_cases (c : N) :
  ascii_digit c = true ->
  c = 48 \/ c = 49 \/ c = 50 \/ c = 51 \/ c = 52 \/
  c = 53 \/ c = 54 \/ c = 55 \/ c = 56 \/ c = 57.
Proof.
  unfold ascii_digit. intros H. apply andb_true_iff in H.
  destruct H as [H1 H2]. apply N.leb_le in H1, H2. lia.
Qed.

Lemma ascii_digit_facts (c : N) :
  ascii_digit c = true ->
  digit_value c = Some (Z.of_N (c - 48)) /\
  (c =? ch "_"%char) = false /\ (c =? ch "-"%char) = false /\
  (c =? ch "+"%char) = false /\ is_int_space c = false /\
  c <> 46 /\ c <> 58.
Proof.
  intros H. apply ascii_digit_cases in H.
  repeat destruct H as [H | H]; subst c;
    (repeat split; try (vm_compute; reflexivity); discriminate).
Qed.

Lemma int_digits_ascii (ds : pystr) :
  forall acc prev,
    forallb ascii_digit ds = true ->
    (ds <> [] \/ prev = true) ->
    int_digits acc prev ds
      = Some (fold_left (fun a c => (10 * a + Z.of_N (c - 48))%Z) ds acc).
Proof.
  induction ds as [|c ds IH]; intros acc prev Hall Hne.
  - destruct Hne as [Hne | ->]; [congruence | reflexivity].
  - simpl in Hall. apply andb_true_iff in Hall. destruct Hall as [Hc Hds].
    destruct (ascii_digit_facts c Hc) as [Hv [Hu _]].
    cbn [int_digits fold_left]. rewrite Hu, Hv.
    apply IH; [exact Hds | right; reflexivity].
Qed.

Lemma decimal_literal_forall (ds : pystr) :
  decimal_literal ds = true -> ds <> [] /\ forallb ascii_digit ds = true.
Proof.
  destruct ds as [|c ds]; simpl; [discriminate|].
  intros H. split; [discriminate | exact H].
Qed.

Lemma py_int_decimal (ds : pystr) :
  decimal_literal ds = true -> py_int ds = Some (decimal_value ds).
Proof.
  intros H. destruct (decimal_literal_forall ds H) as [Hne Hall].
  unfold py_int. rewrite strip_by_none.
  - destruct ds as [|c ds']; [congruence|].
    simpl in Hall. apply andb_true_iff in Hall. destruct Hall as [Hc Hds].
    destruct (ascii_digit_facts c Hc) as [_ [_ [Hm [Hp _]]]].
    rewrite Hm, Hp. unfold decimal_value.
    apply int_digits_ascii; [simpl; rewrite Hc; exact Hds | left; discriminate].
  - rewrite forallb_forall in *. intros x Hx.
    apply negb_true_iff. apply (ascii_digit_facts x (Hall x Hx)).
Qed.

Lemma decimal_literal_no_separator (ds : pystr) :
  decimal_literal ds = true -> ~ In 46 ds /\ ~ In 58 ds.
Proof.
  intros H. destruct (decimal_literal_forall ds H) as [_ Hall].
  rewrite forallb_forall in Hall.
  split; intros Hin; apply Hall in Hin; discriminate.
Qed.

(** [time_str.split('.')[0]] when no dot stands before [tail]. *)
Lemma before_fraction (core tail : pystr) :
  ~ In 46 core ->
  (tail = [] \/ exists frac, tail = py "." ++ frac) ->
  hd [] (split (py ".") (core ++ tail)) = core.
Proof.
  intros Hcore [-> | [frac ->]]; change (py ".") with [46].
  - rewrite app_nil_r, split_char_absent by exact Hcore. reflexivity.
  - cbn [app]. rewrite split_char_app by exact Hcore. reflexivity.
Qed.

Lemma vtt_time_hms (h m s tail : pystr) :
  decimal_literal h = true -> decimal_literal m = true ->
  decimal_literal s = true ->
  (tail = [] \/ exists frac, tail = py "." ++ frac) ->
  vtt_time_parse (h ++ py ":" ++ m ++ py ":" ++ s ++ tail)
    = Some (decimal_value h * 3600 + decimal_value m * 60
            + decimal_value s)%Z.
Proof.
  intros Hh Hm Hs Htail.
  destruct (decimal_literal_no_separator h Hh) as [Hh1 Hh2].
  destruct (decimal_literal_no_separator m Hm) as [Hm1 Hm2].
  destruct (decimal_literal_no_separator s Hs) as [Hs1 Hs2].
  unfold vtt_time_parse.
  replace (h ++ py ":" ++ m ++ py ":" ++ s ++ tail)
    with ((h ++ py ":" ++ m ++ py ":" ++ s) ++ tail)
    by (rewrite <- !app_assoc; reflexivity).
  rewrite before_fraction; [|
    change (py ":") with [58]; rewrite !in_app_iff; simpl;
    intros [?|[[?|[]]|[?|[[?|[]]|?]]]]; tauto || discriminate | exact Htail].
  change (py ":") with [58]. cbn [app].
  rewrite split_char_app by exact Hh2.
  rewrite split_char_app by exact Hm2.
  rewrite split_char_absent by exact Hs2.
  rewrite !py_int_decimal by assumption. reflexivity.
Qed.

Lemma vtt_time_ms (m s tail : pystr) :
  decimal_literal m = true -> decimal_literal s = true ->
  (tail = [] \/ exists frac, tail = py "." ++ frac) ->
  vtt_time_parse (m ++ py ":" ++ s ++ tail)
    = Some (decimal_value m * 60 + decimal_value s)%Z.
Proof.
  intros Hm Hs Htail.
  destruct (decimal_literal_no_separator m Hm) as [Hm1 Hm2].
  destruct (decimal_literal_no_separator s Hs) as [Hs1 Hs2].
  unfold vtt_time_parse.
  replace (m ++ py ":" ++ s ++ tail) with ((m ++ py ":" ++ s) ++ tail)
    by (rewrite <- !app_assoc; reflexivity).
  rewrite before_fraction; [|
    change (py ":") with [58]; rewrite !in_app_iff; simpl;
    intros [?|[[?|[]]|?]]; tauto || discriminate | exact Htail].
  change (py ":") with [58]. cbn [app].
  rewrite split_char_app by exact Hm2.
  rewrite split_char_absent by exact Hs2.
  rewrite !py_int_decimal by assumption. reflexivity.
Qed.

Lemma vtt_time_s (s tail : pystr) :
  decimal_literal s = true ->
  (tail = [] \/ exists frac, tail = py "." ++ frac) ->
  vtt_time_parse (s ++ tail) = Some (decimal_value s).
Proof.
  intros Hs Htail.
  destruct (decimal_literal_no_separator s Hs) as [Hs1 Hs2].
  unfold vtt_time_parse.
  rewrite before_fraction by assumption.
  change (py ":") with [58].
  rewrite split_char_absent by exact Hs2.
  cbn [hd]. apply py_int_decimal. exact Hs.
Qed.

Lemma forallb_false_witness (f : N -> bool) (s : pystr) :
  forallb f s = false -> exists c, In c s /\ f c = false.
Proof.
  induction s as [|c s IH]; [discriminate|]. cbn [forallb].
  destruct (f c) eqn:E.
  - intros H. destruct (IH H) as [d [Hin Hd]].
    exists d. split; [right; exact Hin | exact Hd].
  - intros _. exists c. split; [left; reflexivity | exact E].
Qed.

Lemma int_digits_foreign (c : N) (s : pystr) :
  (c =? ch "_"%char) = false -> digit_value c = None -> In c s ->
  forall acc prev, int_digits acc prev s = None.
Proof.
  intros Hu Hd. induction s as [|y s IH]; intros Hin acc prev;
    [destruct Hin|].
  cbn [int_digits].
  destruct (y =? ch "_"%char) eqn:Ey.
  - destruct prev; [|reflexivity]. apply IH.
    destruct Hin as [-> | Hin]; [congruence | exact Hin].
  - destruct (digit_value y) as [d|] eqn:Edy; [|reflexivity].
    apply IH. destruct Hin as [-> | Hin]; [congruence | exact Hin].
Qed.

(** [int] raises on the empty string and on every string that holds a
    character foreign to integer literals. *)
Lemma py_int_rejects (s : pystr) :
  not_int_text s = true -> py_int s = None.
Proof.
  unfold not_int_text, py_int. destruct s as [|c0 s0] eqn:Es;
    [reflexivity|].
  rewrite <- Es. clear Es c0 s0. intros H. apply negb_true_iff in H.
  destruct (forallb_false_witness int_char s H) as [c [Hin Hc]].
  unfold int_char in Hc.
  apply orb_false_iff in Hc. destruct Hc as [Hc Hspace].
  apply orb_false_iff in Hc. destruct Hc as [Hc Hplus].
  apply orb_false_iff in Hc. destruct Hc as [Hc Hminus].
  apply orb_false_iff in Hc. destruct Hc as [Hdigit Hunder].
  assert (Hd : digit_value c = None)
    by (destruct (digit_value c); [discriminate | reflexivity]).
  pose proof (strip_by_keeps is_int_space c s Hin Hspace) as Hkept.
  destruct (strip_by is_int_space s) as [|x r]; [destruct Hkept|].
  destruct (x =? ch "-"%char) eqn:Ex.
  - apply N.eqb_eq in Ex. destruct Hkept as [-> | Hr].
    + rewrite Ex, N.eqb_refl in Hminus. discriminate.
    + rewrite (int_digits_foreign c r Hunder Hd Hr). reflexivity.
  - destruct (x =? ch "+"%char) eqn:Ex'.
    + apply N.eqb_eq in Ex'. destruct Hkept as [-> | Hr].
      * rewrite Ex', N.eqb_refl in Hplus. discriminate.
      * exact (int_digits_foreign c r Hunder Hd Hr 0%Z false).
    + exact (int_digits_foreign c (x :: r) Hunder Hd Hkept 0%Z false).
Qed.

(** The fields the function reads off a timestamp. *)
Lemma timestamp_fields (t : pystr) (fields : list pystr) (tail : pystr) :
  timestamp_shape t fields tail ->
  split (py ":") (hd [] (split (py ".") t)) = fields.
Proof.
  intros [-> [Hne [Hall Htail]]]. change (py ":") with [58].
  rewrite before_fraction; [| |exact Htail].
  - apply split_join_fields; [exact Hne|].
    intros f Hf. apply (Hall f Hf).
  - apply join_avoids; [discriminate|]. intros f Hf. apply (Hall f Hf).
Qed.

Lemma every_timestamp_shape (t : pystr) :
  exists fields tail, timestamp_shape t fields tail.
Proof.
  pose proof (split_char_join 46 t) as Hjoin.
  pose proof (split_char_fields 46 t) as Hdots.
  pose proof (split_from_nonempty [46] t 0) as Hne.
  fold (split [46] t) in Hne.
  destruct (split [46] t) as [|core others]; [congruence|].
  exists (split [58] core),
         (match others with
          | [] => []
          | _ :: _ => 46 :: join [46] others
          end).
  unfold timestamp_shape. change (py ":") with [58].
  change (py ".") with [46]. rewrite split_char_join.
  split; [|split; [|split]].
  - destruct others as [|o os].
    + cbn [join] in Hjoin. rewrite app_nil_r. congruence.
    + rewrite join_cons in Hjoin. symmetry. exact Hjoin.
  - apply (split_from_nonempty [58] core 0).
  - intros f Hf. split; [exact (split_char_fields 58 core f Hf)|].
    intros Hdot. apply (Hdots core (or_introl eq_refl)).
    rewrite <- (split_char_join 58 core).
    exact (join_holds [58] 46 _ f Hf Hdot).
  - destruct others as [|o os]; [left; reflexivity|].
    right. eexists. reflexivity.
Qed.

Lemma vtt_time_of_fields (t : pystr) (fields : list pystr) (tail : pystr) :
  timestamp_shape t fields tail ->
  vtt_time_parse t
  = match fields with
    | [h; m; s] =>
        match py_int h, py_int m, py_int s with
        | Some hours, Some minutes, Some seconds =>
            Some (hours * 3600 + minutes * 60 + seconds)%Z
        | _, _, _ => None
        end
    | [m; s] =>
        match py_int m, py_int s with
        | Some minutes, Some seconds => Some (minutes * 60 + seconds)%Z
        | _, _ => None
        end
    | _ => py_int (hd [] fields)
    end.
Proof.
  intros Hshape. unfold vtt_time_parse. cbv zeta.
  rewrite (timestamp_fields t fields tail Hshape). reflexivity.
Qed.

(** C10, as the specification states it, fails on malformed timestamps
    of four or more fields: they are not read as time zero, their first
    field is their value. *)
Lemma vtt_time_malformed_not_zero :
  vtt_time_to_seconds (py "12:34:56:") = 12%Z /\
  vtt_time_to_seconds (py "7:xx:yy:zz") = 7%Z /\
  vtt_time_to_seconds (py "12:34:56:") <> 0%Z /\
  vtt_time_to_seconds (py "7:xx:yy:zz") <> 0%Z.
Proof. repeat split; vm_compute; congruence. Qed.

(** C10 (amended): [vtt_time_to_seconds] is total and never raises.
    Every input is a list of fields joined by [':'], free of [':'] and
    ['.'], followed or not by a ['.'] and anything after it, and its
    value depends on the fields alone.  Three fields that [int] accepts
    yield hours * 3600 + minutes * 60 + seconds, two yield minutes * 60 +
    seconds, and one field or four and more yield the first field alone,
    whatever the others are.  When [int] rejects a field the function
    converts, the result is 0, the value of the time zero: [int] rejects
    the empty string and every string that holds a character other than
    a digit, a sign, an underscore or white space, and accepts a run of
    the digits 0 to 9, within its limit on their number, as the number
    it denotes.  So [H:MM:SS], [MM:SS] and bare seconds written with
    these digits yield their total of whole seconds. *)
Theorem vtt_time_to_seconds_total :
  (forall t, exists fields tail, timestamp_shape t fields tail) /\
  (forall t fields tail,
      timestamp_shape t fields tail ->
      (forall h m s a b c,
          fields = [h; m; s] ->
          py_int h = Some a -> py_int m = Some b -> py_int s = Some c ->
          vtt_time_to_seconds t = (a * 3600 + b * 60 + c)%Z) /\
      (forall m s b c,
          fields = [m; s] -> py_int m = Some b -> py_int s = Some c ->
          vtt_time_to_seconds t = (b * 60 + c)%Z) /\
      (forall n,
          length fields <> 3%nat -> length fields <> 2%nat ->
          py_int (hd [] fields) = Some n ->
          vtt_time_to_seconds t = n) /\
      (forall f,
          In f (converted_fields fields) -> py_int f = None ->
          vtt_time_to_seconds t = 0%Z)) /\
  (forall f,
      decimal_literal f = true -> (length f <= int_max_str_digits)%nat ->
      py_int f = Some (decimal_value f)) /\
  (forall f, not_int_text f = true -> py_int f = None) /\
  (forall h m s tail,
      decimal_literal h = true -> decimal_literal m = true ->
      decimal_literal s = true ->
      (length h <= int_max_str_digits)%nat ->
      (length m <= int_max_str_digits)%nat ->
      (length s <= int_max_str_digits)%nat ->
      (tail = [] \/ exists frac, tail = py "." ++ frac) ->
      vtt_time_to_seconds (h ++ py ":" ++ m ++ py ":" ++ s ++ tail)
        = (decimal_value h * 3600 + decimal_value m * 60
           + decimal_value s)%Z /\
      vtt_time_to_seconds (m ++ py ":" ++ s ++ tail)
        = (decimal_value m * 60 + decimal_value s)%Z /\
      vtt_time_to_seconds (s ++ tail) = decimal_value s).
Proof.
  split; [exact every_timestamp_shape|].
  split; [|split; [intros f Hf _; exact (py_int_decimal f Hf)
                  |split; [exact py_int_rejects|]]].
  - intros t fields tail Hshape. unfold vtt_time_to_seconds.
    rewrite (vtt_time_of_fields t fields tail Hshape).
    split; [|split; [|split]].
    + intros h m s a b c -> -> -> ->. reflexivity.
    + intros m s b c -> -> ->. reflexivity.
    + intros n H3 H2 Hn.
      destruct fields as [|x [|y [|z [|w r]]]]; cbn [hd length] in *;
        try congruence; rewrite Hn; reflexivity.
    + intros f Hf Hnone.
      destruct fields as [|x [|y [|z [|w r]]]]; cbn [converted_fields hd] in *.
      * destruct Hf.
      * destruct Hf as [<- | []]. rewrite Hnone. reflexivity.
      * destruct Hf as [<- | [<- | []]]; rewrite Hnone;
          [|destruct (py_int x)]; reflexivity.
      * destruct Hf as [<- | [<- | [<- | []]]]; rewrite Hnone;
          [|destruct (py_int x)|destruct (py_int x), (py_int y)];
          reflexivity.
      * destruct Hf as [<- | []]. rewrite Hnone. reflexivity.
  - intros h m s tail Hh Hm Hs _ _ _ Htail. unfold vtt_time_to_seconds.
    rewrite (vtt_time_hms h m s tail Hh Hm Hs Htail).
    rewrite (vtt_time_ms m s tail Hm Hs Htail).
    rewrite (vtt_time_s s tail Hs Htail).
    repeat split.
Qed.

Lemma vtt_time_to_seconds_total_witness :
  vtt_time_to_seconds (py "1:02:03.500") = 3723%Z /\
  vtt_time_to_seconds (py "02:03.500") = 123%Z /\
  vtt_time_to_seconds (py "03.500") = 3%Z /\
  vtt_time_to_seconds (py "1:xx:03") = 0%Z /\
  vtt_time_to_seconds (py "-1:02:03") = (-3477)%Z.
Proof.
  destruct vtt_time_to_seconds_total as [_ [Hfields [_ [Hrejects Hdigits]]]].
  assert (T : py ".500" = [] \/ exists frac, py ".500" = py "." ++ frac)
    by (right; exists (py "500"); reflexivity).
  assert (L : forall f : pystr, (length f <= 2)%nat ->
                                (length f <= int_max_str_digits)%nat)
    by (unfold int_max_str_digits; intros f Hf; lia).
  destruct (Hdigits (py "1") (py "02") (py "03") (py ".500")
              eq_refl eq_refl eq_refl
              (L (py "1") (le_S 1 1 (le_n 1))) (L (py "02") (le_n 2))
              (L (py "03") (le_n 2)) T)
    as [H1 [H2 H3]].
  split; [exact H1|]. split; [exact H2|]. split; [exact H3|]. split.
  - assert (S : timestamp_shape (py "1:xx:03")
                  [py "1"; py "xx"; py "03"] []).
    { split; [reflexivity|]. split; [discriminate|]. split; [|left; reflexivity].
      intros f [<- | [<- | [<- | []]]]; vm_compute; intuition discriminate. }
    apply (proj2 (proj2 (proj2 (Hfields _ _ _ S))) (py "xx")).
    + right. left. reflexivity.
    + apply Hrejects. reflexivity.
  - assert (S : timestamp_shape (py "-1:02:03")
                  [py "-1"; py "02"; py "03"] []).
    { split; [reflexivity|]. split; [discriminate|]. split; [|left; reflexivity].
      intros f [<- | [<- | [<- | []]]]; vm_compute; intuition discriminate. }
    exact (proj1 (Hfields _ _ _ S) _ _ _ (-1)%Z 2%Z 3%Z
             eq_refl eq_refl eq_refl eq_refl).
Defined.

(** Unparsable timestamps give 0, which is also the value of a
    well-formed time zero. *)
Example vtt_time_to_seconds_malformed :
  vtt_time_parse (py "xx") = None /\
  vtt_time_to_seconds (py "xx") = 0%Z /\
  vtt_time_to_seconds (py "1:xx:03") = 0%Z /\
  vtt_time_to_seconds (py "") = 0%Z /\
  vtt_time_to_seconds (py "00:00:00.000") = 0%Z.
Proof. repeat split; vm_compute; reflexivity. Qed.

(** ** The decoders *)

Lemma json3_event_cue (event : json) (c : cue) :
  json3_event event = Some (Some c) ->
  exists members joined,
    event = JObj members /\
    json3_event_text members = Some joined /\
    cue_text c = strip joined /\ strip joined <> [] /\
    json3_member_seconds (py "tStartMs") members = Some (cue_start c) /\
    json3_member_seconds (py "dDurationMs") members = Some (cue_duration c).
Proof.
  unfold json3_event. intros H.
  destruct event; try discriminate H.
  - cbn [py_in py_get bind] in H. destruct (contains _ _); discriminate H.
  - cbn [py_in py_get bind] in H. destruct (existsb _ _); discriminate H.
  - cbn [py_in py_get py_getitem bind] in H.
    destruct (dict_mem (py "segs") members); [|discriminate H].
    destruct (to_num (get_or (dict_get (py "tStartMs") members) (JNum 0)))
      as [ms|] eqn:Ems; [|discriminate H].
    cbn [bind] in H.
    destruct (float_div_1000 ms) as [start_time|] eqn:Estart;
      [|discriminate H].
    cbn [bind] in H.
    destruct (dict_get (py "segs") members) as [segs|] eqn:Esegs;
      [|discriminate H].
    cbn [bind] in H.
    destruct (py_iter segs) as [seg_list|] eqn:Eiter; [|discriminate H].
    cbn [bind] in H.
    destruct (collect_segs seg_list) as [parts|] eqn:Eparts;
      [|discriminate H].
    cbn [bind] in H.
    destruct (join_parts parts) as [joined|] eqn:Ejoin; [|discriminate H].
    cbn [bind] in H.
    destruct (strip joined) as [|x text] eqn:Etext; [discriminate H|].
    destruct (to_num (get_or (dict_get (py "dDurationMs") members) (JNum 0)))
      as [dms|] eqn:Edms; [|discriminate H].
    cbn [bind] in H.
    destruct (float_div_1000 dms) as [duration|] eqn:Edur; [|discriminate H].
    cbn [bind] in H. injection H as <-. cbn [cue_text cue_start cue_duration].
    exists members, joined. unfold json3_event_text, json3_member_seconds.
    rewrite Esegs, Ems, Edms. cbn [bind]. rewrite Eiter. cbn [bind].
    rewrite Eparts. cbn [bind]. rewrite Etext.
    repeat split; try assumption. discriminate.
Qed.

Lemma json3_events_cues (events : list json) :
  forall cues c,
    json3_events events = Some cues -> In c cues ->
    exists event, In event events /\ json3_event event = Some (Some c).
Proof.
  induction events as [|event events IH]; intros cues c H Hin.
  - injection H as <-. destruct Hin.
  - cbn [json3_events] in H. unfold bind in H.
    destruct (json3_event event) as [oc|] eqn:Ee; [|discriminate H].
    destruct (json3_events events) as [rest|] eqn:Er; [|discriminate H].
    injection H as <-.
    assert (Hcase : oc = Some c \/ In c rest).
    { destruct oc as [entry|]; [destruct Hin as [<- | Hin]|]; auto. }
    destruct Hcase as [-> | Hrest].
    + exists event. split; [left; reflexivity | exact Ee].
    + destruct (IH rest c eq_refl Hrest) as [e [He1 He2]].
      exists e. split; [right; exact He1 | exact He2].
Qed.

Lemma json3_events_error (events : list json) (event : json) :
  In event events -> json3_event event = None ->
  json3_events events = None.
Proof.
  induction events as [|e events IH]; intros Hin Hev; [destruct Hin|].
  cbn [json3_events]. destruct Hin as [-> | Hin].
  - rewrite Hev. reflexivity.
  - rewrite (IH Hin Hev). destruct (json3_event e); reflexivity.
Qed.

Lemma json3_event_bad_start (members : dict json) :
  dict_mem (py "segs") members = true ->
  to_num (get_or (dict_get (py "tStartMs") members) (JNum 0)) = None ->
  json3_event (JObj members) = None.
Proof.
  intros Hsegs Hnum. unfold json3_event.
  cbn [py_in py_get bind]. rewrite Hsegs, Hnum. reflexivity.
Qed.

Section DecoderFacts.

Variable xml_fromstring : pystr -> option element.
Variable py_float : pystr -> option Q.

Lemma srv1_element_cue (e : element) (c : cue) :
  srv1_element py_float e = Some (Some c) ->
  cue_text c = strip (get_or (elem_text e) []) /\
  strip (cue_text c) <> [] /\
  float_attr py_float e (py "start") = Some (cue_start c) /\
  float_attr py_float e (py "dur") = Some (cue_duration c).
Proof.
  unfold srv1_element. intros H.
  destruct (float_attr py_float e (py "start")) as [s|]; [|discriminate H].
  destruct (float_attr py_float e (py "dur")) as [d|]; [|discriminate H].
  cbn [bind] in H.
  destruct (strip (get_or (elem_text e) [])) as [|x text] eqn:Etext;
    [discriminate H|].
  injection H as <-. cbn [cue_text cue_start cue_duration].
  split; [reflexivity|]. split; [|auto].
  rewrite <- Etext. unfold strip. rewrite strip_by_idempotent.
  fold (strip (get_or (elem_text e) [])). rewrite Etext. discriminate.
Qed.

Lemma srv1_elements_cues (elems : list element) :
  forall cues c,
    srv1_elements py_float elems = Some cues -> In c cues ->
    exists e, In e elems /\ srv1_element py_float e = Some (Some c).
Proof.
  induction elems as [|e elems IH]; intros cues c H Hin.
  - injection H as <-. destruct Hin.
  - cbn [srv1_elements] in H. unfold bind in H.
    destruct (srv1_element py_float e) as [oc|] eqn:Ee; [|discriminate H].
    destruct (srv1_elements py_float elems) as [rest|] eqn:Er;
      [|discriminate H].
    injection H as <-.
    assert (Hcase : oc = Some c \/ In c rest).
    { destruct oc as [entry|]; [destruct Hin as [<- | Hin]|]; auto. }
    destruct Hcase as [-> | Hrest].
    + exists e. split; [left; reflexivity | exact Ee].
    + destruct (IH rest c eq_refl Hrest) as [e' [He1 He2]].
      exists e'. split; [right; exact He1 | exact He2].
Qed.

Lemma srv1_elements_error (elems : list element) (e : element) :
  In e elems -> srv1_element py_float e = None ->
  srv1_elements py_float elems = None.
Proof.
  induction elems as [|e' elems IH]; intros Hin Hev; [destruct Hin|].
  cbn [srv1_elements]. destruct Hin as [-> | Hin].
  - rewrite Hev. reflexivity.
  - rewrite (IH Hin Hev). destruct (srv1_element py_float e'); reflexivity.
Qed.

Lemma srv1_element_bad_number (e : element) :
  float_attr py_float e (py "start") = None \/
  float_attr py_float e (py "dur") = None ->
  srv1_element py_float e = None.
Proof.
  unfold srv1_element. intros [H | H]; rewrite H; [reflexivity|].
  destruct (float_attr py_float e (py "start")); reflexivity.
Qed.

End DecoderFacts.

Lemma vtt_scan_cues (lines : list pystr) :
  forall skip c,
    In c (vtt_scan skip lines) ->
    exists before line rest,
      lines = before ++ line :: rest /\
      contains (py "-->") (strip line) = true /\
      c = vtt_cue_at line rest /\ cue_text c <> [].
Proof.
  induction lines as [|l rest IH]; intros skip c Hin; [destruct Hin|].
  assert (Hlater : forall k, In c (vtt_scan k rest) ->
            exists before line rest',
              l :: rest = before ++ line :: rest' /\
              contains (py "-->") (strip line) = true /\
              c = vtt_cue_at line rest' /\ cue_text c <> []).
  { intros k Hk.
    destruct (IH k c Hk) as [before [line [rest' [-> [H1 [H2 H3]]]]]].
    exists (l :: before), line, rest'. auto. }
  cbn [vtt_scan] in Hin. destruct skip as [|k]; [|exact (Hlater k Hin)].
  cbv zeta in Hin.
  destruct (contains (py "-->") (strip l)) eqn:Harrow;
    [|exact (Hlater _ Hin)].
  destruct (remove_vtt_tags 0 (join (py " ") (cue_lines rest)))
    as [|x text] eqn:Etext; [exact (Hlater _ Hin)|].
  destruct Hin as [<- | Hin]; [|exact (Hlater _ Hin)].
  exists [], l, rest. unfold vtt_cue_at. rewrite Etext.
  repeat split; [exact Harrow | discriminate].
Qed.

(** A timestamp line whose left side cannot be parsed opens a cue that
    starts at 0. *)
Lemma vtt_scan_bad_timestamp (l : pystr) (rest : list pystr) (text : pystr) :
  contains (py "-->") (strip l) = true ->
  vtt_time_parse (hd [] (split (py " --> ") (strip l))) = None ->
  remove_vtt_tags 0 (join (py " ") (cue_lines rest)) = text ->
  text <> [] ->
  vtt_scan 0 (l :: rest)
    = {| cue_text := text; cue_start := inject_Z 0; cue_duration := 0 |}
      :: vtt_scan (S (length (cue_lines rest))) rest.
Proof.
  intros Harrow Hparse Htext Hne. cbn [vtt_scan]. cbv zeta.
  rewrite Harrow, Htext. unfold vtt_time_to_seconds. rewrite Hparse.
  destruct text; [congruence | reflexivity].
Qed.

(** C4, as the specification states it, fails for the cue-text decoder:
    a block whose timestamps are not numbers is decoded, and its cue is
    surfaced with start 0, like the cue of a block that starts at time
    zero. *)
Lemma vtt_malformed_timestamp_surfaces_cue :
  parse_vtt_transcript (vtt_payload [py "xx --> yy"; py "Hi"])
    = Some [ {| cue_text := py "Hi"; cue_start := inject_Z 0;
                cue_duration := 0 |} ] /\
  parse_vtt_transcript
    (vtt_payload [py "00:00:00.000 --> 00:00:02.000"; py "Hi"])
    = parse_vtt_transcript (vtt_payload [py "xx --> yy"; py "Hi"]) /\
  parse_vtt_transcript (vtt_payload [py "xx --> yy"; py "Hi"]) <> None.
Proof.
  repeat split; try (vm_compute; reflexivity). vm_compute. discriminate.
Qed.

(** C4 (amended): in the timed-JSON decoder an event that carries a
    segment list and whose start time is not a number, and in the
    timed-XML decoder a text element whose [start] or [dur] attribute
    [float] rejects, make the decoder report "no cues" for the whole
    payload, with no partial cue list.  The cue-text decoder never
    fails: it decodes every payload, and a block whose left-hand
    timestamp cannot be parsed is surfaced as a cue whose start is 0. *)
Theorem malformed_timestamp_handling :
  forall (json_loads : pystr -> option json)
         (xml_fromstring : pystr -> option element)
         (py_float : pystr -> option Q) (content : pystr),
    (forall data events members,
        json_loads content = Some data ->
        py_get data (py "events") (JArr []) = Some (JArr events) ->
        In (JObj members) events ->
        dict_mem (py "segs") members = true ->
        to_num (get_or (dict_get (py "tStartMs") members) (JNum 0)) = None ->
        parse_json3_transcript json_loads content = None) /\
    (forall root e,
        xml_fromstring content = Some root ->
        In e (findall_text root) ->
        float_attr py_float e (py "start") = None \/
        float_attr py_float e (py "dur") = None ->
        parse_srv1_transcript xml_fromstring py_float content = None) /\
    (exists cues, parse_vtt_transcript content = Some cues) /\
    (forall l rest text,
        contains (py "-->") (strip l) = true ->
        vtt_time_parse (hd [] (split (py " --> ") (strip l))) = None ->
        remove_vtt_tags 0 (join (py " ") (cue_lines rest)) = text ->
        text <> [] ->
        vtt_scan 0 (l :: rest)
          = {| cue_text := text; cue_start := inject_Z 0;
               cue_duration := 0 |}
            :: vtt_scan (S (length (cue_lines rest))) rest).
Proof.
  intros json_loads xml_fromstring py_float content.
  split; [|split; [|split]].
  - intros data events members Hload Hget Hin Hsegs Hnum.
    unfold parse_json3_transcript, json3_transcript.
    rewrite Hload. cbn [bind]. rewrite Hget. cbn [bind py_iter].
    apply (json3_events_error events (JObj members) Hin).
    apply json3_event_bad_start; assumption.
  - intros root e Hparse Hin Hbad.
    unfold parse_srv1_transcript. rewrite Hparse. cbn [bind].
    apply (srv1_elements_error py_float _ e Hin).
    apply srv1_element_bad_number. exact Hbad.
  - eexists. reflexivity.
  - apply vtt_scan_bad_timestamp.
Qed.

Lemma malformed_timestamp_handling_witness :
  let bad := [(py "tStartMs", JStr (py "soon"));
              (py "segs", JArr [JObj [(py "utf8", JStr (py "Hi"))]])] in
  let data := json3_payload [json3_event_at (JNum 0) "Ok"; JObj bad] in
  parse_json3_transcript (fun _ => Some data) [] = None /\
  vtt_scan 0 [py "xx --> yy"; py "Hi"]
    = [ {| cue_text := py "Hi"; cue_start := inject_Z 0;
           cue_duration := 0 |} ].
Proof.
  intros bad data.
  pose proof (malformed_timestamp_handling
                (fun _ => Some data) (fun _ => None) (fun _ => None) [])
    as [Hjson [_ [_ Hvtt]]].
  split.
  - apply (Hjson data [json3_event_at (JNum 0) "Ok"; JObj bad] bad).
    + reflexivity.
    + reflexivity.
    + right. left. reflexivity.
    + reflexivity.
    + reflexivity.
  - apply (Hvtt (py "xx --> yy") [py "Hi"] (py "Hi")).
    + reflexivity.
    + reflexivity.
    + reflexivity.
    + discriminate.
Defined.

(** C7, as the specification states it, fails on the start time: a
    negative start in the payload gives a cue with a negative start, in
    the timed-JSON decoder and in the cue-text decoder alike. *)
Lemma decoded_cue_negative_start :
  (exists c,
      json3_transcript (json3_payload [json3_event_at (JNum (-1000)) "Hi"])
        = Some [c] /\
      (cue_start c < 0)%Q) /\
  (exists c,
      parse_vtt_transcript (vtt_payload [py "-5 --> 0"; py "Hi"]) = Some [c] /\
      (cue_start c < 0)%Q).
Proof.
  split; eexists; (split; [vm_compute; reflexivity | reflexivity]).
Qed.

(** C7 (amended): every cue a decoder returns is the cue of one
    entry of the payload it was given, with no check of the sign of its
    times.  A cue of the timed-JSON decoder comes from an event of the
    payload's [events]: its text is the joined [utf8] segments of that
    event, trimmed and not empty, its start and duration are that
    event's [tStartMs] and [dDurationMs] (0 when the key is missing)
    divided by [1000.0] in float arithmetic.  A cue of the timed-XML
    decoder comes from a [text] element of the document: its text is the
    element's text, trimmed and not empty, its start and duration are
    [float] of the element's [start] and [dur] attributes (0 when
    missing).  A cue of the cue-text decoder comes from a line of the
    payload that holds an arrow: its text is read from the lines that
    follow and is not empty, its start is the whole number of seconds
    [vtt_time_to_seconds] reads left of the arrow, its duration is 0. *)
Theorem decoded_cue_invariants :
  forall (json_loads : pystr -> option json)
         (xml_fromstring : pystr -> option element)
         (py_float : pystr -> option Q)
         (content : pystr) (cues : list cue) (c : cue),
    In c cues ->
    (parse_json3_transcript json_loads content = Some cues ->
     exists data evs events members joined,
       json_loads content = Some data /\
       py_get data (py "events") (JArr []) = Some evs /\
       py_iter evs = Some events /\
       In (JObj members) events /\
       json3_event_text members = Some joined /\
       cue_text c = strip joined /\
       strip (cue_text c) <> [] /\
       json3_member_seconds (py "tStartMs") members = Some (cue_start c) /\
       json3_member_seconds (py "dDurationMs") members
         = Some (cue_duration c)) /\
    (parse_srv1_transcript xml_fromstring py_float content = Some cues ->
     exists root e,
       xml_fromstring content = Some root /\
       In e (findall_text root) /\
       cue_text c = strip (get_or (elem_text e) []) /\
       strip (cue_text c) <> [] /\
       float_attr py_float e (py "start") = Some (cue_start c) /\
       float_attr py_float e (py "dur") = Some (cue_duration c)) /\
    (parse_vtt_transcript content = Some cues ->
     exists before line rest,
       split [10] content = before ++ line :: rest /\
       contains (py "-->") (strip line) = true /\
       c = vtt_cue_at line rest /\
       cue_text c <> [] /\ cue_duration c = 0%Q /\
       exists n : Z, cue_start c = inject_Z n).
Proof.
  intros json_loads xml_fromstring py_float content cues c Hin.
  split; [|split].
  - unfold parse_json3_transcript, json3_transcript. intros H.
    destruct (json_loads content) as [data|]; [|discriminate H].
    cbn [bind] in H.
    destruct (py_get data (py "events") (JArr [])) as [evs|] eqn:Eevs;
      [|discriminate H].
    cbn [bind] in H.
    destruct (py_iter evs) as [events|] eqn:Eiter; [|discriminate H].
    cbn [bind] in H.
    destruct (json3_events_cues events cues c H Hin) as [event [Hev He]].
    destruct (json3_event_cue event c He)
      as [members [joined [-> [H1 [H2 [H3 [H4 H5]]]]]]].
    exists data, evs, events, members, joined.
    repeat split; try assumption; try reflexivity.
    rewrite H2. unfold strip. rewrite strip_by_idempotent. exact H3.
  - unfold parse_srv1_transcript. intros H.
    destruct (xml_fromstring content) as [root|]; [|discriminate H].
    cbn [bind] in H.
    destruct (srv1_elements_cues py_float _ cues c H Hin) as [e [Hel He]].
    destruct (srv1_element_cue py_float e c He) as [H1 [H2 [H3 H4]]].
    exists root, e. repeat split; assumption || reflexivity.
  - unfold parse_vtt_transcript. intros H. injection H as <-.
    destruct (vtt_scan_cues _ 0%nat c Hin)
      as [before [line [rest [H1 [H2 [H3 H4]]]]]].
    exists before, line, rest.
    repeat split; try assumption; rewrite H3; [reflexivity|].
    eexists. reflexivity.
Qed.

Lemma decoded_cue_invariants_witness :
  let data := json3_payload [json3_event_at (JNum 1500) "Hello world."] in
  let c := {| cue_text := py "Hello world."; cue_start := (3 # 2)%Q;
              cue_duration := 0%Q |} in
  parse_json3_transcript (fun _ => Some data) [] = Some [c] /\
  exists data' evs events members joined,
    Some data = Some data' /\
    py_get data' (py "events") (JArr []) = Some evs /\
    py_iter evs = Some events /\
    In (JObj members) events /\
    json3_event_text members = Some joined /\
    cue_text c = strip joined /\
    strip (cue_text c) <> [] /\
    json3_member_seconds (py "tStartMs") members = Some (cue_start c) /\
    json3_member_seconds (py "dDurationMs") members = Some (cue_duration c).
Proof.
  intros data c.
  assert (Hin : In c [c]) by (left; reflexivity).
  assert (Hrun : parse_json3_transcript (fun _ => Some data) [] = Some [c])
    by (vm_compute; reflexivity).
  split; [exact Hrun|].
  exact (proj1 (decoded_cue_invariants
                  (fun _ => Some data) (fun _ => None)
                  (fun _ => None) [] [c] c Hin) Hrun).
Defined.

(** The cue-text decoder tests the text for emptiness before any
    trimming: a block whose text is made of tags around a space gives a
    cue whose text is one space. *)
Example vtt_cue_of_blank_text :
  parse_vtt_transcript (vtt_payload [py "00:01 --> 00:02"; py "<b> </b>"])
    = Some [ {| cue_text := py " "; cue_start := inject_Z 1;
                cue_duration := 0 |} ].
Proof. vm_compute. reflexivity. Qed.

(** The fixtures of the specification. *)
Example decoder_fixtures :
  json3_transcript
    (json3_payload
       [JObj [(py "tStartMs", JNum 1000);
              (py "segs", JArr [JObj [(py "utf8", JStr (py "Hello "))];
                                JObj [(py "utf8", JStr (py "world."))]])]])
    = Some [ {| cue_text := py "Hello world.";
                cue_start := 1%Q;
                cue_duration := 0%Q |} ] /\
  parse_vtt_transcript
    (vtt_payload [py "00:00:01.000 --> 00:00:03.000"; py "<b>Hi</b>"])
    = Some [ {| cue_text := py "Hi"; cue_start := inject_Z 1;
                cue_duration := 0 |} ] /\
  parse_srv1_transcript
    (fun _ => Some (Element (py "transcript") [] None
                      [Element (py "text")
                         [(py "start", py "2.5"); (py "dur", py "1.0")]
                         (Some (py "Hi")) []]))
    (fun s => if str_eqb s (py "2.5") then Some (5 # 2)%Q
              else if str_eqb s (py "1.0") then Some 1%Q else None)
    []
    = Some [ {| cue_text := py "Hi"; cue_start := (5 # 2)%Q;
                cue_duration := 1%Q |} ].
Proof. repeat split; vm_compute; reflexivity. Qed.

(** ** Paragraph building and rendering *)

Lemma ends_sentence_spec (text : pystr) :
  ends_sentence text = true <->
  exists pre c, text = pre ++ [c] /\ In c sentence_end_chars.
Proof.
  unfold ends_sentence. rewrite existsb_exists. split.
  - intros [suffix [Hin H]]. unfold ends_with in H.
    assert (Hone : exists k, suffix = [k] /\ In k sentence_end_chars).
    { simpl in Hin.
      repeat (destruct Hin as [<- | Hin];
              [eexists; split; [reflexivity | vm_compute; tauto]|]).
      destruct Hin. }
    destruct Hone as [k [-> Hk]]. cbn [rev app] in H.
    destruct (rev text) as [|y r] eqn:E; [discriminate H|].
    cbn [starts_with] in H. rewrite andb_true_r in H.
    apply N.eqb_eq in H. subst y.
    exists (rev r), k. split; [|exact Hk].
    rewrite <- (rev_involutive text), E. reflexivity.
  - intros [pre [c [-> Hc]]]. exists [c]. split.
    + simpl in Hc.
      repeat (destruct Hc as [<- | Hc]; [vm_compute; tauto|]).
      destruct Hc.
    + unfold ends_with. rewrite rev_app_distr. cbn [rev app starts_with].
      rewrite N.eqb_refl. reflexivity.
Qed.

Lemma add_entry_closing ts jp b entry text :
  entry_text jp entry = Some text ->
  closes_paragraph text (current_paragraph b ++ text ++ py " ") = true ->
  add_entry ts jp b entry
    = {| markdown :=
           markdown b ++
           paragraph_block ts (anchor_of b entry)
             (final_text jp (current_paragraph b ++ text ++ py " "));
         current_paragraph := [];
         current_start_time := None |}.
Proof.
  intros Ht Hc. unfold add_entry. rewrite Ht. cbv zeta. rewrite Hc.
  reflexivity.
Qed.

Lemma add_entry_growing ts jp b entry text :
  entry_text jp entry = Some text ->
  closes_paragraph text (current_paragraph b ++ text ++ py " ") = false ->
  add_entry ts jp b entry
    = {| markdown := markdown b;
         current_paragraph := current_paragraph b ++ text ++ py " ";
         current_start_time := anchor_of b entry |}.
Proof.
  intros Ht Hc. unfold add_entry. rewrite Ht. cbv zeta. rewrite Hc.
  reflexivity.
Qed.

Lemma closes_paragraph_spec (text paragraph : pystr) :
  closes_paragraph text paragraph = true <->
  (exists pre c, text = pre ++ [c] /\ In c sentence_end_chars) \/
  (500 < length paragraph)%nat.
Proof.
  unfold closes_paragraph. rewrite orb_true_iff, ends_sentence_spec.
  rewrite Nat.ltb_lt. reflexivity.
Qed.

(** C2: an entry that is not passed over closes the paragraph exactly
    when its cleaned text ends with '.', '!', '?', '。', '！' or '？', or
    the paragraph with this text and its separating space is longer than
    500 characters.  Closing emits the paragraph under its start time
    and resets the accumulator and the start time; otherwise the text
    and a space are appended and the document is unchanged.  For content
    that is not Japanese, the cues "Hello ", "world. " and
    "Next sentence." give exactly the two paragraphs "Hello world." and
    "Next sentence.". *)
Theorem paragraph_closing_rule :
  forall (include_timestamps is_japanese : bool) (b : builder)
         (entry : cue) (text title_text : pystr) (s1 s2 s3 : Q),
    entry_text is_japanese entry = Some text ->
    str_eqb (detect_video_language title_text []) (py "ja") = false ->
    let paragraph := current_paragraph b ++ text ++ py " " in
    let b' := add_entry include_timestamps is_japanese b entry in
    (((exists pre c, text = pre ++ [c] /\ In c sentence_end_chars) \/
      (500 < length paragraph)%nat) <->
     current_paragraph b' = []) /\
    (current_paragraph b' = [] ->
     current_start_time b' = None /\
     markdown b' =
       markdown b ++
       paragraph_block include_timestamps (anchor_of b entry)
         (final_text is_japanese paragraph)) /\
    (current_paragraph b' <> [] ->
     current_paragraph b' = paragraph /\
     current_start_time b' = anchor_of b entry /\
     markdown b' = markdown b) /\
    transcript_to_markdown
      [fixture_cue "Hello " s1; fixture_cue "world. " s2;
       fixture_cue "Next sentence." s3]
      (fixture_info title_text) include_timestamps
    = (header title_text (py "x") ++
       paragraph_block include_timestamps (Some s1) (py "Hello world.")) ++
      paragraph_block include_timestamps (Some s3) (py "Next sentence.").
Proof.
  intros ts jp b entry text title_text s1 s2 s3 Ht Hlang paragraph b'.
  assert (Hfix :
    transcript_to_markdown
      [fixture_cue "Hello " s1; fixture_cue "world. " s2;
       fixture_cue "Next sentence." s3]
      (fixture_info title_text) ts
    = (header title_text (py "x") ++
       paragraph_block ts (Some s1) (py "Hello world.")) ++
      paragraph_block ts (Some s3) (py "Next sentence.")).
  { unfold transcript_to_markdown, fixture_info. cbn [title id get_or].
    rewrite Hlang. destruct ts; reflexivity. }
  assert (Hne : paragraph <> []).
  { unfold paragraph. intros E. apply app_eq_nil in E. destruct E as [_ E].
    apply app_eq_nil in E. destruct E as [_ E]. discriminate E. }
  rewrite <- closes_paragraph_spec. fold paragraph.
  destruct (closes_paragraph text paragraph) eqn:Hc; subst b'.
  - rewrite (add_entry_closing ts jp b entry text Ht Hc).
    cbn [current_paragraph current_start_time markdown].
    split; [tauto|]. split; [auto|]. split; [congruence | exact Hfix].
  - rewrite (add_entry_growing ts jp b entry text Ht Hc).
    cbn [current_paragraph current_start_time markdown].
    fold paragraph.
    split; [split; intros H; [discriminate H | congruence]|].
    split; [congruence|]. split; [auto | exact Hfix].
Qed.

Lemma paragraph_closing_rule_witness :
  let b := {| markdown := []; current_paragraph := py "Hello ";
              current_start_time := Some 0%Q |} in
  entry_text false (fixture_cue "world. " 1) = Some (py "world.") /\
  str_eqb (detect_video_language (py "T") []) (py "ja") = false /\
  current_paragraph (add_entry true false b (fixture_cue "world. " 1)) = [] /\
  transcript_to_markdown
    [fixture_cue "Hello " 0; fixture_cue "world. " 1;
     fixture_cue "Next sentence." 2]
    (fixture_info (py "T")) true
  = (header (py "T") (py "x") ++
     py "**[0:00:00]** Hello world." ++ nl ++ nl) ++
    py "**[0:00:02]** Next sentence." ++ nl ++ nl.
Proof.
  intros b.
  pose proof (paragraph_closing_rule true false b (fixture_cue "world. " 1)
                (py "world.") (py "T") 0 1 2 eq_refl eq_refl)
    as [Hiff [_ [_ Hfix]]].
  split; [reflexivity|]. split; [reflexivity|]. split.
  - apply Hiff. left. exists (py "world"), 46. split; [reflexivity|].
    left. reflexivity.
  - exact Hfix.
Defined.

Lemma fold_add_entry_skipped ts jp (transcript : list cue) :
  forall b,
    (forall e, In e transcript -> entry_text jp e = None) ->
    fold_left (add_entry ts jp) transcript b = b.
Proof.
  induction transcript as [|e transcript IH]; intros b H; [reflexivity|].
  cbn [fold_left]. unfold add_entry at 2.
  rewrite (H e (or_introl eq_refl)).
  apply IH. intros e' He'. apply H. right. exact He'.
Qed.

Lemma flush_cases ts jp (b : builder) :
  flush ts jp b = markdown b \/
  exists text,
    text <> [] /\ text = final_text jp (current_paragraph b) /\
    flush ts jp b
      = markdown b ++ paragraph_block ts (current_start_time b) text.
Proof.
  unfold flush.
  destruct (strip (current_paragraph b)); [left; reflexivity|].
  destruct (final_text jp (current_paragraph b)) as [|x text] eqn:E;
    [left; reflexivity|].
  right. exists (x :: text). split; [discriminate|]. split; reflexivity.
Qed.

Lemma entry_text_plain (entry : cue) (text : pystr) :
  entry_text false entry = Some text ->
  text <> [] /\ strip text = text.
Proof.
  unfold entry_text.
  destruct (strip (cue_text entry)) as [|x t] eqn:E; [discriminate|].
  intros H. injection H as <-. split; [discriminate|].
  rewrite <- E. unfold strip. apply strip_by_idempotent.
Qed.

Lemma final_text_plain_nonempty (b : builder) (entry : cue) (text : pystr) :
  entry_text false entry = Some text ->
  final_text false (current_paragraph b ++ text ++ py " ") <> [].
Proof.
  intros Ht. destruct (entry_text_plain entry text Ht) as [Hne Hfix].
  unfold final_text. intros E. unfold strip in E.
  apply strip_by_nil in E. rewrite !forallb_app in E.
  apply andb_true_iff in E. destruct E as [_ E].
  apply andb_true_iff in E. destruct E as [E _].
  apply strip_by_all in E. fold (strip text) in E. congruence.
Qed.

(** C9, as the specification states it, fails when cues are given but
    none survives: the document is the header alone, without the
    marker.  That is so for content that is not Japanese, on a cue of
    white space, and for Japanese content (title "の"), on a cue that
    is a music tag. *)
Lemma no_marker_when_every_cue_is_skipped :
  transcript_to_markdown [fixture_cue " " 0] (fixture_info (py "T")) true
    = header (py "T") (py "x") /\
  contains no_transcript_marker
    (transcript_to_markdown [fixture_cue " " 0] (fixture_info (py "T")) true)
    = false /\
  let music := {| cue_text := [91; 38899; 27005; 93]; cue_start := 0;
                  cue_duration := 0 |} in
  transcript_to_markdown [music] (fixture_info [12398]) true
    = header [12398] (py "x") /\
  contains no_transcript_marker
    (transcript_to_markdown [music] (fixture_info [12398]) true)
    = false.
Proof. repeat split; vm_compute; reflexivity. Qed.

(** C9 (amended): on an empty cue sequence the document is the header
    followed by the single line "no transcript available".  When cues
    are given and every one of them is passed over (its text is empty
    after trimming, or after cleanup), no paragraph is emitted and the
    document is the header alone, without that line.  The final flush
    never emits a paragraph whose text is empty after cleanup, and for
    content that is not Japanese no paragraph closed inside the loop is
    empty. *)
Theorem empty_transcript_rendering :
  forall (transcript : list cue) (info : video_info)
         (include_timestamps is_japanese : bool) (b : builder)
         (entry : cue) (text : pystr),
    let title_text := get_or (title info) (py "Unknown Title") in
    let video_id := get_or (id info) (py "Unknown ID") in
    transcript_to_markdown [] info include_timestamps
      = header title_text video_id ++ no_transcript_marker /\
    (transcript <> [] ->
     (forall e, In e transcript ->
        entry_text
          (str_eqb (detect_video_language title_text []) (py "ja")) e
        = None) ->
     transcript_to_markdown transcript info include_timestamps
       = header title_text video_id) /\
    (flush include_timestamps is_japanese b = markdown b \/
     exists paragraph,
       paragraph <> [] /\
       paragraph = final_text is_japanese (current_paragraph b) /\
       flush include_timestamps is_japanese b
         = markdown b ++
           paragraph_block include_timestamps (current_start_time b)
             paragraph) /\
    (entry_text false entry = Some text ->
     final_text false (current_paragraph b ++ text ++ py " ") <> []).
Proof.
  intros transcript info ts jp b entry text title_text video_id.
  split; [reflexivity|]. split; [|split].
  - intros Hne Hskip. unfold transcript_to_markdown.
    destruct transcript as [|e transcript]; [congruence|].
    fold title_text. fold video_id.
    rewrite fold_add_entry_skipped by exact Hskip.
    reflexivity.
  - apply flush_cases.
  - apply final_text_plain_nonempty.
Qed.

Lemma empty_transcript_rendering_witness :
  let blank := fixture_cue "  " 0 in
  [blank] <> [] /\
  (forall e, In e [blank] -> entry_text false e = None) /\
  transcript_to_markdown [blank] (fixture_info (py "T")) false
    = header (py "T") (py "x").
Proof.
  intros blank.
  assert (Hne : [blank] <> []) by discriminate.
  assert (Hskip : forall e, In e [blank] -> entry_text false e = None).
  { intros e [<- | []]. reflexivity. }
  split; [exact Hne|]. split; [exact Hskip|].
  exact (proj1 (proj2 (empty_transcript_rendering
                         [blank] (fixture_info (py "T")) false false
                         {| markdown := []; current_paragraph := [];
                            current_start_time := None |}
                         blank [])) Hne Hskip).
Defined.

(** A paragraph closed by its length is emitted without the test the
    final flush makes: for Japanese content, a cue made of 125 copies of
    "[音♪楽]" is cleaned to 125 copies of "[音楽]", 500 characters that
    the final cleanup removes altogether, and a paragraph with an empty
    text is emitted. *)
Example length_closed_paragraph_may_be_empty :
  let text := concat (repeat [91; 38899; 9834; 27005; 93] 125) in
  let entry := {| cue_text := text; cue_start := 0; cue_duration := 0 |} in
  transcript_to_markdown [entry] (fixture_info [12398]) false
    = header [12398] (py "x") ++ [] ++ nl ++ nl.
Proof. vm_compute. reflexivity. Qed.

(** * Further properties *)

(** ** Timestamps *)

Lemma below_60 (n : N) :
  n < 60 -> In n (map N.of_nat (seq 0 60)).
Proof.
  intros H. rewrite <- (N2Nat.id n). apply in_map. apply in_seq. lia.
Qed.

(** The numbers below 60, printed with or without padding, are runs of
    digits that denote them. *)
Lemma small_number_digits (n : N) :
  n < 60 ->
  decimal_literal (str_of_N n) = true /\
  decimal_value (str_of_N n) = Z.of_N n /\
  decimal_literal (pad2 n) = true /\
  decimal_value (pad2 n) = Z.of_N n.
Proof.
  intros H.
  assert (Hall : forallb
            (fun k => decimal_literal (str_of_N k) &&
                      (decimal_value (str_of_N k) =? Z.of_N k)%Z &&
                      decimal_literal (pad2 k) &&
                      (decimal_value (pad2 k) =? Z.of_N k)%Z)
            (map N.of_nat (seq 0 60)) = true) by (vm_compute; reflexivity).
  rewrite forallb_forall in Hall. specialize (Hall n (below_60 n H)).
  repeat (apply andb_true_iff in Hall; destruct Hall as [Hall ?]).
  repeat split; try assumption; apply Z.eqb_eq; assumption.
Qed.

Lemma timedelta_within_a_day (n : Z) :
  (0 <= n < 86400)%Z ->
  str_of_timedelta n
    = hms (Z.to_N n / 3600) ((Z.to_N n / 60) mod 60) (Z.to_N n mod 60).
Proof.
  intros H. unfold str_of_timedelta.
  rewrite (Z.div_small n 86400 H), (Z.mod_small n 86400 H). reflexivity.
Qed.

Lemma hms_fields (h m s : N) :
  h < 24 -> m < 60 -> s < 60 ->
  let n := 3600 * h + 60 * m + s in
  n / 3600 = h /\ (n / 60) mod 60 = m /\ n mod 60 = s.
Proof.
  intros Hh Hm Hs n. subst n.
  assert (E1 : (3600 * h + 60 * m + s) / 3600 = h).
  { symmetry. apply (N.div_unique _ 3600 h (60 * m + s)); lia. }
  assert (E2 : (3600 * h + 60 * m + s) / 60 = 60 * h + m).
  { symmetry. apply (N.div_unique _ 60 (60 * h + m) s); lia. }
  assert (E3 : (60 * h + m) mod 60 = m).
  { symmetry. apply (N.mod_unique _ 60 h m); lia. }
  assert (E4 : (3600 * h + 60 * m + s) mod 60 = s).
  { symmetry. apply (N.mod_unique _ 60 (60 * h + m) s); lia. }
  rewrite E1, E2, E3, E4. auto.
Qed.

(** X1: below 24 hours [format_timestamp] prints hours, minutes and
    seconds as [H:MM:SS], the hours without padding, the minutes and
    seconds on two digits; a fractional part of the seconds is dropped. *)
Theorem format_timestamp_hms :
  forall (seconds : Q) (h m s : N),
    h < 24 -> m < 60 -> s < 60 ->
    int_of_float seconds = Z.of_N (3600 * h + 60 * m + s) ->
    format_timestamp seconds
      = str_of_N h ++ py ":" ++ pad2 m ++ py ":" ++ pad2 s.
Proof.
  intros seconds h m s Hh Hm Hs Hint. unfold format_timestamp.
  rewrite Hint, timedelta_within_a_day by lia.
  rewrite N2Z.id.
  destruct (hms_fields h m s Hh Hm Hs) as [E1 [E2 E3]].
  rewrite E1, E2, E3. reflexivity.
Qed.

Lemma format_timestamp_hms_witness :
  format_timestamp (7447 # 2) = py "1:02:03".
Proof.
  apply (format_timestamp_hms (7447 # 2) 1 2 3); reflexivity.
Defined.

(** X2: a time below 24 hours that [format_timestamp] printed is read
    back by [vtt_time_to_seconds] as the same whole number of seconds. *)
Theorem timestamp_round_trip :
  forall seconds : Q,
    (0 <= int_of_float seconds < 86400)%Z ->
    vtt_time_to_seconds (format_timestamp seconds) = int_of_float seconds.
Proof.
  intros seconds H. unfold format_timestamp.
  set (n := int_of_float seconds) in *.
  rewrite timedelta_within_a_day by exact H. unfold hms.
  set (k := Z.to_N n).
  assert (Hk : k < 86400) by (subst k; lia).
  assert (Hh : k / 3600 < 60).
  { apply N.Div0.div_lt_upper_bound. lia. }
  assert (Hm : (k / 60) mod 60 < 60) by (apply N.mod_lt; lia).
  assert (Hs : k mod 60 < 60) by (apply N.mod_lt; lia).
  destruct (small_number_digits _ Hh) as [Lh [Vh _]].
  destruct (small_number_digits _ Hm) as [_ [_ [Lm Vm]]].
  destruct (small_number_digits _ Hs) as [_ [_ [Ls Vs]]].
  unfold vtt_time_to_seconds.
  replace (str_of_N (k / 3600) ++ py ":" ++ pad2 ((k / 60) mod 60) ++
           py ":" ++ pad2 (k mod 60))
    with (str_of_N (k / 3600) ++ py ":" ++ pad2 ((k / 60) mod 60) ++
          py ":" ++ pad2 (k mod 60) ++ [])
    by (rewrite app_nil_r; reflexivity).
  rewrite (vtt_time_hms _ _ _ [] Lh Lm Ls (or_introl eq_refl)).
  rewrite Vh, Vm, Vs.
  assert (Ek : Z.of_N k = n) by (subst k; lia).
  rewrite <- Ek.
  assert (E3600 : k / 3600 = k / 60 / 60)
    by (rewrite N.Div0.div_div; reflexivity).
  pose proof (N.Div0.div_mod (k / 60) 60) as E60.
  rewrite <- E3600 in E60.
  assert (Ediv : k = 60 * (k / 60) + k mod 60) by apply N.Div0.div_mod.
  lia.
Qed.

Lemma timestamp_round_trip_witness :
  vtt_time_to_seconds (format_timestamp (7447 # 2)) = 3723%Z.
Proof.
  apply (timestamp_round_trip (7447 # 2)). vm_compute.
  split; [discriminate | reflexivity].
Defined.

(** X3: from 24 hours on, and up to the 999999999 days [timedelta]
    accepts, the result is no longer [H:MM:SS]: the number of whole days
    comes first, as "1 day, " or "N days, ", followed by the time of
    day.  Beyond that number of days the call raises. *)
Theorem format_timestamp_days :
  forall (seconds : Q) (days rest : Z),
    (0 <= rest < 86400)%Z ->
    int_of_float seconds = (86400 * days + rest)%Z ->
    ((1 <= days <= timedelta_max_days)%Z ->
     format_timestamp_result seconds = Some (format_timestamp seconds) /\
     format_timestamp seconds
       = str_of_Z days ++ py " day" ++
         (if (days =? 1)%Z then [] else py "s") ++ py ", " ++
         format_timestamp (inject_Z rest)) /\
    ((timedelta_max_days < days)%Z ->
     format_timestamp_result seconds = None).
Proof.
  intros seconds days rest Hr Hint.
  assert (E1 : ((86400 * days + rest) / 86400 = days)%Z).
  { symmetry. apply (Z.div_unique_pos _ 86400 days rest); lia. }
  assert (E2 : ((86400 * days + rest) mod 86400 = rest)%Z).
  { symmetry. apply (Z.mod_unique_pos _ 86400 days rest); lia. }
  unfold format_timestamp_result, format_timestamp. cbv zeta.
  rewrite Hint, E1. split.
  - intros Hd.
    assert (E0 : (Z.abs days <=? timedelta_max_days)%Z = true)
      by (apply Z.leb_le; lia).
    rewrite E0. split; [reflexivity|].
    assert (Hrest : int_of_float (inject_Z rest) = rest).
    { unfold int_of_float, inject_Z. simpl. apply Z.quot_1_r. }
    rewrite Hrest. unfold str_of_timedelta at 1. rewrite E1, E2.
    assert (E3 : (days =? 0)%Z = false) by (apply Z.eqb_neq; lia).
    assert (E4 : (Z.abs days =? 1)%Z = (days =? 1)%Z)
      by (rewrite Z.abs_eq by lia; reflexivity).
    rewrite E3, E4.
    rewrite (timedelta_within_a_day rest Hr). reflexivity.
  - intros Hd.
    assert (E0 : (Z.abs days <=? timedelta_max_days)%Z = false)
      by (apply Z.leb_gt; unfold timedelta_max_days in *; lia).
    rewrite E0. reflexivity.
Qed.

Lemma format_timestamp_days_witness :
  format_timestamp (inject_Z 90061) = py "1 day, 1:01:01" /\
  format_timestamp_result (inject_Z 90061) = Some (py "1 day, 1:01:01") /\
  format_timestamp_result (inject_Z 86400000000000) = None.
Proof.
  destruct (format_timestamp_days (inject_Z 90061) 1 3661
              ltac:(lia) eq_refl) as [Hin _].
  destruct (Hin ltac:(unfold timedelta_max_days; lia)) as [H1 H2].
  split; [exact H2|]. split; [rewrite H1, H2; reflexivity|].
  apply (proj2 (format_timestamp_days (inject_Z 86400000000000)
                  1000000000 0 ltac:(lia) eq_refl)).
  unfold timedelta_max_days. lia.
Defined.

(** ** Language detection *)

Lemma starts_with_first (x : N) (ind s : pystr) :
  starts_with (x :: ind) s = true -> In x s.
Proof.
  destruct s as [|y s]; simpl; [discriminate|].
  intros H. apply andb_true_iff in H. destruct H as [H _].
  apply N.eqb_eq in H. left. congruence.
Qed.

Lemma contains_first (x : N) (ind s : pystr) :
  contains (x :: ind) s = true -> In x s.
Proof.
  induction s as [|y s IH]; intros H.
  - simpl in H. discriminate.
  - cbn [contains] in H. apply orb_true_iff in H. destruct H as [H | H].
    + apply (starts_with_first x ind). exact H.
    + right. apply IH. exact H.
Qed.

(** Lower-casing does not touch the hiragana and maps nothing to them. *)
Lemma lower_char_hiragana (x y : N) :
  hiragana x = true -> (x =? lower_char y) = (x =? y).
Proof.
  unfold hiragana, lower_char. intros H.
  apply andb_true_iff in H. destruct H as [H1 H2].
  apply N.leb_le in H1, H2.
  destruct ((65 <=? y) && (y <=? 90)) eqn:E; [|reflexivity].
  apply andb_true_iff in E. destruct E as [E1 E2].
  apply N.leb_le in E1, E2.
  transitivity false; [|symmetry]; apply N.eqb_neq; lia.
Qed.

Lemma starts_with_lower (ind s : pystr) :
  forallb hiragana ind = true ->
  starts_with ind (lower s) = starts_with ind s.
Proof.
  revert s. induction ind as [|x ind IH]; intros s H; [reflexivity|].
  simpl in H. apply andb_true_iff in H. destruct H as [Hx Hind].
  destruct s as [|y s]; [reflexivity|].
  cbn [lower map starts_with]. fold (lower s).
  rewrite (lower_char_hiragana x y Hx), (IH s Hind). reflexivity.
Qed.

Lemma contains_lower (ind s : pystr) :
  forallb hiragana ind = true ->
  contains ind (lower s) = contains ind s.
Proof.
  intros H. induction s as [|y s IH].
  - reflexivity.
  - change (lower (y :: s)) with (lower_char y :: lower s).
    cbn [contains].
    change (lower_char y :: lower s) with (lower (y :: s)).
    rewrite (starts_with_lower ind (y :: s) H), IH. reflexivity.
Qed.

(** A token without a space does not match across a space. *)
Lemma starts_with_before_space (ind a b : pystr) :
  forallb (fun c => negb (c =? 32)) ind = true ->
  starts_with ind (a ++ 32 :: b) = starts_with ind a.
Proof.
  revert a. induction ind as [|x ind IH]; intros a H; [reflexivity|].
  simpl in H. apply andb_true_iff in H. destruct H as [Hx Hind].
  apply negb_true_iff in Hx.
  destruct a as [|y a]; cbn [app starts_with].
  - rewrite Hx. reflexivity.
  - rewrite (IH a Hind). reflexivity.
Qed.

Lemma contains_around_space (ind a b : pystr) :
  ind <> [] ->
  forallb (fun c => negb (c =? 32)) ind = true ->
  contains ind (a ++ 32 :: b) = contains ind a || contains ind b.
Proof.
  intros Hne H. induction a as [|y a IH].
  - cbn [app]. destruct ind as [|x ind]; [congruence|].
    cbn [contains starts_with].
    simpl in H. apply andb_true_iff in H. destruct H as [Hx _].
    apply negb_true_iff in Hx. rewrite Hx. reflexivity.
  - change ((y :: a) ++ 32 :: b) with (y :: (a ++ 32 :: b)).
    cbn [contains].
    change (y :: (a ++ 32 :: b)) with ((y :: a) ++ 32 :: b).
    rewrite (starts_with_before_space ind (y :: a) b H), IH.
    rewrite orb_assoc. reflexivity.
Qed.

Lemma indicators_plain (ind : pystr) :
  In ind japanese_indicators -> plain_indicator ind.
Proof.
  intros H. simpl in H.
  repeat (destruct H as [<- | H];
          [split; [discriminate | split; vm_compute; reflexivity]|]).
  destruct H.
Qed.

Lemma existsb_contains_text (inds : list pystr) (title description : pystr) :
  (forall ind, In ind inds -> plain_indicator ind) ->
  existsb (fun ind => contains ind (lower (title ++ py " " ++ description)))
          inds
  = existsb (fun ind => contains ind title || contains ind description)
            inds.
Proof.
  induction inds as [|ind inds IH]; intros Hin; [reflexivity|].
  cbn [existsb].
  rewrite IH by (intros i Hi; apply Hin; right; exact Hi).
  destruct (Hin ind (or_introl eq_refl)) as [Hne [Hh Hs]].
  rewrite (contains_lower _ _ Hh).
  change (title ++ py " " ++ description) with (title ++ 32 :: description).
  rewrite (contains_around_space _ _ _ Hne Hs). reflexivity.
Qed.

Lemma existsb_contains_split (inds : list pystr) (title description : pystr) :
  (forall ind, In ind inds -> plain_indicator ind) ->
  existsb (fun ind => contains ind title || contains ind description) inds
  = existsb (fun ind => contains ind title || contains ind []) inds ||
    existsb (fun ind => contains ind [] || contains ind description) inds.
Proof.
  induction inds as [|ind inds IH]; intros Hin; [reflexivity|].
  cbn [existsb].
  rewrite IH by (intros i Hi; apply Hin; right; exact Hi).
  destruct (Hin ind (or_introl eq_refl)) as [Hne _].
  assert (En : contains ind [] = false).
  { destruct ind; [congruence | reflexivity]. }
  rewrite En, orb_false_r. cbn [orb].
  destruct (contains ind title), (contains ind description),
    (existsb (fun i => contains i title || contains i []) inds),
    (existsb (fun i => contains i [] || contains i description) inds);
    reflexivity.
Qed.

(** The test of [detect_video_language], on the text as it stands. *)
Lemma detect_japanese_iff (title description : pystr) :
  str_eqb (detect_video_language title description) (py "ja")
  = existsb (fun ind => contains ind title || contains ind description)
            japanese_indicators.
Proof.
  unfold detect_video_language.
  rewrite (existsb_contains_text _ _ _ indicators_plain).
  destruct (existsb _ japanese_indicators); reflexivity.
Qed.

(** X4: a title and a description with no hiragana are detected as
    English, whatever else they contain: text written in katakana or in
    kanji alone is not recognised as Japanese. *)
Theorem detect_without_hiragana :
  forall title description : pystr,
    forallb (fun c => negb (hiragana c)) title = true ->
    forallb (fun c => negb (hiragana c)) description = true ->
    detect_video_language title description = py "en".
Proof.
  intros title description Ht Hd.
  assert (E : str_eqb (detect_video_language title description) (py "ja")
              = false).
  { rewrite detect_japanese_iff.
    destruct (existsb _ japanese_indicators) eqn:Ex; [|reflexivity].
    apply existsb_exists in Ex. destruct Ex as [ind [Hin Hc]].
    destruct (indicators_plain ind Hin) as [Hne [Hh _]].
    destruct ind as [|x ind]; [congruence|].
    simpl in Hh. apply andb_true_iff in Hh. destruct Hh as [Hx _].
    rewrite forallb_forall in Ht, Hd.
    apply orb_true_iff in Hc.
    destruct Hc as [Hc | Hc]; apply contains_first in Hc;
      [apply Ht in Hc | apply Hd in Hc];
      rewrite Hx in Hc; discriminate. }
  unfold detect_video_language in *.
  destruct (existsb _ japanese_indicators); [discriminate E | reflexivity].
Qed.

Lemma detect_without_hiragana_witness :
  detect_video_language [26481; 20140; 12479; 12527; 12540] (py "Tokyo")
  = py "en".
Proof.
  apply detect_without_hiragana; reflexivity.
Defined.

(** X5: the description is joined to the title with a space, and no
    indicator matches across it: title and description together are
    detected as Japanese exactly when one of them alone is.  So content
    that the renderer, which looks at the title alone, treats as
    Japanese is Japanese for the selector too. *)
Theorem detect_title_or_description :
  forall title description : pystr,
    str_eqb (detect_video_language title description) (py "ja")
    = str_eqb (detect_video_language title []) (py "ja") ||
      str_eqb (detect_video_language [] description) (py "ja").
Proof.
  intros title description. rewrite !detect_japanese_iff.
  apply existsb_contains_split. exact indicators_plain.
Qed.

(** ** Caption track selection: what is returned *)

Lemma dict_get_head {V : Type} (k : pystr) (v : V) (d : dict V) :
  dict_get k ((k, v) :: d) = Some v.
Proof. simpl. rewrite str_eqb_refl. reflexivity. Qed.

Lemma first_preferred_stored langs tracks lang_code data :
  first_preferred langs tracks = Some (lang_code, data) ->
  dict_get lang_code tracks = Some data.
Proof.
  induction langs as [|l langs IH]; simpl; [discriminate|].
  destruct (dict_get l tracks) as [d|] eqn:E; [|exact IH].
  intros H. injection H as <- <-. exact E.
Qed.

Lemma first_preferred_nil langs :
  first_preferred langs [] = None.
Proof. induction langs; simpl; auto. Qed.

(** Whatever [transcript_data] holds when the selection is over is
    stored in one of the two mappings. *)
Lemma choose_transcript_stored detected manual automatic data :
  transcript_data (choose_transcript detected manual automatic) = Some data ->
  exists lang_code,
    dict_get lang_code manual = Some data \/
    dict_get lang_code automatic = Some data.
Proof.
  unfold choose_transcript.
  rewrite !walk_languages_first_preferred.
  set (langs := preferred_languages detected).
  set (init := {| transcript_data := None; transcript_type := None |}).
  set (s1 := match first_preferred langs manual with
             | Some (l, d) => selected (py "Manual") l d
             | None => init
             end).
  assert (H1 : forall d, transcript_data s1 = Some d ->
                         exists l, dict_get l manual = Some d).
  { subst s1. intros d.
    destruct (first_preferred langs manual) as [[l d']|] eqn:E.
    - cbn [selected transcript_data]. intros H. injection H as <-.
      exists l. apply (first_preferred_stored _ _ _ _ E).
    - discriminate. }
  set (s2 := if negb (truthy (transcript_data s1))
             then match first_preferred langs automatic with
                  | Some (l, d) => selected (py "Auto-generated") l d
                  | None => s1
                  end
             else s1).
  assert (H2 : forall d, transcript_data s2 = Some d ->
                         exists l, dict_get l manual = Some d \/
                                   dict_get l automatic = Some d).
  { subst s2. intros d.
    destruct (negb (truthy (transcript_data s1))).
    - destruct (first_preferred langs automatic) as [[l d']|] eqn:E.
      + cbn [selected transcript_data]. intros H. injection H as <-.
        exists l. right. apply (first_preferred_stored _ _ _ _ E).
      + intros H. destruct (H1 d H) as [l Hl]. exists l. auto.
    - intros H. destruct (H1 d H) as [l Hl]. exists l. auto. }
  destruct (negb (truthy (transcript_data s2))); [|apply H2].
  destruct manual as [|[l d] manual'].
  - destruct automatic as [|[l d] automatic']; cbn [first_available].
    + apply H2.
    + cbn [transcript_data]. intros H. injection H as <-.
      exists l. right. apply dict_get_head.
  - cbn [first_available transcript_data]. intros H. injection H as <-.
    exists l. left. apply dict_get_head.
Qed.

(** X6: a track list that [get_video_info_and_transcript] returns is
    never empty, and it is the list stored under some language code of
    the manual subtitles or of the automatic captions of the video. *)
Theorem returned_tracks_are_stored :
  forall (info : video_info) (data : list TrackVariant),
    get_video_info_and_transcript info = Some data ->
    data <> [] /\
    exists lang_code,
      dict_get lang_code (get_or (subtitles info) []) = Some data \/
      dict_get lang_code (get_or (automatic_captions info) []) = Some data.
Proof.
  intros info data. unfold get_video_info_and_transcript, returned_transcript.
  set (sel := choose_transcript _ _ _).
  destruct (transcript_data sel) as [d|] eqn:E; cbn [truthy];
    [|discriminate].
  destruct d as [|x d]; [discriminate|].
  intros H. injection H as <-. split; [discriminate|].
  apply (choose_transcript_stored _ _ _ _ E).
Qed.

Lemma returned_tracks_are_stored_witness :
  let v := variant "vtt" "u" in
  let info := {| title := Some (py "T"); id := Some (py "x");
                 description := None;
                 subtitles := Some [(py "fr", [v])];
                 automatic_captions := None |} in
  get_video_info_and_transcript info = Some [v] /\ [v] <> [].
Proof.
  intros v info.
  assert (H : get_video_info_and_transcript info = Some [v]) by reflexivity.
  split; [exact H|].
  exact (proj1 (returned_tracks_are_stored info [v] H)).
Defined.

(** X7: when no preferred language has a non-empty track list, in the
    manual subtitles or in the automatic captions, the selection falls
    back on the first entry of the manual subtitles, or of the automatic
    captions when there are no manual ones.  No other entry is tried: if
    the list of that first entry is empty, nothing is returned even
    though a later entry may hold tracks. *)
Theorem selection_fallback :
  forall (detected : pystr) (manual automatic : dict (list TrackVariant)),
    (forall l d, first_preferred (preferred_languages detected) manual
                   = Some (l, d) -> d = []) ->
    (forall l d, first_preferred (preferred_languages detected) automatic
                   = Some (l, d) -> d = []) ->
    choose_transcript detected manual automatic
    = first_entry (py "Manual") manual
        (first_entry (py "Auto-generated") automatic
           {| transcript_data := None; transcript_type := None |}).
Proof.
  intros detected manual automatic Hm Ha. unfold choose_transcript.
  rewrite !walk_languages_first_preferred.
  set (langs := preferred_languages detected) in *.
  destruct (first_preferred langs manual) as [[l d]|] eqn:Em.
  - rewrite (Hm l d eq_refl). cbn [selected transcript_data truthy negb].
    destruct (first_preferred langs automatic) as [[l' d']|] eqn:Ea.
    + rewrite (Ha l' d' eq_refl). cbn [selected transcript_data truthy negb].
      destruct manual as [|[k x] manual']; [rewrite first_preferred_nil in Em; discriminate Em|].
      reflexivity.
    + cbn [selected transcript_data truthy negb].
      destruct manual as [|[k x] manual']; [rewrite first_preferred_nil in Em; discriminate Em|].
      reflexivity.
  - cbn [transcript_data truthy negb].
    destruct (first_preferred langs automatic) as [[l' d']|] eqn:Ea.
    + rewrite (Ha l' d' eq_refl). cbn [selected transcript_data truthy negb].
      destruct manual as [|[k x] manual']; [|reflexivity].
      destruct automatic as [|[k x] automatic']; [rewrite first_preferred_nil in Ea; discriminate Ea|].
      reflexivity.
    + cbn [transcript_data truthy negb].
      destruct manual as [|[k x] manual']; [|reflexivity].
      destruct automatic as [|[k x] automatic']; reflexivity.
Qed.

Lemma selection_fallback_witness :
  let v := variant "vtt" "u" in
  choose_transcript (py "ja") [(py "ja", []); (py "fr", [v])] []
    = selected (py "Manual") (py "ja") [] /\
  returned_transcript
    (choose_transcript (py "ja") [(py "ja", []); (py "fr", [v])] [])
    = None.
Proof.
  intros v.
  assert (E : choose_transcript (py "ja") [(py "ja", []); (py "fr", [v])] []
              = selected (py "Manual") (py "ja") []).
  { apply (selection_fallback (py "ja") [(py "ja", []); (py "fr", [v])] []).
    - intros l d H. vm_compute in H. injection H as _ <-. reflexivity.
    - intros l d H. vm_compute in H. discriminate H. }
  split; [exact E | rewrite E; reflexivity].
Defined.

(** ** Format choice and download *)

Lemma pick_format_choice (data : list TrackVariant) :
  forall best,
    pick_format best data =
    match find is_json3 data with
    | Some item => Some item
    | None =>
        match best with
        | Some b => Some b
        | None => find is_vtt_or_srv1 data
        end
    end.
Proof.
  induction data as [|item data IH]; intros best.
  - destruct best; reflexivity.
  - cbn [pick_format find]. cbv zeta. unfold is_json3 at 1.
    destruct (str_eqb (get_or (ext item) []) (py "json3")); [reflexivity|].
    unfold is_vtt_or_srv1 at 1.
    destruct (str_eqb (get_or (ext item) []) (py "vtt")).
    { cbn [orb]. destruct best; rewrite IH;
        destruct (find is_json3 data); reflexivity. }
    destruct (str_eqb (get_or (ext item) []) (py "srv1")).
    { cbn [orb]. destruct best; rewrite IH;
        destruct (find is_json3 data); reflexivity. }
    cbn [orb]. apply IH.
Qed.

(** X8: the format loop chooses the first [json3] entry of the track
    list when there is one, wherever it stands; otherwise the first
    entry that is [vtt] or [srv1]; otherwise nothing.  Entries with
    another tag, or with no tag, are never chosen. *)
Theorem best_format_choice :
  forall data : list TrackVariant,
    best_format_of data =
    match find is_json3 data with
    | Some item => Some item
    | None => find is_vtt_or_srv1 data
    end.
Proof. intros data. apply (pick_format_choice data None). Qed.

Section DownloadFacts.

Variable json_loads : pystr -> option json.
Variable xml_fromstring : pystr -> option element.
Variable py_float : pystr -> option Q.
Variable fetch : pystr -> option pystr.

Lemma download_chosen (data : list TrackVariant) (item : TrackVariant) :
  best_format_of data = Some item ->
  download_and_parse_transcript json_loads xml_fromstring py_float fetch data
  = (u <- url item ;;
     content <- fetch u ;;
     if is_json3 item then parse_json3_transcript json_loads content
     else if str_eqb (get_or (ext item) []) (py "vtt")
          then parse_vtt_transcript content
          else parse_srv1_transcript xml_fromstring py_float content).
Proof.
  intros H. unfold download_and_parse_transcript. rewrite H.
  unfold is_json3. destruct (ext item) as [e|]; reflexivity.
Qed.

End DownloadFacts.

(** X9: [download_and_parse_transcript] fetches one URL, that of the
    chosen entry, and decodes the content with the decoder of that
    entry's format.  When the list has a [json3] entry the result is the
    timed-JSON decoding of its content, and is "no cues" when the fetch
    or that decoding fails, whatever other formats the list offers;
    without a [json3], [vtt] or [srv1] entry the result is "no cues" and
    nothing is fetched. *)
Theorem download_dispatch :
  forall (json_loads : pystr -> option json)
         (xml_fromstring : pystr -> option element)
         (py_float : pystr -> option Q)
         (fetch : pystr -> option pystr)
         (data : list TrackVariant) (item : TrackVariant),
    (find is_json3 data = Some item ->
     download_and_parse_transcript
       json_loads xml_fromstring py_float fetch data
     = (u <- url item ;;
        content <- fetch u ;;
        parse_json3_transcript json_loads content)) /\
    (find is_json3 data = None -> find is_vtt_or_srv1 data = Some item ->
     download_and_parse_transcript
       json_loads xml_fromstring py_float fetch data
     = (u <- url item ;;
        content <- fetch u ;;
        if str_eqb (get_or (ext item) []) (py "vtt")
        then parse_vtt_transcript content
        else parse_srv1_transcript xml_fromstring py_float content)) /\
    (find is_json3 data = None -> find is_vtt_or_srv1 data = None ->
     download_and_parse_transcript
       json_loads xml_fromstring py_float fetch data
     = None).
Proof.
  intros json_loads xml_fromstring py_float fetch data item.
  split; [|split].
  - intros Hj.
    rewrite (download_chosen _ _ _ _ data item)
      by (unfold best_format_of; rewrite pick_format_choice, Hj;
          reflexivity).
    apply find_some in Hj. destruct Hj as [_ Hj]. rewrite Hj. reflexivity.
  - intros Hj Hv.
    rewrite (download_chosen _ _ _ _ data item)
      by (unfold best_format_of; rewrite pick_format_choice, Hj;
          exact Hv).
    apply find_some in Hv. destruct Hv as [Hin _].
    rewrite (find_none _ _ Hj item Hin). reflexivity.
  - intros Hj Hv. unfold download_and_parse_transcript.
    unfold best_format_of. rewrite pick_format_choice, Hj, Hv. reflexivity.
Qed.

Lemma download_dispatch_witness :
  let data := [variant "vtt" "a"; variant "json3" "b"] in
  let fetch := fun u : pystr => if str_eqb u (py "b") then Some (py "{")
                                else Some (py "WEBVTT") in
  download_and_parse_transcript
    (fun _ => None) (fun _ => None) (fun _ => None) fetch data
  = None.
Proof.
  intros data fetch.
  rewrite (proj1 (download_dispatch
                    (fun _ => None) (fun _ => None) (fun _ => None) fetch
                    data (variant "json3" "b")) eq_refl).
  reflexivity.
Defined.

(** ** Decoding well-formed payloads *)

Lemma collect_segs_segments (texts : list pystr) :
  collect_segs (map json3_segment texts) = Some (map JStr texts).
Proof.
  induction texts as [|t texts IH]; [reflexivity|].
  cbn [map collect_segs]. unfold json3_segment at 1.
  change (py_in (py "utf8") (JObj [(py "utf8", JStr t)])) with (Some true).
  cbn [bind].
  change (py_getitem (JObj [(py "utf8", JStr t)]) (py "utf8"))
    with (Some (JStr t)).
  cbn [bind]. rewrite IH. reflexivity.
Qed.

Lemma join_parts_strings (texts : list pystr) :
  join_parts (map JStr texts) = Some (concat texts).
Proof.
  induction texts as [|t texts IH]; [reflexivity|].
  cbn [map join_parts concat]. rewrite IH. reflexivity.
Qed.

Lemma json3_event_of_members s d texts :
  exists members,
    json3_event_of s d texts = JObj members /\
    dict_mem (py "segs") members = true /\
    dict_get (py "segs") members = Some (JArr (map json3_segment texts)) /\
    get_or (dict_get (py "tStartMs") members) (JNum 0)
      = JNum (get_or s 0%Q) /\
    get_or (dict_get (py "dDurationMs") members) (JNum 0)
      = JNum (get_or d 0%Q).
Proof.
  eexists. split; [reflexivity|].
  destruct s, d; repeat split; reflexivity.
Qed.

Lemma json3_event_well_formed s d texts :
  json3_times_fit s d ->
  json3_event (json3_event_of s d texts)
  = Some (match json3_cue_of s d texts with
          | c :: _ => Some c
          | [] => None
          end).
Proof.
  intros [Hstart Hdur].
  destruct (json3_event_of_members s d texts)
    as [members [-> [Hmem [Hsegs [Hs Hd]]]]].
  unfold json3_event, json3_cue_of.
  cbn [py_in py_get py_getitem bind]. rewrite Hmem, Hs, Hsegs, Hd.
  cbn [to_num bind py_iter].
  destruct (float_div_1000 (get_or s 0%Q)) as [start_time|];
    [|congruence].
  destruct (float_div_1000 (get_or d 0%Q)) as [duration|]; [|congruence].
  cbn [bind get_or].
  rewrite collect_segs_segments. cbn [bind].
  rewrite join_parts_strings. cbn [bind].
  destruct (strip (concat texts)); reflexivity.
Qed.

Lemma json3_event_start_overflow s d texts :
  float_div_1000 (get_or s 0%Q) = None ->
  json3_event (json3_event_of s d texts) = None.
Proof.
  intros Hstart.
  destruct (json3_event_of_members s d texts)
    as [members [-> [Hmem [Hsegs [Hs Hd]]]]].
  unfold json3_event.
  cbn [py_in py_get py_getitem bind]. rewrite Hmem, Hs.
  cbn [to_num bind]. rewrite Hstart. reflexivity.
Qed.

(** X10: a timed-JSON payload whose events carry numeric times (or
    none, read as 0) and text segments decodes, in order, to one cue
    per event whose concatenated text is not blank, as long as every
    time fits a float: the text trimmed, the start and the duration
    divided by [1000.0] in float arithmetic.  Events of blank text give
    no cue.  One event whose start is an integer too large for a float
    makes the decoder return no cue list at all. *)
Theorem json3_decodes_well_formed :
  forall events : list (option Q * option Q * list pystr),
    let payload :=
      json3_payload
        (map (fun e => json3_event_of (fst (fst e)) (snd (fst e)) (snd e))
             events) in
    ((forall e, In e events -> json3_times_fit (fst (fst e)) (snd (fst e))) ->
     json3_transcript payload
     = Some (flat_map
               (fun e => json3_cue_of (fst (fst e)) (snd (fst e)) (snd e))
               events)) /\
    ((exists e, In e events /\
                float_div_1000 (get_or (fst (fst e)) 0%Q) = None) ->
     json3_transcript payload = None).
Proof.
  intros events payload. subst payload.
  unfold json3_transcript, json3_payload.
  change (py_get (JObj [(py "events", JArr ?l)]) (py "events") (JArr []))
    with (Some (JArr l)).
  cbn [bind py_iter]. split.
  - induction events as [|[[s d] texts] events IH]; intros Hfit;
      [reflexivity|].
    cbn [map json3_events flat_map fst snd].
    rewrite (json3_event_well_formed s d texts
               (Hfit (s, d, texts) (or_introl eq_refl))).
    cbn [bind].
    rewrite (IH (fun e He => Hfit e (or_intror He))). cbn [bind].
    unfold json3_cue_of. destruct (strip (concat texts)); reflexivity.
  - intros [[[s d] texts] [Hin Hbig]]. cbn [fst snd] in Hbig.
    apply (json3_events_error _ (json3_event_of s d texts)).
    + apply (in_map (fun e => json3_event_of (fst (fst e)) (snd (fst e))
                                             (snd e)) events (s, d, texts)).
      exact Hin.
    + apply json3_event_start_overflow. exact Hbig.
Qed.

Lemma json3_decodes_well_formed_witness :
  json3_transcript
    (json3_payload
       [json3_event_of (Some 10000000000000999%Q) (Some 2500%Q)
                       [py "Hello "; py "world "];
        json3_event_of None None [py " "]])
  = Some [ {| cue_text := py "Hello world";
              cue_start := 10000000000001%Q;
              cue_duration := (5 # 2)%Q |} ] /\
  json3_transcript
    (json3_payload [json3_event_of (Some (inject_Z (10 ^ 400))) None [py "x"]])
  = None.
Proof.
  split.
  - refine (eq_trans
              (proj1 (json3_decodes_well_formed
                        [(Some 10000000000000999%Q, Some 2500%Q,
                          [py "Hello "; py "world "]);
                         (None, None, [py " "])]) _) _).
    + intros e [<- | [<- | []]]; split; vm_compute; discriminate.
    + vm_compute. reflexivity.
  - apply (proj2 (json3_decodes_well_formed
                    [(Some (inject_Z (10 ^ 400)), None, [py "x"])])).
    eexists. split; [left; reflexivity|]. vm_compute. reflexivity.
Defined.

Section Srv1Facts.

Variable xml_fromstring : pystr -> option element.
Variable py_float : pystr -> option Q.

Lemma srv1_element_well_formed a d content s u :
  py_float a = Some s -> py_float d = Some u ->
  srv1_element py_float (srv1_text_element a d content)
  = Some (match srv1_cue_of py_float a d content with
          | c :: _ => Some c
          | [] => None
          end).
Proof.
  intros Ha Hd.
  assert (Es : float_attr py_float (srv1_text_element a d content)
                 (py "start") = Some s) by exact Ha.
  assert (Eu : float_attr py_float (srv1_text_element a d content)
                 (py "dur") = Some u) by exact Hd.
  unfold srv1_element, srv1_cue_of. rewrite Es, Eu, Ha, Hd.
  cbn [bind get_or elem_text srv1_text_element].
  destruct (strip (get_or content [])); reflexivity.
Qed.

Lemma findall_text_flat (specs : list (pystr * pystr * option pystr))
    (root_tag : pystr) (attrib : dict pystr) (content : option pystr) :
  findall_text
    (Element root_tag attrib content
       (map (fun e => srv1_text_element (fst (fst e)) (snd (fst e)) (snd e))
            specs))
  = map (fun e => srv1_text_element (fst (fst e)) (snd (fst e)) (snd e))
        specs.
Proof.
  unfold findall_text. cbn [descendants].
  induction specs as [|[[a d] t] specs IH]; [reflexivity|].
  cbn [map flat_map fst snd]. unfold srv1_text_element at 1 2.
  cbn [descendants flat_map app filter elem_tag].
  change (str_eqb (py "text") (py "text")) with true. cbv iota.
  f_equal. exact IH.
Qed.

Lemma srv1_elements_well_formed
    (specs : list (pystr * pystr * option pystr)) :
  (forall e, In e specs ->
     py_float (fst (fst e)) <> None /\ py_float (snd (fst e)) <> None) ->
  srv1_elements py_float
    (map (fun e => srv1_text_element (fst (fst e)) (snd (fst e)) (snd e))
         specs)
  = Some (flat_map
            (fun e => srv1_cue_of py_float (fst (fst e)) (snd (fst e)) (snd e))
            specs).
Proof.
  induction specs as [|[[a d] t] specs IH]; intros H; [reflexivity|].
  cbn [map srv1_elements flat_map fst snd].
  destruct (H (a, d, t) (or_introl eq_refl)) as [Ha Hd]. cbn [fst snd] in *.
  destruct (py_float a) as [s|] eqn:Ea; [|congruence].
  destruct (py_float d) as [u|] eqn:Ed; [|congruence].
  rewrite (srv1_element_well_formed a d t s u Ea Ed). cbn [bind].
  rewrite IH by (intros e He; apply H; right; exact He). cbn [bind].
  unfold srv1_cue_of. destruct (strip (get_or t [])); reflexivity.
Qed.

End Srv1Facts.

(** X11: a timed-XML document whose root holds [text] elements with
    [start] and [dur] attributes that [float] accepts decodes, in
    document order, to one cue per element whose content is not blank,
    with the content trimmed and the two attributes as start and
    duration; the tag and attributes of the root play no part. *)
Theorem srv1_decodes_well_formed :
  forall (xml_fromstring : pystr -> option element)
         (py_float : pystr -> option Q)
         (content root_tag : pystr) (attrib : dict pystr)
         (root_text : option pystr)
         (specs : list (pystr * pystr * option pystr)),
    xml_fromstring content
      = Some (Element root_tag attrib root_text
                (map (fun e => srv1_text_element
                                 (fst (fst e)) (snd (fst e)) (snd e))
                     specs)) ->
    (forall e, In e specs ->
       py_float (fst (fst e)) <> None /\ py_float (snd (fst e)) <> None) ->
    parse_srv1_transcript xml_fromstring py_float content
    = Some (flat_map
              (fun e => srv1_cue_of py_float
                          (fst (fst e)) (snd (fst e)) (snd e))
              specs).
Proof.
  intros xml_fromstring py_float content root_tag attrib root_text specs
         Hparse Hfloat.
  unfold parse_srv1_transcript. rewrite Hparse. cbn [bind].
  rewrite findall_text_flat. apply srv1_elements_well_formed. exact Hfloat.
Qed.

Lemma srv1_decodes_well_formed_witness :
  let float := fun s : pystr =>
                 if str_eqb s (py "2.5") then Some (5 # 2)%Q
                 else if str_eqb s (py "1.0") then Some 1%Q else None in
  let specs := [(py "2.5", py "1.0", Some (py " Hi "));
                (py "2.5", py "1.0", None)] in
  let root := Element (py "transcript") [] None
                (map (fun e => srv1_text_element
                                 (fst (fst e)) (snd (fst e)) (snd e))
                     specs) in
  parse_srv1_transcript (fun _ => Some root) float []
  = Some [ {| cue_text := py "Hi"; cue_start := (5 # 2)%Q;
              cue_duration := 1%Q |} ].
Proof.
  intros float specs root.
  apply (srv1_decodes_well_formed (fun _ => Some root) float []
           (py "transcript") [] None specs eq_refl).
  intros e [<- | [<- | []]]; split; discriminate.
Defined.

(** ** The cue-text decoder on well-formed payloads *)

Lemma vtt_scan_skip (a b : list pystr) (k : nat) :
  vtt_scan (length a + k) (a ++ b) = vtt_scan k b.
Proof. induction a as [|l a IH]; [reflexivity | exact IH]. Qed.

Lemma cue_lines_block (texts : list pystr) (rest : list pystr) :
  (forall t, In t texts -> strip t <> []) ->
  cue_lines (texts ++ [] :: rest) = map strip texts.
Proof.
  induction texts as [|t texts IH]; intros H; [reflexivity|].
  cbn [app cue_lines map].
  destruct (strip t) as [|c s] eqn:E.
  - exfalso. apply (H t (or_introl eq_refl)). exact E.
  - rewrite IH by (intros x Hx; apply H; right; exact Hx). reflexivity.
Qed.

Lemma vtt_scan_block (l : pystr) (texts rest : list pystr) :
  contains (py "-->") (strip l) = true ->
  (forall t, In t texts -> strip t <> []) ->
  vtt_scan 0 (l :: texts ++ [] :: rest)
  = vtt_cue_of l texts ++ vtt_scan 0 rest.
Proof.
  intros Harrow Htexts. cbn [vtt_scan]. cbv zeta. rewrite Harrow.
  rewrite (cue_lines_block texts rest Htexts). rewrite length_map.
  assert (Eskip : vtt_scan (S (length texts)) (texts ++ [] :: rest)
                  = vtt_scan 0 rest).
  { replace (texts ++ [] :: rest) with ((texts ++ [[]]) ++ rest)
      by (rewrite <- app_assoc; reflexivity).
    replace (S (length texts)) with (length (texts ++ [[]]) + 0)%nat
      by (rewrite length_app; simpl; lia).
    apply vtt_scan_skip. }
  rewrite Eskip. unfold vtt_cue_of.
  destruct (remove_vtt_tags 0 (join (py " ") (map strip texts)));
    reflexivity.
Qed.

Lemma vtt_scan_blocks (blocks : list (pystr * list pystr)) :
  (forall b, In b blocks -> vtt_block_ok b) ->
  vtt_scan 0 (flat_map vtt_block_lines blocks)
  = flat_map (fun b => vtt_cue_of (fst b) (snd b)) blocks.
Proof.
  induction blocks as [|[l texts] blocks IH]; intros H; [reflexivity|].
  cbn [flat_map vtt_block_lines fst snd app].
  destruct (H (l, texts) (or_introl eq_refl)) as [Harrow [_ Htexts]].
  cbn [fst snd] in *.
  rewrite <- app_assoc. cbn [app].
  rewrite vtt_scan_block;
    [|exact Harrow | intros t Ht; apply (Htexts t Ht)].
  rewrite IH by (intros b Hb; apply H; right; exact Hb). reflexivity.
Qed.

(** Splitting at newlines what was joined with newlines. *)
Lemma split_join_lines (lines : list pystr) :
  lines <> [] ->
  (forall l, In l lines -> ~ In 10 l) ->
  split [10] (join [10] lines) = lines.
Proof.
  induction lines as [|l lines IH]; intros Hne H; [congruence|].
  destruct lines as [|l' lines].
  - cbn [join]. apply split_char_absent. apply H. left. reflexivity.
  - change (join [10] (l :: l' :: lines))
      with (l ++ 10 :: join [10] (l' :: lines)).
    rewrite split_char_app by (apply H; left; reflexivity).
    rewrite IH; [reflexivity | discriminate |].
    intros x Hx. apply H. right. exact Hx.
Qed.

(** X12: a cue-text file made of the [WEBVTT] line, an empty line and
    blocks (a timestamp line with an arrow, text lines that are not
    blank, an empty line) decodes to one cue per block, in order: the
    start read from the left of the arrow, the text lines trimmed,
    joined with spaces and stripped of tags, the duration 0.  A block
    whose text is nothing but tags gives no cue. *)
Theorem vtt_decodes_blocks :
  forall blocks : list (pystr * list pystr),
    (forall b, In b blocks -> vtt_block_ok b) ->
    parse_vtt_transcript
      (join nl (py "WEBVTT" :: [] :: flat_map vtt_block_lines blocks))
    = Some (flat_map (fun b => vtt_cue_of (fst b) (snd b)) blocks).
Proof.
  intros blocks H. unfold parse_vtt_transcript, nl.
  rewrite split_join_lines.
  - change (vtt_scan 0 (py "WEBVTT" :: [] :: flat_map vtt_block_lines blocks))
      with (vtt_scan 0 (flat_map vtt_block_lines blocks)).
    rewrite (vtt_scan_blocks blocks H). reflexivity.
  - discriminate.
  - intros l [<- | [<- | Hl]].
    + vm_compute. intuition discriminate.
    + intros [].
    + apply in_flat_map in Hl. destruct Hl as [b [Hb Hl]].
      destruct (H b Hb) as [_ [Hts Htexts]].
      unfold vtt_block_lines in Hl. destruct Hl as [<- | Hl]; [exact Hts|].
      apply in_app_or in Hl. destruct Hl as [Hl | [<- | []]].
      * apply (Htexts l Hl).
      * intros [].
Qed.

Lemma vtt_decodes_blocks_witness :
  parse_vtt_transcript
    (join nl [py "WEBVTT"; [];
              py "00:00:01.000 --> 00:00:03.000"; py "<b>Hi</b>";
              py " there"; [];
              py "00:05 --> 00:06"; py "<i></i>"; []])
  = Some [ {| cue_text := py "Hi there"; cue_start := inject_Z 1;
              cue_duration := 0 |} ].
Proof.
  apply (vtt_decodes_blocks
           [(py "00:00:01.000 --> 00:00:03.000",
             [py "<b>Hi</b>"; py " there"]);
            (py "00:05 --> 00:06", [py "<i></i>"])]).
  intros b [<- | [<- | []]]; (split; [reflexivity|]);
    (split; [vm_compute; intuition discriminate|]).
  - intros t [<- | [<- | []]];
      (split; [discriminate | vm_compute; intuition discriminate]).
  - intros t [<- | []].
    split; [discriminate | vm_compute; intuition discriminate].
Defined.

Lemma vtt_scan_no_arrow (lines : list pystr) :
  (forall l, In l lines -> contains (py "-->") (strip l) = false) ->
  forall skip, vtt_scan skip lines = [].
Proof.
  induction lines as [|l lines IH]; intros H skip; [reflexivity|].
  cbn [vtt_scan]. cbv zeta.
  assert (Hrest : forall k, vtt_scan k lines = []).
  { apply IH. intros x Hx. apply H. right. exact Hx. }
  destruct skip; [|apply Hrest].
  rewrite (H l (or_introl eq_refl)). apply Hrest.
Qed.

(** X13: a payload in which no line holds an arrow decodes to the
    empty list of cues, not to a failure: the decoder does not tell a
    file without cues from a file that is not cue-text at all. *)
Theorem vtt_without_arrow :
  forall content : pystr,
    (forall l, In l (split [10] content) ->
               contains (py "-->") (strip l) = false) ->
    parse_vtt_transcript content = Some [].
Proof.
  intros content H. unfold parse_vtt_transcript.
  rewrite (vtt_scan_no_arrow _ H). reflexivity.
Qed.

Lemma vtt_without_arrow_witness :
  parse_vtt_transcript (py "<html>not found</html>") = Some [].
Proof.
  apply vtt_without_arrow. intros l [<- | []]. reflexivity.
Defined.

(** ** Tag removal *)

Lemma index_of_first (c : N) (a b : pystr) :
  ~ In c a -> index_of c (a ++ c :: b) = Some (length a).
Proof.
  induction a as [|x a IH]; intros H.
  - cbn [app index_of]. rewrite N.eqb_refl. reflexivity.
  - cbn [app index_of length].
    destruct (x =? c) eqn:E.
    + apply N.eqb_eq in E. exfalso. apply H. left. exact E.
    + rewrite IH by (intros Hin; apply H; right; exact Hin). reflexivity.
Qed.

Lemma remove_vtt_tags_skip (a b : pystr) (k : nat) :
  remove_vtt_tags (length a + k) (a ++ b) = remove_vtt_tags k b.
Proof. induction a as [|x a IH]; [reflexivity | exact IH]. Qed.

Lemma remove_vtt_tags_plain (a s : pystr) :
  ~ In (ch "<"%char) a ->
  remove_vtt_tags 0 (a ++ s) = a ++ remove_vtt_tags 0 s.
Proof.
  induction a as [|x a IH]; intros H; [reflexivity|].
  cbn [app remove_vtt_tags].
  destruct (x =? ch "<"%char) eqn:E.
  - apply N.eqb_eq in E. exfalso. apply H. left. exact E.
  - rewrite IH by (intros Hin; apply H; right; exact Hin). reflexivity.
Qed.

Lemma remove_vtt_tags_tag (name rest : pystr) :
  name <> [] -> ~ In (ch ">"%char) name ->
  remove_vtt_tags 0 (ch "<"%char :: name ++ ch ">"%char :: rest)
  = remove_vtt_tags 0 rest.
Proof.
  intros Hne Hgt. cbn [remove_vtt_tags]. rewrite N.eqb_refl.
  rewrite (index_of_first _ name rest Hgt).
  destruct name as [|x name]; [congruence|]. cbn [length].
  replace (ch ">"%char :: rest) with ([ch ">"%char] ++ rest) by reflexivity.
  rewrite app_assoc.
  replace (S (S (length name)))
    with (length ((x :: name) ++ [ch ">"%char]) + 0)%nat
    by (rewrite length_app; simpl; lia).
  apply remove_vtt_tags_skip.
Qed.

(** X14: the tag removal of the cue-text decoder keeps text that has
    no ['<'] as it is and drops every [<name>] with a non-empty name
    free of ['>'], so that text which alternates plain runs and such
    tags loses exactly the tags. *)
Theorem remove_vtt_tags_markup :
  forall before name after : pystr,
    ~ In (ch "<"%char) before -> name <> [] -> ~ In (ch ">"%char) name ->
    remove_vtt_tags 0 (before ++ ch "<"%char :: name ++ ch ">"%char :: after)
    = before ++ remove_vtt_tags 0 after.
Proof.
  intros before name after Hb Hne Hgt.
  rewrite (remove_vtt_tags_plain before _ Hb).
  rewrite (remove_vtt_tags_tag name after Hne Hgt). reflexivity.
Qed.

Lemma remove_vtt_tags_markup_witness :
  remove_vtt_tags 0 (py "Hi <c.yellow>there") = py "Hi " ++ py "there".
Proof.
  apply (remove_vtt_tags_markup (py "Hi ") (py "c.yellow") (py "there"));
    [vm_compute; intuition discriminate | discriminate
    | vm_compute; intuition discriminate].
Defined.

(** ** What the Japanese cleanup returns *)

Lemma no_double_space_cons (c d : N) (r : pystr) :
  no_double_space (c :: d :: r)
  = negb (is_space c && is_space d) && no_double_space (d :: r).
Proof. reflexivity. Qed.

Lemma collapse_spaces_spaced (s : pystr) :
  forall in_run,
    no_double_space (collapse_spaces in_run s) = true /\
    only_plain_spaces (collapse_spaces in_run s) = true /\
    (in_run = true -> headed is_space (collapse_spaces in_run s)).
Proof.
  induction s as [|c s IH]; intros in_run.
  - split; [reflexivity | split; [reflexivity | intros _; exact I]].
  - cbn [collapse_spaces]. destruct (is_space c) eqn:Ec.
    + destruct in_run; [apply IH|].
      destruct (IH true) as [H1 [H2 H3]]. specialize (H3 eq_refl).
      split; [|split; [|discriminate]].
      * destruct (collapse_spaces true s) as [|d r] eqn:E; [reflexivity|].
        rewrite no_double_space_cons. simpl in H3.
        rewrite H3, andb_false_r. exact H1.
      * unfold only_plain_spaces in *. cbn [forallb].
        rewrite H2. reflexivity.
    + destruct (IH false) as [H1 [H2 _]].
      split; [|split; [|intros _; exact Ec]].
      * destruct (collapse_spaces false s) as [|d r] eqn:E; [reflexivity|].
        rewrite no_double_space_cons, Ec. exact H1.
      * unfold only_plain_spaces in *. cbn [forallb]. rewrite Ec, H2.
        reflexivity.
Qed.

Lemma no_double_space_app (a b : pystr) :
  no_double_space (a ++ b) = true ->
  no_double_space a = true /\ no_double_space b = true.
Proof.
  induction a as [|c a IH]; intros H; [split; [reflexivity | exact H]|].
  destruct a as [|d a].
  - split; [reflexivity|]. destruct b as [|e b]; [reflexivity|].
    change ([c] ++ e :: b) with (c :: e :: b) in H.
    rewrite no_double_space_cons in H.
    apply andb_true_iff in H. apply H.
  - change ((c :: d :: a) ++ b) with (c :: d :: (a ++ b)) in H.
    rewrite no_double_space_cons in H. apply andb_true_iff in H.
    destruct H as [Hcd H]. destruct (IH H) as [Ha Hb].
    split; [|exact Hb]. rewrite no_double_space_cons, Hcd. exact Ha.
Qed.

(** What [strip] returns is a piece of its argument. *)
Lemma strip_by_infix (p : N -> bool) (s : pystr) :
  exists pre post, s = pre ++ strip_by p s ++ post.
Proof.
  unfold strip_by.
  destruct (drop_while_split p s) as [pre [E _]].
  destruct (drop_while_split p (rev (drop_while p s))) as [post [E' _]].
  exists pre, (rev post).
  rewrite <- rev_app_distr, <- E', rev_involutive. exact E.
Qed.

Lemma strip_by_subset (p : N -> bool) (s : pystr) (x : N) :
  In x (strip_by p s) -> In x s.
Proof.
  destruct (strip_by_infix p s) as [pre [post E]]. intros H.
  rewrite E. apply in_or_app. right. apply in_or_app. left. exact H.
Qed.

(** X15: what [clean_japanese_text] returns has no white space at
    either end, no two white-space characters in a row, and no white
    space other than the space U+0020. *)
Theorem clean_japanese_text_spacing :
  forall text : pystr,
    strip (clean_japanese_text text) = clean_japanese_text text /\
    no_double_space (clean_japanese_text text) = true /\
    only_plain_spaces (clean_japanese_text text) = true.
Proof.
  intros text. unfold clean_japanese_text.
  set (t := sub_japanese_spaces 0 _).
  destruct (collapse_spaces_spaced t false) as [H1 [H2 _]].
  destruct (strip_by_infix is_space (collapse_spaces false t))
    as [pre [post E]].
  fold (strip (collapse_spaces false t)) in E.
  split; [|split].
  - unfold strip. apply strip_by_idempotent.
  - rewrite E in H1. apply no_double_space_app in H1.
    destruct H1 as [_ H1]. apply no_double_space_app in H1. apply H1.
  - unfold only_plain_spaces in *. rewrite forallb_forall in *.
    intros x Hx. apply H2. unfold strip in Hx.
    apply (strip_by_subset _ _ _ Hx).
Qed.

Lemma remove_from_subset (old : pystr) (s : pystr) (x : N) :
  forall skip, In x (remove_from old skip s) -> In x s.
Proof.
  induction s as [|c s IH]; intros skip H; [exact H|].
  cbn [remove_from] in H. destruct skip as [|k].
  - destruct (starts_with old (c :: s)).
    + right. apply (IH _ H).
    + destruct H as [<- | H]; [left; reflexivity | right; apply (IH _ H)].
  - right. apply (IH _ H).
Qed.

Lemma remove_all_char (g : N) (s : pystr) : ~ In g (remove_all [g] s).
Proof.
  unfold remove_all. induction s as [|c s IH]; [intros []|].
  cbn [remove_from starts_with length Nat.sub].
  destruct (g =? c) eqn:E; cbn [andb].
  - exact IH.
  - intros [H | H]; [|exact (IH H)].
    apply N.eqb_neq in E. congruence.
Qed.

Lemma fold_remove_subset (tags : list pystr) (x : N) :
  forall s, In x (fold_left (fun t tag => remove_all tag t) tags s) ->
            In x s.
Proof.
  induction tags as [|tag tags IH]; intros s H; [exact H|].
  cbn [fold_left] in H. apply IH in H.
  apply (remove_from_subset _ _ _ _ H).
Qed.

Lemma sub_japanese_spaces_subset (s : pystr) (x : N) :
  forall skip, In x (sub_japanese_spaces skip s) -> In x s.
Proof.
  induction s as [|c s IH]; intros skip H; [exact H|].
  cbn [sub_japanese_spaces] in H. destruct skip as [|k].
  - assert (Hplain : In x (c :: sub_japanese_spaces 0 s) -> In x (c :: s)).
    { intros [<- | Hx]; [left; reflexivity | right; apply (IH _ Hx)]. }
    destruct (japanese_char c); [|exact (Hplain H)].
    destruct (space_run s) as [[|n] [d|]] eqn:E; try exact (Hplain H).
    destruct (japanese_char d); [|exact (Hplain H)].
    destruct H as [<- | [<- | H]].
    + left. reflexivity.
    + right. clear IH Hplain. revert n E.
      induction s as [|y s IHs]; intros n E; [discriminate E|].
      cbn [space_run] in E. destruct (is_space y).
      * destruct (space_run s) as [m o] eqn:Es.
        injection E as Hn Ho. subst o.
        destruct m as [|m].
        -- right. destruct s as [|z s]; [discriminate Es|].
           cbn [space_run] in Es. destruct (is_space z).
           ++ destruct (space_run s). discriminate Es.
           ++ injection Es as <-. left. reflexivity.
        -- right. apply (IHs m). reflexivity.
      * discriminate E.
    + right. apply (IH _ H).
  - right. apply (IH _ H).
Qed.

Lemma collapse_spaces_subset (s : pystr) (x : N) :
  forall in_run, In x (collapse_spaces in_run s) -> x = 32 \/ In x s.
Proof.
  induction s as [|c s IH]; intros in_run H; [destruct H|].
  cbn [collapse_spaces] in H. destruct (is_space c).
  - destruct in_run.
    + destruct (IH _ H); [left | right; right]; assumption.
    + destruct H as [<- | H]; [left; reflexivity|].
      destruct (IH _ H); [left | right; right]; assumption.
  - destruct H as [<- | H]; [right; left; reflexivity|].
    destruct (IH _ H); [left | right; right]; assumption.
Qed.

(** X16: none of the note glyphs ♪ ♫ ♬ ♩ is left in what
    [clean_japanese_text] returns, and every character it returns is a
    character of its argument or a space. *)
Theorem clean_japanese_text_characters :
  forall (text : pystr) (x : N),
    In x (clean_japanese_text text) ->
    (x = 32 \/ In x text) /\ ~ In x note_glyphs.
Proof.
  intros text x H. unfold clean_japanese_text in H.
  unfold strip in H. apply strip_by_subset in H.
  apply collapse_spaces_subset in H.
  split.
  - destruct H as [H | H]; [left; exact H | right].
    apply sub_japanese_spaces_subset in H.
    apply (fold_remove_subset _ _ _ H).
  - intros Hg.
    destruct H as [-> | H];
      [simpl in Hg; intuition discriminate|].
    apply sub_japanese_spaces_subset in H.
    assert (Hsplit : exists before after,
               music_tags = before ++ [x] :: after).
    { simpl in Hg. destruct Hg as [<- | [<- | [<- | [<- | []]]]].
      - exists (firstn 1 music_tags), (skipn 2 music_tags). reflexivity.
      - exists (firstn 2 music_tags), (skipn 3 music_tags). reflexivity.
      - exists (firstn 3 music_tags), (skipn 4 music_tags). reflexivity.
      - exists (firstn 4 music_tags), (skipn 5 music_tags). reflexivity. }
    destruct Hsplit as [before [after E]].
    rewrite E, fold_left_app in H. cbn [fold_left] in H.
    apply fold_remove_subset in H.
    exact (remove_all_char x _ H).
Qed.

Lemma clean_japanese_text_characters_witness :
  let text := [9834; 12354; 32; 12356; 9833] in
  In 12354 (clean_japanese_text text) /\ ~ In 12354 note_glyphs.
Proof.
  intros text.
  assert (H : In 12354 (clean_japanese_text text)) by (left; reflexivity).
  split; [exact H|].
  exact (proj2 (clean_japanese_text_characters text 12354 H)).
Defined.

(** ** The rendered document *)

Lemma paragraph_block_ends ts start_time text :
  exists x, paragraph_block ts start_time text = x ++ nl ++ nl.
Proof.
  unfold paragraph_block. destruct ts, start_time as [t|].
  - exists (py "**[" ++ format_timestamp t ++ py "]** " ++ text).
    rewrite <- !app_assoc. reflexivity.
  - exists text. reflexivity.
  - exists text. reflexivity.
  - exists text. reflexivity.
Qed.

Lemma ends_blocks_app (body : pystr) ts start_time text :
  ends_blocks (body ++ paragraph_block ts start_time text).
Proof.
  destruct (paragraph_block_ends ts start_time text) as [x ->].
  right. exists (body ++ x). rewrite <- !app_assoc. reflexivity.
Qed.

Lemma add_entry_blocks ts jp (h : pystr) (b : builder) (entry : cue) :
  (exists body, markdown b = h ++ body /\ ends_blocks body) ->
  exists body, markdown (add_entry ts jp b entry) = h ++ body /\
               ends_blocks body.
Proof.
  intros [body [E Hb]]. unfold add_entry.
  destruct (entry_text jp entry) as [text|]; [|exists body; auto].
  cbv zeta. destruct (closes_paragraph _ _); cbn [markdown].
  - eexists. split; [rewrite E, <- app_assoc; reflexivity|].
    apply ends_blocks_app.
  - exists body. auto.
Qed.

Lemma fold_add_entry_blocks ts jp (h : pystr) (transcript : list cue) :
  forall b,
    (exists body, markdown b = h ++ body /\ ends_blocks body) ->
    exists body,
      markdown (fold_left (add_entry ts jp) transcript b) = h ++ body /\
      ends_blocks body.
Proof.
  induction transcript as [|e transcript IH]; intros b H; [exact H|].
  cbn [fold_left]. apply IH. apply add_entry_blocks. exact H.
Qed.

Lemma flush_blocks ts jp (h : pystr) (b : builder) :
  (exists body, markdown b = h ++ body /\ ends_blocks body) ->
  exists body, flush ts jp b = h ++ body /\ ends_blocks body.
Proof.
  intros [body [E Hb]].
  destruct (flush_cases ts jp b) as [-> | [text [_ [_ ->]]]].
  - exists body. auto.
  - eexists. split; [rewrite E, <- app_assoc; reflexivity|].
    apply ends_blocks_app.
Qed.

Lemma marker_is_no_block : ~ ends_blocks no_transcript_marker.
Proof.
  intros [H | [b H]]; [discriminate H|].
  apply (f_equal (@rev N)) in H. rewrite !rev_app_distr in H.
  vm_compute in H. discriminate H.
Qed.

Lemma document_body (transcript : list cue) (info : video_info) (ts : bool) :
  transcript <> [] ->
  exists body,
    transcript_to_markdown transcript info ts
    = header (get_or (title info) (py "Unknown Title"))
             (get_or (id info) (py "Unknown ID")) ++ body /\
    ends_blocks body.
Proof.
  intros Hne. unfold transcript_to_markdown.
  destruct transcript as [|e transcript]; [congruence|].
  apply flush_blocks. apply fold_add_entry_blocks. exists [].
  split; [cbn [markdown]; rewrite app_nil_r; reflexivity | left; reflexivity].
Qed.

Lemma document_is_not_marker (transcript : list cue) (info : video_info)
    (ts : bool) :
  transcript <> [] ->
  transcript_to_markdown transcript info ts
  <> header (get_or (title info) (py "Unknown Title"))
            (get_or (id info) (py "Unknown ID")) ++ no_transcript_marker.
Proof.
  intros Hne. destruct (document_body transcript info ts Hne) as [body [E Hb]].
  rewrite E. intros Heq. apply app_inv_head in Heq.
  apply marker_is_no_block. rewrite <- Heq. exact Hb.
Qed.

(** X17: the document always begins with the header (title, identifier
    and URL of the video, separator).  After it comes the marker line
    when the cue list is empty; otherwise nothing or paragraph blocks,
    each ended by an empty line, and never the marker line: the
    document of a non-empty cue list is never the "no transcript"
    document. *)
Theorem document_shape :
  forall (transcript : list cue) (info : video_info)
         (include_timestamps : bool),
    let h := header (get_or (title info) (py "Unknown Title"))
                    (get_or (id info) (py "Unknown ID")) in
    exists body,
      transcript_to_markdown transcript info include_timestamps
        = h ++ body /\
      (transcript = [] -> body = no_transcript_marker) /\
      (transcript <> [] ->
       ends_blocks body /\
       transcript_to_markdown transcript info include_timestamps
         <> h ++ no_transcript_marker).
Proof.
  intros transcript info ts h.
  destruct transcript as [|e transcript].
  - exists no_transcript_marker.
    split; [reflexivity | split; [reflexivity | congruence]].
  - assert (Hne : e :: transcript <> []) by discriminate.
    destruct (document_body (e :: transcript) info ts Hne) as [body [E Hb]].
    exists body. split; [exact E|]. split; [discriminate|].
    intros _. split; [exact Hb|].
    apply document_is_not_marker. exact Hne.
Qed.

Lemma document_shape_witness :
  transcript_to_markdown [fixture_cue "Hi." 0] (fixture_info (py "T")) true
  <> header (py "T") (py "x") ++ no_transcript_marker.
Proof.
  destruct (document_shape [fixture_cue "Hi." 0] (fixture_info (py "T")) true)
    as [body [_ [_ H]]].
  apply H. discriminate.
Defined.

Lemma add_entry_invariant ts jp (b : builder) (entry : cue) :
  (length (current_paragraph b) <= 500)%nat /\
  (current_paragraph b = [] <-> current_start_time b = None) ->
  (length (current_paragraph (add_entry ts jp b entry)) <= 500)%nat /\
  (current_paragraph (add_entry ts jp b entry) = [] <->
   current_start_time (add_entry ts jp b entry) = None).
Proof.
  intros H. unfold add_entry.
  destruct (entry_text jp entry) as [text|]; [|exact H].
  cbv zeta.
  destruct (closes_paragraph text (current_paragraph b ++ text ++ py " "))
    eqn:E; cbn [current_paragraph current_start_time].
  - split; [simpl; lia | tauto].
  - unfold closes_paragraph in E. apply orb_false_iff in E.
    destruct E as [_ E]. apply Nat.ltb_ge in E.
    split; [exact E|].
    split; intros H'.
    + apply app_eq_nil in H'. destruct H' as [_ H'].
      apply app_eq_nil in H'. destruct H' as [_ H']. discriminate H'.
    + unfold anchor_of in H'. destruct (current_start_time b); discriminate.
Qed.

Lemma fold_add_entry_invariant ts jp (transcript : list cue) :
  forall b : builder,
    (length (current_paragraph b) <= 500)%nat /\
    (current_paragraph b = [] <-> current_start_time b = None) ->
    (length (current_paragraph (fold_left (add_entry ts jp) transcript b))
     <= 500)%nat /\
    (current_paragraph (fold_left (add_entry ts jp) transcript b) = [] <->
     current_start_time (fold_left (add_entry ts jp) transcript b) = None).
Proof.
  induction transcript as [|e transcript IH]; intros b H; [exact H|].
  cbn [fold_left]. apply IH. apply add_entry_invariant. exact H.
Qed.

(** X18: between two cues the paragraph being built is never longer
    than 500 characters, and it has a start time exactly when it is not
    empty.  So with timestamps requested the final flush, like every
    closing inside the loop, writes the paragraph under its timestamp:
    no paragraph of a timestamped document lacks one. *)
Theorem builder_invariant :
  forall (include_timestamps is_japanese : bool) (transcript : list cue)
         (document : pystr),
    let b := fold_left (add_entry include_timestamps is_japanese) transcript
               (start_builder document) in
    (length (current_paragraph b) <= 500)%nat /\
    (current_paragraph b = [] <-> current_start_time b = None) /\
    (flush true is_japanese b = markdown b \/
     exists t text,
       current_start_time b = Some t /\
       flush true is_japanese b
       = markdown b ++ py "**[" ++ format_timestamp t ++ py "]** " ++
         text ++ nl ++ nl).
Proof.
  intros ts jp transcript document b.
  assert (Inv : (length (current_paragraph b) <= 500)%nat /\
                (current_paragraph b = [] <-> current_start_time b = None)).
  { subst b. apply fold_add_entry_invariant.
    cbn [start_builder current_paragraph current_start_time].
    split; [simpl; lia | tauto]. }
  destruct Inv as [Hlen Hiff]. split; [exact Hlen|]. split; [exact Hiff|].
  destruct (flush_cases true jp b) as [E | [text [Hne [Htext E]]]];
    [left; exact E|].
  right. destruct (current_start_time b) as [t|] eqn:Et.
  - exists t, text. split; [reflexivity|]. rewrite E. reflexivity.
  - exfalso. pose proof (proj2 Hiff eq_refl) as Ecur.
    unfold flush in E. rewrite Ecur in E.
    change (strip []) with (@nil N) in E. cbv iota in E.
    apply (f_equal (@length N)) in E. rewrite length_app in E.
    destruct (paragraph_block_ends true None text) as [x Hx].
    rewrite Hx in E. rewrite !length_app in E. simpl in E. lia.
Qed.

Lemma drop_while_app_all (p : N -> bool) (a b : pystr) :
  forallb p a = true -> drop_while p (a ++ b) = drop_while p b.
Proof.
  induction a as [|c a IH]; intros H; [reflexivity|].
  simpl in H. apply andb_true_iff in H. destruct H as [Hc Ha].
  cbn [app drop_while]. rewrite Hc. apply IH. exact Ha.
Qed.

(** Trimming removes what was appended to a trimmed text, if that is
    white space. *)
Lemma strip_by_trailing (p : N -> bool) (t w : pystr) :
  t <> [] -> headed p t -> headed p (rev t) -> forallb p w = true ->
  strip_by p (t ++ w) = t.
Proof.
  intros Hne Hh Hr Hw. unfold strip_by.
  assert (E1 : drop_while p (t ++ w) = t ++ w).
  { apply drop_while_fixed. destruct t; [congruence | exact Hh]. }
  rewrite E1, rev_app_distr.
  rewrite drop_while_app_all
    by (rewrite forallb_forall in *; intros x Hx; apply Hw;
        apply in_rev; exact Hx).
  rewrite (drop_while_fixed p _ Hr). apply rev_involutive.
Qed.

Lemma ends_sentence_nonempty (text : pystr) :
  ends_sentence text = true -> text <> [].
Proof. intros H ->. discriminate H. Qed.

Lemma add_sentence ts (b : builder) (entry : cue) :
  current_paragraph b = [] -> current_start_time b = None ->
  ends_sentence (strip (cue_text entry)) = true ->
  add_entry ts false b entry
  = {| markdown :=
         markdown b ++
         paragraph_block ts (Some (cue_start entry)) (strip (cue_text entry));
       current_paragraph := [];
       current_start_time := None |}.
Proof.
  intros Hcur Hstart Hend.
  pose proof (ends_sentence_nonempty _ Hend) as Hne.
  assert (Ht : entry_text false entry = Some (strip (cue_text entry))).
  { unfold entry_text. destruct (strip (cue_text entry)) eqn:E;
      [congruence | reflexivity]. }
  rewrite (add_entry_closing ts false b entry _ Ht)
    by (unfold closes_paragraph; rewrite Hend; reflexivity).
  unfold anchor_of. rewrite Hstart, Hcur. cbn [app].
  unfold final_text.
  assert (E : strip (strip (cue_text entry) ++ py " ")
              = strip (cue_text entry)).
  { unfold strip at 1.
    destruct (strip_by_trimmed is_space (cue_text entry)) as [H1 H2].
    apply strip_by_trailing; [exact Hne | exact H1 | exact H2 | reflexivity]. }
  rewrite E. reflexivity.
Qed.

Lemma fold_sentences ts (transcript : list cue) :
  forall b,
    current_paragraph b = [] -> current_start_time b = None ->
    (forall e, In e transcript ->
               ends_sentence (strip (cue_text e)) = true) ->
    fold_left (add_entry ts false) transcript b
    = {| markdown :=
           markdown b ++
           concat (map (fun e => paragraph_block ts (Some (cue_start e))
                                   (strip (cue_text e))) transcript);
         current_paragraph := [];
         current_start_time := None |}.
Proof.
  induction transcript as [|e transcript IH]; intros b Hcur Hstart H.
  - cbn [fold_left map concat]. rewrite app_nil_r.
    destruct b; cbn in *; subst; reflexivity.
  - cbn [fold_left map concat].
    rewrite (add_sentence ts b e Hcur Hstart (H e (or_introl eq_refl))).
    rewrite IH; [|reflexivity | reflexivity
                 | intros x Hx; apply H; right; exact Hx].
    cbn [markdown]. rewrite <- app_assoc. reflexivity.
Qed.

(** X19: for content that is not Japanese, cues that each end a
    sentence are rendered one paragraph per cue, in order: the trimmed
    text of the cue under the start time of that cue. *)
Theorem one_paragraph_per_sentence :
  forall (transcript : list cue) (info : video_info)
         (include_timestamps : bool),
    transcript <> [] ->
    str_eqb (detect_video_language
               (get_or (title info) (py "Unknown Title")) [])
            (py "ja") = false ->
    (forall e, In e transcript ->
               ends_sentence (strip (cue_text e)) = true) ->
    transcript_to_markdown transcript info include_timestamps
    = header (get_or (title info) (py "Unknown Title"))
             (get_or (id info) (py "Unknown ID")) ++
      concat (map (fun e => paragraph_block include_timestamps
                              (Some (cue_start e)) (strip (cue_text e)))
                  transcript).
Proof.
  intros transcript info ts Hne Hlang H. unfold transcript_to_markdown.
  rewrite Hlang. destruct transcript as [|e transcript]; [congruence|].
  rewrite (fold_sentences ts (e :: transcript)) by (reflexivity || exact H).
  reflexivity.
Qed.

Lemma one_paragraph_per_sentence_witness :
  transcript_to_markdown
    [fixture_cue " One. " 5; fixture_cue "Two?" 9] (fixture_info (py "T"))
    false
  = header (py "T") (py "x") ++
    concat [py "One." ++ nl ++ nl; py "Two?" ++ nl ++ nl].
Proof.
  apply (one_paragraph_per_sentence
           [fixture_cue " One. " 5; fixture_cue "Two?" 9]
           (fixture_info (py "T")) false).
  - discriminate.
  - reflexivity.
  - intros e [<- | [<- | []]]; reflexivity.
Defined.

(** ** The resolver on the URL shapes *)

Lemma before_query_plain (seg : pystr) :
  ~ In 63 seg -> before_query seg = seg.
Proof.
  intros H. unfold before_query. change (py "?") with [63].
  rewrite (split_char_absent 63 seg H). reflexivity.
Qed.

Section ResolverShapes.

Variable urlparse : pystr -> option parsed_url.
Variable parse_qs : pystr -> dict (list pystr).
Variable unicode_word : N -> bool.

Lemma resolve_short_link (url : pystr) (parsed : parsed_url) (seg : pystr) :
  url <> [] -> matches_bare_id url = false ->
  urlparse (with_scheme url) = Some parsed ->
  hostname parsed = Some (py "youtu.be") ->
  path parsed = py "/" ++ seg ->
  seg <> py "watch" -> ~ In 47 seg -> ~ In 63 seg ->
  extract_video_id urlparse parse_qs unicode_word url = Returns (Some seg).
Proof.
  intros Hne Hbare Hparse Hhost Hpath Hw Hslash Hq.
  rewrite (resolve_parsed urlparse parse_qs unicode_word url parsed
             (py "youtu.be") Hne Hbare Hparse Hhost)
    by reflexivity.
  rewrite Hpath.
  rewrite str_eqb_false
    by (intros E; apply Hw; injection E as E; exact E).
  change (str_eqb (py "youtu.be") (py "youtu.be")) with true. cbv iota.
  change (py "/" ++ seg) with ([] ++ 47 :: seg). change (py "/") with [47].
  rewrite (split_char_app 47 [] seg) by (intros []).
  rewrite (split_char_absent 47 seg Hslash).
  rewrite (before_query_plain seg Hq). reflexivity.
Qed.

Lemma resolve_alternate (url : pystr) (parsed : parsed_url)
    (h kind seg : pystr) :
  url <> [] -> matches_bare_id url = false ->
  urlparse (with_scheme url) = Some parsed ->
  hostname parsed = Some h -> matches_host unicode_word h = true ->
  h <> py "youtu.be" ->
  In kind alternate_endpoints ->
  path parsed = py "/" ++ kind ++ py "/" ++ seg ->
  ~ In 47 seg -> ~ In 63 seg ->
  extract_video_id urlparse parse_qs unicode_word url = Returns (Some seg).
Proof.
  intros Hne Hbare Hparse Hhost Hmatch Hh Hkind Hpath Hslash Hq.
  rewrite (resolve_parsed urlparse parse_qs unicode_word url parsed h
             Hne Hbare Hparse Hhost Hmatch).
  rewrite Hpath, (str_eqb_false h _ Hh).
  assert (Hk : str_eqb (py "/" ++ kind ++ py "/" ++ seg) (py "/watch") = false
               /\ ~ In 47 kind /\
               existsb (str_eqb kind) alternate_endpoints = true).
  { simpl in Hkind.
    destruct Hkind as [<- | [<- | [<- | [<- | []]]]];
      (split; [reflexivity
              | split; [vm_compute; intuition discriminate | reflexivity]]). }
  destruct Hk as [Hw [Hks Hex]]. rewrite Hw.
  change (py "/" ++ kind ++ py "/" ++ seg)
    with ([] ++ 47 :: (kind ++ 47 :: seg)).
  change (py "/") with [47].
  rewrite (split_char_app 47 [] _) by (intros []).
  rewrite (split_char_app 47 kind seg Hks).
  rewrite (split_char_absent 47 seg Hslash).
  rewrite Hex, (before_query_plain seg Hq). reflexivity.
Qed.

Lemma resolve_short_link_raises (url : pystr) (parsed : parsed_url) :
  url <> [] -> matches_bare_id url = false ->
  urlparse (with_scheme url) = Some parsed ->
  hostname parsed = Some (py "youtu.be") ->
  ~ In 47 (path parsed) ->
  extract_video_id urlparse parse_qs unicode_word url = Raises.
Proof.
  intros Hne Hbare Hparse Hhost Hslash.
  rewrite (resolve_parsed urlparse parse_qs unicode_word url parsed
             (py "youtu.be") Hne Hbare Hparse Hhost)
    by reflexivity.
  rewrite str_eqb_false
    by (intros E; apply Hslash; rewrite E; left; reflexivity).
  change (str_eqb (py "youtu.be") (py "youtu.be")) with true. cbv iota.
  change (py "/") with [47].
  rewrite (split_char_absent 47 _ Hslash). reflexivity.
Qed.

Lemma resolve_without_scheme (url : pystr) :
  url <> [] -> matches_bare_id url = false -> has_scheme url = false ->
  extract_video_id urlparse parse_qs unicode_word url
  = extract_video_id urlparse parse_qs unicode_word (py "http://" ++ url).
Proof.
  intros Hne Hbare Hscheme. unfold extract_video_id.
  destruct url as [|c url']; [congruence|].
  rewrite Hbare.
  change (py "http://" ++ c :: url')
    with (104 :: 116 :: 116 :: 112 :: 58 :: 47 :: 47 :: c :: url').
  assert (Eb : matches_bare_id
                 (104 :: 116 :: 116 :: 112 :: 58 :: 47 :: 47 :: c :: url')
               = false) by reflexivity.
  rewrite Eb.
  assert (Ew : with_scheme
                 (104 :: 116 :: 116 :: 112 :: 58 :: 47 :: 47 :: c :: url')
               = with_scheme (c :: url')).
  { unfold with_scheme at 2. rewrite Hscheme. reflexivity. }
  rewrite Ew. reflexivity.
Qed.

End ResolverShapes.

(** X20: on an accepted host, a short link [youtu.be/ID] yields its
    first path segment and a path [/embed/ID], [/shorts/ID], [/live/ID]
    or [/v/ID] yields its second segment, whatever the segment is, as
    long as it holds no ['/'] and no ['?']. *)
Theorem resolver_path_segment :
  forall (urlparse : pystr -> option parsed_url)
         (parse_qs : pystr -> dict (list pystr))
         (unicode_word : N -> bool)
         (url : pystr) (parsed : parsed_url) (h kind seg : pystr),
    url <> [] -> matches_bare_id url = false ->
    urlparse (with_scheme url) = Some parsed ->
    hostname parsed = Some h -> matches_host unicode_word h = true ->
    ~ In 47 seg -> ~ In 63 seg ->
    (h = py "youtu.be" -> seg <> py "watch" ->
     path parsed = py "/" ++ seg ->
     extract_video_id urlparse parse_qs unicode_word url
       = Returns (Some seg)) /\
    (h <> py "youtu.be" -> In kind alternate_endpoints ->
     path parsed = py "/" ++ kind ++ py "/" ++ seg ->
     extract_video_id urlparse parse_qs unicode_word url
       = Returns (Some seg)).
Proof.
  intros urlparse parse_qs unicode_word url parsed h kind seg
         Hne Hbare Hparse Hhost Hmatch Hslash Hq.
  split.
  - intros -> Hw Hpath.
    apply (resolve_short_link _ _ _ url parsed seg); assumption.
  - intros Hh Hkind Hpath.
    apply (resolve_alternate _ _ _ url parsed h kind seg); assumption.
Qed.

Lemma resolver_path_segment_witness :
  extract_video_id_plain (py "https://youtu.be/dQw4w9WgXcQ?si=abc")
    = Returns (Some (py "dQw4w9WgXcQ")) /\
  extract_video_id_plain (py "m.youtube.com/shorts/o-YBDTqX_ZU")
    = Returns (Some (py "o-YBDTqX_ZU")).
Proof.
  split.
  - apply (proj1 (resolver_path_segment
                    urlparse_plain parse_qs_plain ascii_word_only
                    (py "https://youtu.be/dQw4w9WgXcQ?si=abc")
                    {| hostname := Some (py "youtu.be");
                       path := py "/dQw4w9WgXcQ"; query := py "si=abc" |}
                    (py "youtu.be") [] (py "dQw4w9WgXcQ")
                    ltac:(discriminate) eq_refl eq_refl eq_refl eq_refl
                    ltac:(vm_compute; intuition discriminate)
                    ltac:(vm_compute; intuition discriminate)));
      [reflexivity | discriminate | reflexivity].
  - apply (proj2 (resolver_path_segment
                    urlparse_plain parse_qs_plain ascii_word_only
                    (py "m.youtube.com/shorts/o-YBDTqX_ZU")
                    {| hostname := Some (py "m.youtube.com");
                       path := py "/shorts/o-YBDTqX_ZU"; query := [] |}
                    (py "m.youtube.com") (py "shorts") (py "o-YBDTqX_ZU")
                    ltac:(discriminate) eq_refl eq_refl eq_refl eq_refl
                    ltac:(vm_compute; intuition discriminate)
                    ltac:(vm_compute; intuition discriminate)));
      [discriminate | right; left; reflexivity | reflexivity].
Defined.

(** X21: a short link with no path at all makes the resolver raise: it
    takes the second element of a one-element list, and nothing catches
    the IndexError, in the resolver or in [main], which ends with it. *)
Theorem resolver_short_link_without_path :
  forall (urlparse : pystr -> option parsed_url)
         (parse_qs : pystr -> dict (list pystr))
         (unicode_word : N -> bool)
         (extract_info : pystr -> option video_info)
         (json_loads : pystr -> option json)
         (xml_fromstring : pystr -> option element)
         (py_float : pystr -> option Q)
         (fetch : pystr -> option pystr)
         (url : pystr) (parsed : parsed_url) (no_timestamps : bool),
    url <> [] -> matches_bare_id url = false ->
    urlparse (with_scheme url) = Some parsed ->
    hostname parsed = Some (py "youtu.be") ->
    ~ In 47 (path parsed) ->
    extract_video_id urlparse parse_qs unicode_word url = Raises /\
    main_transcript urlparse parse_qs unicode_word extract_info
      json_loads xml_fromstring py_float fetch url no_timestamps
    = Crash.
Proof.
  intros urlparse parse_qs unicode_word extract_info json_loads
         xml_fromstring py_float fetch url parsed no_timestamps
         Hne Hbare Hparse Hhost Hslash.
  assert (E : extract_video_id urlparse parse_qs unicode_word url = Raises)
    by (apply (resolve_short_link_raises _ _ _ url parsed); assumption).
  split; [exact E|]. unfold main_transcript. rewrite E. reflexivity.
Qed.

Lemma resolver_short_link_without_path_witness :
  extract_video_id_plain (py "https://youtu.be") = Raises /\
  extract_video_id_plain (py "youtu.be?t=42") = Raises.
Proof.
  split.
  - exact (proj1 (resolver_short_link_without_path
                    urlparse_plain parse_qs_plain ascii_word_only
                    (fun _ => None) (fun _ => None) (fun _ => None)
                    (fun _ => None) (fun _ => None)
                    (py "https://youtu.be")
                    {| hostname := Some (py "youtu.be");
                       path := []; query := [] |} false
                    ltac:(discriminate) eq_refl eq_refl eq_refl
                    ltac:(intros []))).
  - exact (proj1 (resolver_short_link_without_path
                    urlparse_plain parse_qs_plain ascii_word_only
                    (fun _ => None) (fun _ => None) (fun _ => None)
                    (fun _ => None) (fun _ => None)
                    (py "youtu.be?t=42")
                    {| hostname := Some (py "youtu.be");
                       path := []; query := py "t=42" |} false
                    ltac:(discriminate) eq_refl eq_refl eq_refl
                    ltac:(intros []))).
Defined.

(** X22: an input without [http://] or [https://] in front, other than
    a bare identifier, is resolved exactly as the same input with
    [http://] in front. *)
Theorem resolver_default_scheme :
  forall (urlparse : pystr -> option parsed_url)
         (parse_qs : pystr -> dict (list pystr))
         (unicode_word : N -> bool) (url : pystr),
    url <> [] -> matches_bare_id url = false -> has_scheme url = false ->
    extract_video_id urlparse parse_qs unicode_word url
    = extract_video_id urlparse parse_qs unicode_word (py "http://" ++ url).
Proof.
  intros urlparse parse_qs unicode_word url.
  apply resolve_without_scheme.
Qed.

Lemma resolver_default_scheme_witness :
  extract_video_id_plain (py "youtube.com/watch?v=dQw4w9WgXcQ")
  = extract_video_id_plain (py "http://youtube.com/watch?v=dQw4w9WgXcQ").
Proof.
  apply (resolver_default_scheme
           urlparse_plain parse_qs_plain ascii_word_only
           (py "youtube.com/watch?v=dQw4w9WgXcQ"));
    [discriminate | reflexivity | reflexivity].
Defined.

(** ** The callers *)

Lemma text_to_summarize_limit (markdown : pystr) :
  text_to_summarize markdown = firstn MAX_SUMMARY_LENGTH markdown.
Proof. reflexivity. Qed.

(** X23: the text handed to the summary service.  [main] passes a
    document of at most 50000 characters unchanged and otherwise its
    first 50000 characters followed by the truncation marker, so never
    more than 50000 characters and the marker; the web service passes
    the first 50000 characters without any marker.  The two texts are
    the same exactly for the documents that need no truncation. *)
Theorem summary_input_limit :
  forall markdown : pystr,
    (length (limit_for_summary markdown)
     <= MAX_SUMMARY_LENGTH + length truncation_marker)%nat /\
    ((length markdown <= MAX_SUMMARY_LENGTH)%nat ->
     limit_for_summary markdown = markdown /\
     text_to_summarize markdown = markdown) /\
    ((MAX_SUMMARY_LENGTH < length markdown)%nat ->
     limit_for_summary markdown
       = text_to_summarize markdown ++ truncation_marker /\
     length (text_to_summarize markdown) = MAX_SUMMARY_LENGTH /\
     limit_for_summary markdown <> text_to_summarize markdown).
Proof.
  intros markdown. rewrite text_to_summarize_limit.
  unfold limit_for_summary.
  generalize MAX_SUMMARY_LENGTH. intros limit.
  destruct (limit <? length markdown)%nat eqn:E.
  - apply Nat.ltb_lt in E.
    assert (Hlen : length (firstn limit markdown) = limit)
      by (apply firstn_length_le; lia).
    split; [rewrite length_app; lia|].
    split; [intros H; lia|].
    intros _. split; [reflexivity|]. split; [exact Hlen|].
    intros Heq. apply (f_equal (@length N)) in Heq.
    rewrite length_app in Heq.
    assert (Hm : length truncation_marker = 44%nat) by reflexivity.
    lia.
  - apply Nat.ltb_ge in E.
    split; [lia|].
    split; [intros _; split; [reflexivity | apply firstn_all2; exact E]|].
    intros H. lia.
Qed.

Lemma summary_input_limit_witness :
  limit_for_summary (py "# T") = py "# T" /\
  text_to_summarize (py "# T") = py "# T".
Proof.
  apply (proj1 (proj2 (summary_input_limit (py "# T")))).
  apply Nat.leb_le. vm_compute. reflexivity.
Defined.

Section MainFacts.

Variable urlparse : pystr -> option parsed_url.
Variable parse_qs : pystr -> dict (list pystr).
Variable unicode_word : N -> bool.
Variable extract_info : pystr -> option video_info.
Variable json_loads : pystr -> option json.
Variable xml_fromstring : pystr -> option element.
Variable py_float : pystr -> option Q.
Variable fetch : pystr -> option pystr.

Lemma main_transcript_stages (url : pystr) (no_timestamps : bool)
    (video_id markdown : pystr) :
  main_transcript urlparse parse_qs unicode_word extract_info
    json_loads xml_fromstring py_float fetch url no_timestamps
  = Transcript video_id markdown ->
  video_id <> [] /\
  extract_video_id urlparse parse_qs unicode_word url
    = Returns (Some video_id) /\
  exists info data transcript,
    extract_info video_id = Some info /\
    get_video_info_and_transcript info = Some data /\
    download_and_parse_transcript
      json_loads xml_fromstring py_float fetch data = Some transcript /\
    transcript <> [] /\
    markdown = transcript_to_markdown transcript info (negb no_timestamps).
Proof.
  unfold main_transcript. intros H.
  destruct (extract_video_id urlparse parse_qs unicode_word url)
    as [[[|c v]|]|]; try discriminate H.
  destruct (extract_info (c :: v)) as [info|] eqn:Ei; [|discriminate H].
  destruct (get_video_info_and_transcript info) as [data|] eqn:Eg;
    [|discriminate H].
  destruct (download_and_parse_transcript _ _ _ _ data)
    as [[|e transcript]|] eqn:Ed; try discriminate H.
  injection H as <- <-.
  split; [discriminate|]. split; [reflexivity|].
  exists info, data, (e :: transcript).
  repeat split; try assumption; discriminate.
Qed.

End MainFacts.

(** X24: a document that [main] writes comes from a non-empty
    identifier, an [info] of the extractor for it, a non-empty track
    list of that [info] and a non-empty list of decoded cues.  As the
    cue list is not empty, the document is never the one with the "no
    transcript available" line: in [main] that line cannot be written. *)
Theorem main_document_origin :
  forall (urlparse : pystr -> option parsed_url)
         (parse_qs : pystr -> dict (list pystr))
         (unicode_word : N -> bool)
         (extract_info : pystr -> option video_info)
         (json_loads : pystr -> option json)
         (xml_fromstring : pystr -> option element)
         (py_float : pystr -> option Q)
         (fetch : pystr -> option pystr)
         (url : pystr) (no_timestamps : bool) (video_id markdown : pystr),
    main_transcript urlparse parse_qs unicode_word extract_info
      json_loads xml_fromstring py_float fetch url no_timestamps
    = Transcript video_id markdown ->
    video_id <> [] /\
    extract_video_id urlparse parse_qs unicode_word url
      = Returns (Some video_id) /\
    exists info data transcript,
      extract_info video_id = Some info /\
      get_video_info_and_transcript info = Some data /\
      data <> [] /\
      download_and_parse_transcript
        json_loads xml_fromstring py_float fetch data = Some transcript /\
      transcript <> [] /\
      markdown = transcript_to_markdown transcript info (negb no_timestamps) /\
      markdown <> header (get_or (title info) (py "Unknown Title"))
                         (get_or (id info) (py "Unknown ID")) ++
                  no_transcript_marker.
Proof.
  intros urlparse parse_qs unicode_word extract_info json_loads
         xml_fromstring py_float fetch url no_timestamps video_id markdown H.
  destruct (main_transcript_stages _ _ _ _ _ _ _ _ _ _ _ _ H)
    as [Hv [He [info [data [transcript [Hi [Hg [Hd [Hne Hm]]]]]]]]].
  split; [exact Hv|]. split; [exact He|].
  exists info, data, transcript.
  split; [exact Hi|]. split; [exact Hg|]. split.
  { unfold get_video_info_and_transcript, returned_transcript in Hg.
    destruct (transcript_data _) as [[|x d]|]; cbn [truthy] in Hg;
      try discriminate Hg.
    injection Hg as <-. discriminate. }
  split; [exact Hd|]. split; [exact Hne|]. split; [exact Hm|].
  rewrite Hm. apply document_is_not_marker. exact Hne.
Qed.

Lemma main_document_origin_witness :
  let info := {| title := Some (py "T"); id := Some (py "x");
                 description := None;
                 subtitles := Some [(py "en", [variant "vtt" "u"])];
                 automatic_captions := None |} in
  let content := join nl [py "00:01 --> 00:02"; py "Hi."] in
  let run := main_transcript urlparse_plain parse_qs_plain ascii_word_only
               (fun _ => Some info) (fun _ => None) (fun _ => None)
               (fun _ => None) (fun _ => Some content)
               (py "dQw4w9WgXcQ") false in
  run = Transcript (py "dQw4w9WgXcQ")
          (header (py "T") (py "x") ++
           py "**[0:00:01]** Hi." ++ nl ++ nl) /\
  py "dQw4w9WgXcQ" <> [].
Proof.
  intros info content run.
  assert (H : run = Transcript (py "dQw4w9WgXcQ")
                      (header (py "T") (py "x") ++
                       py "**[0:00:01]** Hi." ++ nl ++ nl))
    by (vm_compute; reflexivity).
  split; [exact H|].
  exact (proj1 (main_document_origin _ _ _ _ _ _ _ _ _ _ _ _ H)).
Defined.

(** ** The summary service *)

(** X25: from the decoded response [call_gemini_api] returns the
    [text] of the first part of the content of the first candidate, and
    looks at nothing else: further candidates and further parts do not
    change the result.  A response without [candidates], or with an
    empty list of them, gives no summary. *)
Theorem response_summary_first_candidate :
  forall (result candidate content part : dict json)
         (candidates parts : list json) (summary : pystr),
    (dict_get (py "candidates") result
       = Some (JArr (JObj candidate :: candidates)) ->
     dict_get (py "content") candidate = Some (JObj content) ->
     dict_get (py "parts") content = Some (JArr (JObj part :: parts)) ->
     dict_get (py "text") part = Some (JStr summary) ->
     response_summary (JObj result) = Some (JStr summary)) /\
    (dict_get (py "candidates") result = None \/
     dict_get (py "candidates") result = Some (JArr []) ->
     response_summary (JObj result) = None).
Proof.
  intros result candidate content part candidates parts summary. split.
  - intros Hc Hcontent Hparts Htext. unfold response_summary.
    cbn [py_in]. unfold dict_mem. rewrite Hc. cbn [bind py_getitem].
    rewrite Hc. cbn [bind py_len length Nat.ltb Nat.leb py_first py_in].
    unfold dict_mem. rewrite Hcontent. cbn [bind py_getitem].
    rewrite Hcontent. cbn [bind py_in]. unfold dict_mem. rewrite Hparts.
    cbn [bind py_getitem]. rewrite Hparts. cbn [bind py_first py_getitem].
    rewrite Htext. reflexivity.
  - intros [H | H]; unfold response_summary; cbn [py_in]; unfold dict_mem;
      rewrite H; [reflexivity|].
    cbn [bind py_getitem]. rewrite H. reflexivity.
Qed.

Lemma response_summary_first_candidate_witness :
  let part := [(py "text", JStr (py "Summary."))] in
  let content := [(py "parts", JArr [JObj part; JNull]);
                  (py "role", JStr (py "model"))] in
  let candidate := [(py "content", JObj content)] in
  let result := [(py "candidates", JArr [JObj candidate; JNum 3])] in
  response_summary (JObj result) = Some (JStr (py "Summary.")).
Proof.
  intros part content candidate result.
  apply (proj1 (response_summary_first_candidate
                  result candidate content part [JNum 3] [JNull]
                  (py "Summary."))); reflexivity.
Defined.

Section GeminiFacts.

Variable unicode_alpha : N -> bool.

Lemma japanese_char_counted (c : N) :
  japanese_char c = true ->
  unicode_alpha c || ((12352 <=? c) && (c <=? 40879)) = true.
Proof.
  unfold japanese_char. intros H.
  assert (R : (12352 <=? c) && (c <=? 40879) = true).
  { apply andb_true_iff. rewrite !N.leb_le.
    repeat (apply orb_true_iff in H; destruct H as [H | H]);
      apply andb_true_iff in H; rewrite !N.leb_le in H; lia. }
  rewrite R. apply orb_true_r.
Qed.

Lemma filter_all {A : Type} (f : A -> bool) (l : list A) :
  forallb f l = true -> filter f l = l.
Proof.
  induction l as [|x l IH]; intros H; [reflexivity|].
  simpl in H. apply andb_true_iff in H. destruct H as [Hx Hl].
  cbn [filter]. rewrite Hx, (IH Hl). reflexivity.
Qed.

Lemma filter_none {A : Type} (f : A -> bool) (l : list A) :
  forallb (fun x => negb (f x)) l = true -> filter f l = [].
Proof.
  induction l as [|x l IH]; intros H; [reflexivity|].
  simpl in H. apply andb_true_iff in H. destruct H as [Hx Hl].
  apply negb_true_iff in Hx. cbn [filter]. rewrite Hx. exact (IH Hl).
Qed.

Lemma summary_language_cases (text language : pystr) :
  (language <> py "auto" ->
   summary_language unicode_alpha text language = language) /\
  (forallb (fun c => negb (japanese_char c)) text = true ->
   summary_language unicode_alpha text (py "auto") = py "en") /\
  (text <> [] -> forallb japanese_char text = true ->
   summary_language unicode_alpha text (py "auto") = py "ja").
Proof.
  split; [|split].
  - intros H. unfold summary_language.
    rewrite (str_eqb_false _ _ H). reflexivity.
  - intros H. unfold summary_language, japanese_chars.
    change (str_eqb (py "auto") (py "auto")) with true. cbv iota.
    rewrite (filter_none _ _ H). cbn [length].
    rewrite Nat.mul_0_r.
    destruct (0 <? total_chars unicode_alpha text)%nat; reflexivity.
  - intros Hne H. unfold summary_language, japanese_chars, total_chars.
    change (str_eqb (py "auto") (py "auto")) with true. cbv iota.
    rewrite (filter_all _ _ H).
    rewrite filter_all
      by (rewrite forallb_forall in *; intros c Hc;
          apply japanese_char_counted; apply H; exact Hc).
    assert (Hlen : (0 < length text)%nat)
      by (destruct text; [congruence | simpl; lia]).
    assert (E1 : (0 <? length text)%nat = true) by (apply Nat.ltb_lt; lia).
    assert (E2 : (3 * length text <? 10 * length text)%nat = true)
      by (apply Nat.ltb_lt; lia).
    rewrite E1, E2. reflexivity.
Qed.

End GeminiFacts.

(** X26: the language of the summary prompt.  A language other than
    "auto" is taken as given.  With "auto", a text without any Japanese
    character gives "en", whatever its other characters are, and a
    non-empty text made of Japanese characters only gives "ja". *)
Theorem summary_language_choice :
  forall (unicode_alpha : N -> bool) (text language : pystr),
    (language <> py "auto" ->
     summary_language unicode_alpha text language = language) /\
    (forallb (fun c => negb (japanese_char c)) text = true ->
     summary_language unicode_alpha text (py "auto") = py "en") /\
    (text <> [] -> forallb japanese_char text = true ->
     summary_language unicode_alpha text (py "auto") = py "ja").
Proof. intros. apply summary_language_cases. Qed.

Lemma summary_language_choice_witness :
  summary_language (fun _ => true) (py "Hello") (py "auto") = py "en" /\
  summary_language (fun _ => true) [12371; 12435] (py "auto") = py "ja".
Proof.
  split.
  - apply (proj1 (proj2 (summary_language_choice
                           (fun _ => true) (py "Hello") []))).
    reflexivity.
  - apply (proj2 (proj2 (summary_language_choice
                           (fun _ => true) [12371; 12435] [])));
      [discriminate | reflexivity].
Defined.

(** ** More on timestamps and on the language priority *)



(** X28: when the manual subtitles offer both "ja" and "en" with
    non-empty track lists, the selector returns the Japanese ones for
    content detected as Japanese and the English ones otherwise,
    whatever the automatic captions are. *)
Theorem selection_follows_detected_language :
  forall (detected : pystr) (manual automatic : dict (list TrackVariant))
         (japanese english : list TrackVariant),
    dict_get (py "ja") manual = Some japanese ->
    dict_get (py "en") manual = Some english ->
    japanese <> [] -> english <> [] ->
    returned_transcript (choose_transcript detected manual automatic)
    = Some (if str_eqb detected (py "ja") then japanese else english).
Proof.
  intros detected manual automatic japanese english Hja Hen Hj He.
  assert (Hret : forall kind l X, X <> [] ->
             returned_transcript (selected kind l X) = Some X).
  { intros kind l X HX. unfold returned_transcript, selected.
    cbn [transcript_data]. rewrite (truthy_nonempty X HX). reflexivity. }
  destruct (str_eqb detected (py "ja")) eqn:E.
  - rewrite (choose_manual detected manual automatic (py "ja") japanese);
      [apply Hret; exact Hj | | exact Hj].
    unfold preferred_languages. rewrite E. cbn [first_preferred].
    rewrite Hja. reflexivity.
  - rewrite (choose_manual detected manual automatic (py "en") english);
      [apply Hret; exact He | | exact He].
    unfold preferred_languages. rewrite E. cbn [first_preferred].
    rewrite Hen. reflexivity.
Qed.

Lemma selection_follows_detected_language_witness :
  let ja := [variant "vtt" "j"] in
  let en := [variant "vtt" "e"] in
  returned_transcript
    (choose_transcript (py "en") [(py "ja", ja); (py "en", en)] [])
  = Some en.
Proof.
  intros ja en.
  apply (selection_follows_detected_language
           (py "en") [(py "ja", ja); (py "en", en)] [] ja en);
    [reflexivity | reflexivity | discriminate | discriminate].
Defined.
